(** * ST7735 TFT display driver (stmhal/ST7735.c): a shallow embedding

    The driver talks to the display over SPI, with three GPIO lines
    (chip select, data/command select, reset).  The embedding keeps the
    driver object [pyb_tft_obj_t] as a record, and records every GPIO
    write, SPI byte and delay as an event of a trace, in a small
    state-and-trace monad.  C [int], [uint] and [byte] values are
    integers of [Z] with the wrap-around of the 32-bit ARM target
    written out. *)

From Stdlib Require Import ZArith List Bool String Lia.
Import ListNotations.
Local Open Scope Z_scope.

(** ** C integer types *)

Module CInt.

(** Conversion to [int] (32 bits, two's complement). *)
Definition int_of (z : Z) : Z := (z + 2147483648) mod 4294967296 - 2147483648.

(** Conversion to [uint] (32 bits). *)
Definition uint_of (z : Z) : Z := z mod 4294967296.

(** Conversion to [byte] / [uint8_t]. *)
Definition byte_of (z : Z) : Z := z mod 256.

Definition INT_MIN : Z := -2147483648.
Definition INT_MAX : Z := 2147483647.

Definition is_int (z : Z) : Prop := INT_MIN <= z <= INT_MAX.

End CInt.
Import CInt.

(** ** The driver object and the bus *)

(** Board pins are known by their names ([pin_A4], a named pin of the
    board dictionary). *)
Definition pin_obj_t : Type := string.

Definition pin_A4 : pin_obj_t := "A4"%string.
Definition pin_B1 : pin_obj_t := "B1"%string.

Inductive SPI_HandleTypeDef : Type :=
| SPIHandle1
| SPIHandle2.

Record pyb_tft_obj_t : Type := mk_tft {
  spi : SPI_HandleTypeDef;
  pin_cs : pin_obj_t;
  pin_rst : pin_obj_t;
  pin_dc : pin_obj_t;
  size0 : Z;     (* int size[0]: width *)
  size1 : Z;     (* int size[1]: height *)
  rotate : Z;    (* uint, rotation 0-3 *)
  rgb : Z        (* uint, TFTRGB or TFTBGR selector *)
}.

(** What the driver does to the outside world. *)
Inductive event : Type :=
| GPIO_clear_pin (p : pin_obj_t)
| GPIO_set_pin (p : pin_obj_t)
| HAL_SPI_Transmit (h : SPI_HandleTypeDef) (b : Z)
| HAL_Delay (ms : Z).

(** A driver function reads and writes the object and appends to the
    trace. *)
Definition M (A : Type) : Type :=
  pyb_tft_obj_t -> A * pyb_tft_obj_t * list event.

Definition ret {A : Type} (a : A) : M A := fun self => (a, self, []).

Definition bind {A B : Type} (m : M A) (k : A -> M B) : M B :=
  fun self =>
    let '(a, self1, t1) := m self in
    let '(b, self2, t2) := k a self1 in
    (b, self2, t1 ++ t2).

Definition get : M pyb_tft_obj_t := fun self => (self, self, []).
Definition put (self' : pyb_tft_obj_t) : M unit := fun _ => (tt, self', []).
Definition emit (e : event) : M unit := fun self => (tt, self, [e]).

Declare Scope tft_scope.
Delimit Scope tft_scope with tft.
Notation "x <- m ;; k" := (bind m (fun x => k))
  (at level 61, m at next level, right associativity) : tft_scope.
Notation "m ;; k" := (bind m (fun _ => k))
  (at level 61, right associativity) : tft_scope.
Local Open Scope tft_scope.

(** The object and the trace a computation ends with. *)
Definition obj_after {A : Type} (m : M A) (self : pyb_tft_obj_t) : pyb_tft_obj_t :=
  snd (fst (m self)).
Definition trace {A : Type} (m : M A) (self : pyb_tft_obj_t) : list event :=
  snd (m self).
Definition value {A : Type} (m : M A) (self : pyb_tft_obj_t) : A :=
  fst (fst (m self)).

(** [for (i = i0; i < i0 + n; ++i) body(i)] *)
Fixpoint for_loop (n : nat) (i : Z) (body : Z -> M unit) : M unit :=
  match n with
  | O => ret tt
  | S n' => body i ;; for_loop n' (i + 1) body
  end.

(** ** Controller commands *)

Definition ST_NOP : Z := 0x0.
Definition ST_SWRESET : Z := 0x01.
Definition ST_SLPOUT : Z := 0x11.
Definition ST_NORON : Z := 0x13.
Definition ST_INVOFF : Z := 0x20.
Definition ST_INVON : Z := 0x21.
Definition ST_DISPOFF : Z := 0x28.
Definition ST_DISPON : Z := 0x29.
Definition ST_CASET : Z := 0x2A.
Definition ST_RASET : Z := 0x2B.
Definition ST_RAMWR : Z := 0x2C.
Definition ST_COLMOD : Z := 0x3A.
Definition ST_MADCTL : Z := 0x36.
Definition ST_FRMCTR1 : Z := 0xB1.
Definition ST_FRMCTR2 : Z := 0xB2.
Definition ST_FRMCTR3 : Z := 0xB3.
Definition ST_INVCTR : Z := 0xB4.
Definition ST_DISSET5 : Z := 0xB6.
Definition ST_PWCTR1 : Z := 0xC0.
Definition ST_PWCTR2 : Z := 0xC1.
Definition ST_PWCTR3 : Z := 0xC2.
Definition ST_PWCTR4 : Z := 0xC3.
Definition ST_PWCTR5 : Z := 0xC4.
Definition ST_VMCTR1 : Z := 0xC5.
Definition ST_PWCTR6 : Z := 0xFC.
Definition ST_GMCTRP1 : Z := 0xE0.
Definition ST_GMCTRN1 : Z := 0xE1.

Definition TFTRotations : list Z := [0x00; 0x60; 0xC0; 0xA0].
Definition TFTBGR : Z := 0x08.
Definition TFTRGB : Z := 0x00.

(** [a[i]] of a C array; the value read outside the array is left at 0. *)
Definition index (a : list Z) (i : Z) : Z := nth (Z.to_nat i) a 0.

(** [a[i] = v] on a local array. *)
Fixpoint store (a : list Z) (i : nat) (v : Z) : list Z :=
  match a, i with
  | [], _ => []
  | _ :: r, O => v :: r
  | x :: r, S i' => x :: store r i' v
  end.

(** ** Bus protocol layer *)

(** Hardware reset. *)
Definition _reset : M unit :=
  self <- get ;;
  emit (GPIO_clear_pin (pin_dc self)) ;;
  emit (GPIO_set_pin (pin_rst self)) ;;
  emit (HAL_Delay 500) ;;
  emit (GPIO_clear_pin (pin_rst self)) ;;
  emit (HAL_Delay 500) ;;
  emit (GPIO_set_pin (pin_rst self)).

(** Send given command to device. *)
Definition _writecommand (command : Z) : M unit :=
  self <- get ;;
  emit (GPIO_clear_pin (pin_cs self)) ;;
  emit (GPIO_clear_pin (pin_dc self)) ;;
  emit (HAL_SPI_Transmit (spi self) (byte_of command)) ;;
  emit (GPIO_set_pin (pin_cs self)).

(** Send data to device. *)
Definition _writedata (data_in : list Z) (count : Z) : M unit :=
  self <- get ;;
  emit (GPIO_clear_pin (pin_cs self)) ;;
  emit (GPIO_set_pin (pin_dc self)) ;;
  for_loop (Z.to_nat count) 0
    (fun i => emit (HAL_SPI_Transmit (spi self) (index data_in i))) ;;
  emit (GPIO_set_pin (pin_cs self)).

(** The byte [TFTRotations[self->rotate] | rgb] that [_setMADCTL]
    sends, [rgb] being [self->rgb ? TFTRGB : TFTBGR]. *)
Definition madctl_data (self : pyb_tft_obj_t) : Z :=
  let rgb := if rgb self =? 0 then TFTBGR else TFTRGB in
  byte_of (Z.lor (index TFTRotations (rotate self)) rgb).

(** Send rotation and rgb state to device. *)
Definition _setMADCTL : M unit :=
  self <- get ;;
  _writecommand ST_MADCTL ;;
  _writedata [madctl_data self] 1.

(** Set the rectangle used for drawing when colors are sent to the
    device.  The four parameters are [byte]s: the arguments are
    converted on the way in. *)
Definition _setwindowloc (sx sy ex ey : Z) : M unit :=
  let sx := byte_of sx in
  let sy := byte_of sy in
  let ex := byte_of ex in
  let ey := byte_of ey in
  let dataA := [0; sx; 0; ex] in
  _writecommand ST_CASET ;;
  _writedata dataA 4 ;;
  let dataA := store dataA 1 sy in
  let dataA := store dataA 3 ey in
  _writecommand ST_RASET ;;
  _writedata dataA 4 ;;
  _writecommand ST_RAMWR.

(** Clamp value between min/max *)
Definition _clamp (min max value : Z) : Z :=
  if value <? min then min else if value >? max then max else value.

(** The two bytes [{ color >> 8, color }] of a color. *)
Definition color_bytes (color : Z) : list Z :=
  [byte_of (Z.shiftr color 8); byte_of color].

(** Draw a pixel at the given position with the given color. *)
Definition _pixel (x y : Z) (colorA : list Z) : M unit :=
  self <- get ;;
  if (0 <=? x) && (x <? size0 self) && (0 <=? y) && (y <? size1 self) then
    _setwindowloc x y (int_of (x + 1)) (int_of (y + 1)) ;;
    _writedata colorA 2
  else ret tt.

(** Send the given color to the device for numPixels. *)
Definition _draw (numPixels color : Z) : M unit :=
  self <- get ;;
  let colorA := color_bytes color in
  emit (GPIO_clear_pin (pin_cs self)) ;;
  emit (GPIO_set_pin (pin_dc self)) ;;
  for_loop (Z.to_nat numPixels) 0
    (fun _ =>
       emit (HAL_SPI_Transmit (spi self) (index colorA 0)) ;;
       emit (HAL_SPI_Transmit (spi self) (index colorA 1))) ;;
  emit (GPIO_set_pin (pin_cs self)).

(** ** Simple methods *)

(** [command(command)]: send a command to the display. *)
Definition pyb_tft_command (command : Z) : M unit :=
  _writecommand command.

(** [data(buf)]: send arbitrary data to the display. *)
Definition pyb_tft_data (buf : list Z) : M unit :=
  _writedata buf (Z.of_nat (List.length buf)).

(** [on(value)]: turn the display on/off. *)
Definition pyb_tft_on (value : bool) : M unit :=
  _writecommand (if value then ST_DISPON else ST_DISPOFF).

(** [invertcolor(value)]: 0 = normal else inverted. *)
Definition pyb_tft_invertcolor (value : bool) : M unit :=
  _writecommand (if value then ST_INVON else ST_INVOFF).

Definition set_rgb (self : pyb_tft_obj_t) (v : Z) : pyb_tft_obj_t :=
  mk_tft (spi self) (pin_cs self) (pin_rst self) (pin_dc self)
         (size0 self) (size1 self) (rotate self) v.

Definition set_rotate (self : pyb_tft_obj_t) (v : Z) : pyb_tft_obj_t :=
  mk_tft (spi self) (pin_cs self) (pin_rst self) (pin_dc self)
         (size0 self) (size1 self) v (rgb self).

Definition set_size (self : pyb_tft_obj_t) (w h : Z) : pyb_tft_obj_t :=
  mk_tft (spi self) (pin_cs self) (pin_rst self) (pin_dc self)
         w h (rotate self) (rgb self).

(** [rgb(value)]: set tft color format to rgb or bgr.  0 = bgr
    otherwise rgb. *)
Definition pyb_tft_rgb (value : bool) : M unit :=
  self <- get ;;
  let rgb_ := if value then 1 else 0 in
  if negb (rgb_ =? rgb self) then
    put (set_rgb self rgb_) ;;
    _setMADCTL
  else ret tt.

(** [rotation(value)]: set rotation of tft display. *)
Definition pyb_tft_rotation (rotation_in : Z) : M unit :=
  self <- get ;;
  let rotate_ := Z.land rotation_in 0x03 in
  let rotchange := int_of (Z.lxor (rotate self) (uint_of rotate_)) in
  put (set_rotate self (uint_of rotate_)) ;;
  (if negb (Z.land rotchange 1 =? 0) then
     self <- get ;;
     let x := size0 self in
     put (set_size self (size1 self) x)
   else ret tt) ;;
  _setMADCTL.

(** [size()]: return the size as a (w, h) tuple. *)
Definition pyb_tft_size : M (Z * Z) :=
  self <- get ;;
  ret (size0 self, size1 self).

(** ** Text *)

Record tft_font_data : Type := mk_font {
  font_width : Z;       (* uint width *)
  font_height : Z;      (* uint height *)
  font_start : Z;       (* uint start *)
  font_end : Z;         (* uint end *)
  font_data : list Z    (* const uint8_t *data *)
}.

(** The rows of one glyph column at scale 1: one [_pixel] per set bit. *)
Fixpoint drawchar_rows1 (n : nat) (x cy c : Z) (colorA : list Z) : M unit :=
  match n with
  | O => ret tt
  | S n' =>
      (if negb (Z.land c 0x01 =? 0) then _pixel x cy colorA else ret tt) ;;
      drawchar_rows1 n' x (int_of (cy + 1)) (Z.shiftr c 1) colorA
  end.

(** The columns of a glyph at scale 1. *)
Fixpoint drawchar_cols1 (n : nat) (charA : Z) (x y : Z) (colorA : list Z)
    (font : tft_font_data) : M unit :=
  match n with
  | O => ret tt
  | S n' =>
      let c := byte_of (index (font_data font) charA) in
      drawchar_rows1 (Z.to_nat (font_height font)) x y c colorA ;;
      drawchar_cols1 n' (charA + 1) (int_of (x + 1)) y colorA font
  end.

(** The rows of one glyph column at a larger scale: one block of
    [numPixels] colors per set bit. *)
Fixpoint drawchar_rowsN (n : nat) (x cy c : Z) (colorA : list Z)
    (sx sy numPixels : Z) : M unit :=
  match n with
  | O => ret tt
  | S n' =>
      (if negb (Z.land c 0x01 =? 0) then
         self <- get ;;
         _setwindowloc x cy (int_of (x + sx - 1)) (int_of (cy + sy - 1)) ;;
         emit (GPIO_clear_pin (pin_cs self)) ;;
         emit (GPIO_set_pin (pin_dc self)) ;;
         for_loop (Z.to_nat numPixels) 0
           (fun _ =>
              emit (HAL_SPI_Transmit (spi self) (index colorA 0)) ;;
              emit (HAL_SPI_Transmit (spi self) (index colorA 1))) ;;
         emit (GPIO_set_pin (pin_cs self))
       else ret tt) ;;
      drawchar_rowsN n' x (int_of (cy + sy)) (Z.shiftr c 1) colorA sx sy numPixels
  end.

(** The columns of a glyph at a larger scale. *)
Fixpoint drawchar_colsN (n : nat) (charA : Z) (x y : Z) (colorA : list Z)
    (font : tft_font_data) (sx sy numPixels : Z) : M unit :=
  match n with
  | O => ret tt
  | S n' =>
      let c := byte_of (index (font_data font) charA) in
      drawchar_rowsN (Z.to_nat (font_height font)) x y c colorA sx sy numPixels ;;
      drawchar_colsN n' (charA + 1) (int_of (x + sx)) y colorA font sx sy numPixels
  end.

(** Draw a character at the given position using the 2 byte color
    array.  Pixels come from the given font and are scaled by sx, sy. *)
Definition _drawchar (x y ci : Z) (colorA : list Z) (font : tft_font_data)
    (sx sy : Z) : M unit :=
  if (font_start font <=? ci) && (ci <=? font_end font) then
    let ci := uint_of (uint_of (ci - font_start font) * font_width font) in
    if (sx <=? 1) && (sy <=? 1) then
      drawchar_cols1 (Z.to_nat (font_width font)) ci x y colorA font
    else
      let numPixels := uint_of (sx * sy) in
      drawchar_colsN (Z.to_nat (font_width font)) ci x y colorA font sx sy numPixels
  else ret tt.

(** The optional size argument of [text]: absent (or neither a tuple
    nor an integer), a tuple, or one integer. *)
Inductive text_size : Type :=
| SizeDefault
| SizeTuple (sx sy : Z)
| SizeInt (s : Z).

(** The cursor after one character: [px += width], and the wrap to the
    next line.  [None] is the [break] that ends the text. *)
Definition text_advance (self : pyb_tft_obj_t) (x px y width height : Z)
    : option (Z * Z) :=
  let px := int_of (px + width) in
  if uint_of (px + width) >? uint_of (size0 self) then
    let y := int_of (y + height) in
    if y >? size1 self then None
    else Some (x, y)
  else Some (px, y).

(** The loop of [text] over the characters of the string, each an
    unsigned [char] of the ARM target. *)
Fixpoint text_loop (data : list Z) (x px y : Z) (colorA : list Z)
    (font : tft_font_data) (sx sy width height : Z) : M unit :=
  match data with
  | [] => ret tt
  | c :: data' =>
      _drawchar px y c colorA font (int_of sx) (int_of sy) ;;
      self <- get ;;
      match text_advance self x px y width height with
      | None => ret tt
      | Some (px', y') => text_loop data' x px' y' colorA font sx sy width height
      end
  end.

(** ** Drawing methods *)

(** [pixel(pos, colour)]: set the pixel at (x, y) to the given colour. *)
Definition pyb_tft_pixel (pos : Z * Z) (color : Z) : M unit :=
  let px := fst pos in
  let py := snd pos in
  let colorA := color_bytes color in
  _pixel px py colorA.

(** The window [vline] hands to [_setwindowloc]: the values of
    [px, py, px, ey] after clamping and swapping. *)
Definition vline_window (self : pyb_tft_obj_t) (pos : Z * Z) (len : Z)
    : Z * Z * Z * Z :=
  let px := fst pos in
  let py := snd pos in
  let px := _clamp 0 (size0 self) px in
  let py := _clamp 0 (size1 self) py in
  let ey := _clamp 0 (size1 self) (int_of (py + len)) in
  let '(py, ey) := if ey <? py then (ey, py) else (py, ey) in
  (px, py, px, ey).

(** [vline(start, len, colour)]: draw a vertical line from start for
    length with colour. *)
Definition pyb_tft_vline (pos : Z * Z) (len color : Z) : M unit :=
  self <- get ;;
  let '(sx, sy, ex, ey) := vline_window self pos len in
  _setwindowloc sx sy ex ey ;;
  _draw len color.

(** The window [hline] hands to [_setwindowloc]: the values of
    [px, py, ex, py] after clamping and swapping. *)
Definition hline_window (self : pyb_tft_obj_t) (pos : Z * Z) (len : Z)
    : Z * Z * Z * Z :=
  let px := fst pos in
  let py := snd pos in
  let px := _clamp 0 (size0 self) px in
  let py := _clamp 0 (size1 self) py in
  let ex := _clamp 0 (size0 self) (int_of (px + len)) in
  let '(px, ex) := if ex <? px then (ex, px) else (px, ex) in
  (px, py, ex, py).

(** [hline(start, len, colour)]: draw a horizontal line from start for
    length with colour. *)
Definition pyb_tft_hline (pos : Z * Z) (len color : Z) : M unit :=
  self <- get ;;
  let '(sx, sy, ex, ey) := hline_window self pos len in
  _setwindowloc sx sy ex ey ;;
  _draw len color.

(** The loop [while (px != ex)] of [line], for a line whose major axis
    is x.  The loop is cut after [fuel] turns; the result tells whether
    it left through its condition. *)
Fixpoint line_loop_x (fuel : nat) (ex inx iny dx dy : Z) (px py e : Z)
    (colorA : list Z) : M bool :=
  if px =? ex then ret true
  else
    match fuel with
    | O => ret false
    | S fuel' =>
        _pixel px py colorA ;;
        let '(py, e) :=
          if e >=? 0 then (int_of (py + iny), int_of (e - dx)) else (py, e) in
        let e := int_of (e + dy) in
        let px := int_of (px + inx) in
        line_loop_x fuel' ex inx iny dx dy px py e colorA
    end.

(** The loop [while (py != ey)] of [line], for a line whose major axis
    is y. *)
Fixpoint line_loop_y (fuel : nat) (ey inx iny dx dy : Z) (px py e : Z)
    (colorA : list Z) : M bool :=
  if py =? ey then ret true
  else
    match fuel with
    | O => ret false
    | S fuel' =>
        _pixel px py colorA ;;
        let '(px, e) :=
          if e >=? 0 then (int_of (px + inx), int_of (e - dy)) else (px, e) in
        let e := int_of (e + dx) in
        let py := int_of (py + iny) in
        line_loop_y fuel' ey inx iny dx dy px py e colorA
    end.

(** The Bresenham branch of [line]: neither vertical nor horizontal.
    The loops get the number of turns the major axis asks for,
    [|ex - px|] or [|ey - py|]. *)
Definition line_bresenham (px py ex ey color : Z) : M bool :=
  let colorA := color_bytes color in
  let dx := int_of (ex - px) in
  let dy := int_of (ey - py) in
  let inx := if dx >? 0 then 1 else -1 in
  let iny := if dy >? 0 then 1 else -1 in
  let fuel_x := Z.to_nat (Z.abs dx) in
  let fuel_y := Z.to_nat (Z.abs dy) in
  let dx := if dx >=? 0 then dx else int_of (- dx) in
  let dy := if dy >=? 0 then dy else int_of (- dy) in
  if dx >=? dy then
    let dy := int_of (Z.shiftl dy 1) in
    let e := int_of (dy - dx) in
    let dx := int_of (Z.shiftl dx 1) in
    line_loop_x fuel_x ex inx iny dx dy px py e colorA
  else
    let dx := int_of (Z.shiftl dx 1) in
    let e := int_of (dx - dy) in
    let dy := int_of (Z.shiftl dy 1) in
    line_loop_y fuel_y ey inx iny dx dy px py e colorA.

(** [line(start, end, colour)]: draws a line from start to end in the
    given colour.  Vertical or horizontal lines are forwarded to vline
    and hline. *)
Definition pyb_tft_line (start end_ : Z * Z) (color : Z) : M unit :=
  let px := fst start in
  let py := snd start in
  let ex := fst end_ in
  let ey := snd end_ in
  if px =? ex then
    let len := int_of (ey - py) in
    if len <? 0 then pyb_tft_vline end_ (int_of (- len + 1)) color
    else pyb_tft_vline start (int_of (len + 1)) color
  else if py =? ey then
    let len := int_of (ex - px) in
    if len <? 0 then pyb_tft_hline end_ (int_of (- len + 1)) color
    else pyb_tft_hline start (int_of (len + 1)) color
  else
    _ <- line_bresenham px py ex ey color ;;
    ret tt.

(** [rect(start, size, colour)]: draw rectangle at start for size with
    colour. *)
Definition pyb_tft_rect (pos size : Z * Z) (color : Z) : M unit :=
  let px := fst pos in
  let py := snd pos in
  let sx := fst size in
  let sy := snd size in
  let right := (int_of (px + sx - 1), snd pos) in
  let bottom := (fst pos, int_of (py + sy - 1)) in
  pyb_tft_hline bottom (fst size) color ;;
  pyb_tft_hline pos (fst size) color ;;
  pyb_tft_vline pos (snd size) color ;;
  pyb_tft_vline right (snd size) color.

(** The window [fillrect] hands to [_setwindowloc]: the values of
    [px, py, ex, ey] after clamping and swapping. *)
Definition fillrect_window (self : pyb_tft_obj_t) (pos size : Z * Z)
    : Z * Z * Z * Z :=
  let px := fst pos in
  let py := snd pos in
  let sx := fst size in
  let sy := snd size in
  let px := _clamp 0 (size0 self) px in
  let py := _clamp 0 (size1 self) py in
  let ex := _clamp 0 (size0 self) (int_of (px + sx - 1)) in
  let ey := _clamp 0 (size1 self) (int_of (py + sy - 1)) in
  let '(px, ex) := if ex <? px then (ex, px) else (px, ex) in
  let '(py, ey) := if ey <? py then (ey, py) else (py, ey) in
  (px, py, ex, ey).

(** [fillrect(start, size, colour)]: fill rectangle at start for size
    with colour. *)
Definition pyb_tft_fillrect (pos size : Z * Z) (color : Z) : M unit :=
  self <- get ;;
  let '(px, py, ex, ey) := fillrect_window self pos size in
  _setwindowloc px py ex ey ;;
  let numPixels := int_of ((ex - px + 1) * (ey - py + 1)) in
  _draw numPixels color.

(** [fill(colour = 0)]: fill screen with given color or BLACK if no
    color given. *)
Definition pyb_tft_fill (color : option Z) : M unit :=
  self <- get ;;
  let color := match color with Some c => c | None => 0 end in
  _setwindowloc 0 0 (int_of (size0 self - 1)) (int_of (size1 self - 1)) ;;
  let numPixels := int_of (size0 self * size1 self) in
  _draw numPixels color.

Definition absint (v : Z) : Z := if v <? 0 then int_of (- v) else v.

Section Driver.

(** The glyph table of the built-in font (font_petme128_8x8.h). *)
Variable font_petme128_8x8 : list Z.

(** [(int)sqrtf((float)(rad * rad) - (float)(x * x))], the
    single-precision square root of the C library, as a function of
    [rad] and [x]. *)
Variable sqrtf_int : Z -> Z -> Z.

Definition DefaultFont : tft_font_data :=
  mk_font 8 8 32 127 font_petme128_8x8.

(** [text(pos, string, color, font, size=1)]: write the string to the
    screen.  [font] is [Some] when a dictionary with the five keys was
    given, with the integers found there. *)
Definition pyb_tft_text (pos : Z * Z) (data : list Z) (color : Z)
    (font : option tft_font_data) (size : text_size) : M unit :=
  let x := fst pos in
  let y := snd pos in
  let colorA := color_bytes color in
  let '(sx, sy) :=
    match size with
    | SizeDefault => (1, 1)
    | SizeTuple sx sy => (uint_of sx, uint_of sy)
    | SizeInt s => (uint_of s, uint_of s)
    end in
  let font :=
    match font with
    | Some d => mk_font (uint_of (font_width d)) (uint_of (font_height d))
                        (uint_of (font_start d)) (uint_of (font_end d))
                        (font_data d)
    | None => DefaultFont
    end in
  let px := x in
  let width := uint_of (font_width font * sx) in
  let height := uint_of (font_height font * sy + 1) in
  text_loop data x px y colorA font sx sy width height.

(** [circle(start, radius, colour)]: draw circle of given radius with
    colour. *)
Definition pyb_tft_circle (pos : Z * Z) (rad color : Z) : M unit :=
  let px := fst pos in
  let py := snd pos in
  let colorA := color_bytes color in
  let xend := int_of (Z.shiftr (int_of (rad * 724)) 10 + 1) in
  for_loop (Z.to_nat xend) 0
    (fun x =>
       let y := sqrtf_int rad x in
       let xp := int_of (px + x) in
       let yp := int_of (py + y) in
       let xn := int_of (px - x) in
       let yn := int_of (py - y) in
       let xyp := int_of (px + y) in
       let yxp := int_of (py + x) in
       let xyn := int_of (px - y) in
       let yxn := int_of (py - x) in
       _pixel xp yp colorA ;;
       _pixel xp yn colorA ;;
       _pixel xn yp colorA ;;
       _pixel xn yn colorA ;;
       _pixel xyp yxp colorA ;;
       _pixel xyp yxn colorA ;;
       _pixel xyn yxp colorA ;;
       _pixel xyn yxn colorA).

(** [fillcircle(start, radius, colour)]: draw filled circle of given
    radius with colour. *)
Definition pyb_tft_fillcircle (pos : Z * Z) (rad color : Z) : M unit :=
  let px := fst pos in
  let py := snd pos in
  for_loop (Z.to_nat rad) 0
    (fun x =>
       self <- get ;;
       let y := sqrtf_int rad x in
       let y0 := int_of (py - y) in
       let x0 := _clamp 0 (size0 self) (int_of (px + x)) in
       let x1 := _clamp 0 (size0 self) (int_of (px - x)) in
       let ey := _clamp 0 (size1 self) (int_of (y0 + int_of (y * 2))) in
       let y0 := _clamp 0 (size1 self) y0 in
       let len := int_of (absint (int_of (ey - y0)) + 1) in
       _setwindowloc x0 y0 x0 ey ;;
       _draw len color ;;
       _setwindowloc x1 y0 x1 ey ;;
       _draw len color).

End Driver.

(** ** Panel initialization *)

(** [initb()]: initialize the display as a blue tab version. *)
Definition pyb_tft_initb : M unit :=
  self <- get ;;
  _reset ;;
  _writecommand ST_SWRESET ;;
  emit (HAL_Delay 50) ;;
  _writecommand ST_SLPOUT ;;
  emit (HAL_Delay 500) ;;
  let dataA := [0x05; 0x06; 0x03; 0x00] in
  _writecommand ST_COLMOD ;;
  _writedata dataA 1 ;;
  _writecommand ST_FRMCTR1 ;;
  let dataA := store dataA 0 0x00 in
  _writedata dataA 3 ;;
  emit (HAL_Delay 10) ;;
  _setMADCTL ;;
  _writecommand ST_DISSET5 ;;
  let dataA := store dataA 0 0x15 in
  let dataA := store dataA 1 0x02 in
  _writedata dataA 2 ;;
  _writecommand ST_INVCTR ;;
  let dataA := store dataA 0 0x00 in
  _writedata dataA 1 ;;
  _writecommand ST_PWCTR1 ;;
  let dataA := store dataA 0 0x02 in
  let dataA := store dataA 1 0x70 in
  _writedata dataA 2 ;;
  _writecommand ST_PWCTR2 ;;
  let dataA := store dataA 0 0x05 in
  _writedata dataA 1 ;;
  _writecommand ST_PWCTR3 ;;
  let dataA := store dataA 0 0x01 in
  let dataA := store dataA 1 0x02 in
  _writedata dataA 2 ;;
  _writecommand ST_VMCTR1 ;;
  let dataA := store dataA 0 0x3C in
  let dataA := store dataA 1 0x38 in
  _writedata dataA 2 ;;
  _writecommand ST_PWCTR6 ;;
  let dataA := store dataA 0 0x11 in
  let dataA := store dataA 1 0x15 in
  _writedata dataA 2 ;;
  let dataGMCTRP := [0x02; 0x1c; 0x07; 0x12; 0x37; 0x32; 0x29; 0x2d; 0x29;
                     0x25; 0x2b; 0x39; 0x00; 0x01; 0x03; 0x10] in
  _writecommand ST_GMCTRP1 ;;
  _writedata dataGMCTRP 16 ;;
  let dataGMCTRN := [0x03; 0x1d; 0x07; 0x06; 0x2e; 0x2c; 0x29; 0x2d; 0x2e;
                     0x2e; 0x37; 0x3f; 0x00; 0x00; 0x02; 0x10] in
  _writecommand ST_GMCTRN1 ;;
  _writedata dataGMCTRN 16 ;;
  emit (HAL_Delay 10) ;;
  _writecommand ST_CASET ;;
  let dataA := store dataA 0 0x00 in
  let dataA := store dataA 1 0x02 in
  let dataA := store dataA 2 0x00 in
  let dataA := store dataA 3 (byte_of (int_of (size0 self - 1))) in
  _writedata dataA 4 ;;
  _writecommand ST_RASET ;;
  let dataA := store dataA 2 0x01 in
  let dataA := store dataA 3 (byte_of (int_of (size1 self - 1))) in
  _writedata dataA 4 ;;
  _writecommand ST_NORON ;;
  emit (HAL_Delay 10) ;;
  _writecommand ST_RAMWR ;;
  emit (HAL_Delay 500) ;;
  _writecommand ST_DISPON ;;
  emit (GPIO_set_pin (pin_cs self)) ;;
  emit (HAL_Delay 100).

(** [initr()]: initialize the display as a red tab version. *)
Definition pyb_tft_initr : M unit :=
  self <- get ;;
  _reset ;;
  _writecommand ST_SWRESET ;;
  emit (HAL_Delay 150) ;;
  _writecommand ST_SLPOUT ;;
  emit (HAL_Delay 500) ;;
  let dataA := [0x01; 0x2c; 0x2d; 0x01; 0x2c; 0x2d] in
  _writecommand ST_FRMCTR1 ;;
  _writedata dataA 3 ;;
  _writecommand ST_FRMCTR2 ;;
  _writedata dataA 3 ;;
  _writecommand ST_FRMCTR3 ;;
  _writedata dataA 6 ;;
  emit (HAL_Delay 10) ;;
  _writecommand ST_INVCTR ;;
  let dataA := store dataA 0 0x07 in
  _writedata dataA 1 ;;
  _writecommand ST_PWCTR1 ;;
  let dataA := store dataA 0 0xA2 in
  let dataA := store dataA 1 0x02 in
  let dataA := store dataA 2 0x84 in
  _writedata dataA 3 ;;
  _writecommand ST_PWCTR2 ;;
  let dataA := store dataA 0 0xC5 in
  _writedata dataA 1 ;;
  _writecommand ST_PWCTR3 ;;
  let dataA := store dataA 0 0x0A in
  let dataA := store dataA 1 0x00 in
  _writedata dataA 2 ;;
  _writecommand ST_PWCTR4 ;;
  let dataA := store dataA 0 0x8A in
  let dataA := store dataA 1 0x2A in
  _writedata dataA 2 ;;
  _writecommand ST_PWCTR5 ;;
  let dataA := store dataA 0 0x8A in
  let dataA := store dataA 1 0xEE in
  _writedata dataA 2 ;;
  _writecommand ST_VMCTR1 ;;
  let dataA := store dataA 0 0x0E in
  _writedata dataA 1 ;;
  _writecommand ST_INVOFF ;;
  _setMADCTL ;;
  _writecommand ST_COLMOD ;;
  let dataA := store dataA 0 0x05 in
  _writedata dataA 1 ;;
  _writecommand ST_CASET ;;
  let dataA := store dataA 0 0x00 in
  let dataA := store dataA 1 0x00 in
  let dataA := store dataA 2 0x00 in
  let dataA := store dataA 3 (byte_of (int_of (size0 self - 1))) in
  _writedata dataA 4 ;;
  _writecommand ST_RASET ;;
  let dataA := store dataA 3 (byte_of (int_of (size1 self - 1))) in
  _writedata dataA 4 ;;
  let dataGMCTRP := [0x0f; 0x1a; 0x0f; 0x18; 0x2f; 0x28; 0x20; 0x22; 0x1f;
                     0x1b; 0x23; 0x37; 0x00; 0x07; 0x02; 0x10] in
  _writecommand ST_GMCTRP1 ;;
  _writedata dataGMCTRP 16 ;;
  let dataGMCTRN := [0x0f; 0x1b; 0x0f; 0x17; 0x33; 0x2c; 0x29; 0x2e; 0x30;
                     0x30; 0x39; 0x3f; 0x00; 0x07; 0x03; 0x10] in
  _writecommand ST_GMCTRN1 ;;
  _writedata dataGMCTRN 16 ;;
  emit (HAL_Delay 10) ;;
  _writecommand ST_NORON ;;
  emit (HAL_Delay 10) ;;
  _writecommand ST_DISPON ;;
  emit (GPIO_set_pin (pin_cs self)) ;;
  emit (HAL_Delay 100).

(** [initg()]: initialize the display as a green tab version. *)
Definition pyb_tft_initg : M unit :=
  self <- get ;;
  _reset ;;
  _writecommand ST_SWRESET ;;
  emit (HAL_Delay 150) ;;
  _writecommand ST_SLPOUT ;;
  emit (HAL_Delay 255) ;;
  let dataA := [0x01; 0x2c; 0x2d; 0x01; 0x2c; 0x2d] in
  _writecommand ST_FRMCTR1 ;;
  _writedata dataA 3 ;;
  _writecommand ST_FRMCTR2 ;;
  _writedata dataA 3 ;;
  _writecommand ST_FRMCTR3 ;;
  _writedata dataA 6 ;;
  _writecommand ST_INVCTR ;;
  let dataA := store dataA 0 0x07 in
  _writedata dataA 1 ;;
  _writecommand ST_PWCTR1 ;;
  let dataA := store dataA 0 0xA2 in
  let dataA := store dataA 1 0x02 in
  let dataA := store dataA 2 0x84 in
  _writedata dataA 3 ;;
  _writecommand ST_PWCTR2 ;;
  let dataA := store dataA 0 0xC5 in
  _writedata dataA 1 ;;
  _writecommand ST_PWCTR3 ;;
  let dataA := store dataA 0 0x0A in
  let dataA := store dataA 1 0x00 in
  _writedata dataA 2 ;;
  _writecommand ST_PWCTR4 ;;
  let dataA := store dataA 0 0x8A in
  let dataA := store dataA 1 0x2A in
  _writedata dataA 2 ;;
  _writecommand ST_PWCTR5 ;;
  let dataA := store dataA 0 0x8A in
  let dataA := store dataA 1 0xEE in
  _writedata dataA 2 ;;
  _writecommand ST_VMCTR1 ;;
  let dataA := store dataA 0 0x0E in
  _writedata dataA 1 ;;
  _writecommand ST_INVOFF ;;
  _setMADCTL ;;
  _writecommand ST_COLMOD ;;
  let dataA := store dataA 0 0x05 in
  _writedata dataA 1 ;;
  _writecommand ST_CASET ;;
  let dataA := store dataA 0 0x00 in
  let dataA := store dataA 1 0x01 in
  let dataA := store dataA 2 0x00 in
  let dataA := store dataA 3 (byte_of (int_of (size0 self - 1))) in
  _writedata dataA 4 ;;
  _writecommand ST_RASET ;;
  let dataA := store dataA 3 (byte_of (int_of (size1 self - 1))) in
  _writedata dataA 4 ;;
  let dataGMCTRP := [0x02; 0x1c; 0x07; 0x12; 0x37; 0x32; 0x29; 0x2d; 0x29;
                     0x25; 0x2b; 0x39; 0x00; 0x01; 0x03; 0x10] in
  _writecommand ST_GMCTRP1 ;;
  _writedata dataGMCTRP 16 ;;
  let dataGMCTRN := [0x03; 0x1d; 0x07; 0x06; 0x2e; 0x2c; 0x29; 0x2d; 0x2e;
                     0x2e; 0x37; 0x3f; 0x00; 0x00; 0x02; 0x10] in
  _writecommand ST_GMCTRN1 ;;
  _writedata dataGMCTRN 16 ;;
  _writecommand ST_NORON ;;
  emit (HAL_Delay 10) ;;
  _writecommand ST_DISPON ;;
  emit (GPIO_set_pin (pin_cs self)) ;;
  emit (HAL_Delay 100).

(** ** Construction *)

Inductive exn : Type :=
| ValueError (msg : string).

(** A [str] object is a sequence of bytes, any of which may be NUL;
    [mp_obj_str_get_str] gives a pointer to them, followed by a
    terminating NUL.  [char_at s i] is [s[i]] read through that pointer,
    for [i] up to the length of [s]; [c_str s] is the C string the
    pointer denotes (what [%s] prints): the bytes before the first
    NUL. *)
Definition char_at (s : string) (i : nat) : Z :=
  match String.get i s with
  | Some a => Z.of_N (Ascii.N_of_ascii a)
  | None => 0
  end.

Fixpoint c_str (s : string) : string :=
  match s with
  | EmptyString => EmptyString
  | String a r =>
      if Ascii.eqb a Ascii.zero then EmptyString else String a (c_str r)
  end.

(** [(tft_id[0] | 0x20) == c && tft_id[1] == '\0'] *)
Definition skin_is (c : Z) (tft_id : string) : bool :=
  (Z.lor (char_at tft_id 0) 0x20 =? c) && (char_at tft_id 1 =? 0).

(** [TFT(skin_position, dc, rst)]: construct a tft display object in the
    given position.  [pin_find_named_pin] looks a pin up in the board's
    pin dictionary.  The set-up of the SPI peripheral and of the GPIO
    modes is not part of the trace; the writes to the pins and the
    delay are. *)
Definition pyb_tft_make_new (pin_find_named_pin : string -> option pin_obj_t)
    (tft_id dc rst : string) : exn + pyb_tft_obj_t * list event :=
  let size0_ := 128 in
  let size1_ := 160 in
  let rotate_ := 0 in
  let rgb_ := 1 in
  match
    (if skin_is 120 tft_id then Some (SPIHandle1, pin_A4)
     else if skin_is 121 tft_id then Some (SPIHandle2, pin_B1)
     else None)
  with
  | None => inl (ValueError ("SPI bus '" ++ c_str tft_id ++ "' does not exist"))
  | Some (spi_, pin_cs_) =>
      match pin_find_named_pin dc with
      | None => inl (ValueError ("dc pin '" ++ c_str dc ++ "' does not exist"))
      | Some pin_dc_ =>
          match pin_find_named_pin rst with
          | None =>
              inl (ValueError ("reset pin '" ++ c_str rst ++ "' does not exist"))
          | Some pin_rst_ =>
              let tft := mk_tft spi_ pin_cs_ pin_rst_ pin_dc_
                                size0_ size1_ rotate_ rgb_ in
              inr (tft, [GPIO_set_pin (pin_cs tft);
                         GPIO_clear_pin (pin_dc tft);
                         HAL_Delay 1])
          end
      end
  end.

(** ** Colors *)

(** The macro [TFT_COLOR(r, g, b)]. *)
Definition TFT_COLOR (r g b : Z) : Z :=
  Z.lor (Z.lor (Z.shiftl (Z.land r 0xF8) 8) (Z.shiftl (Z.land g 0xFC) 3))
        (Z.shiftr b 3).

(** [color(r, g, b)]: create a 16 bit rgb value from the given r,g,b
    from 0-255.  This assumes rgb 565 layout. *)
Definition tft_color (r g b : Z) : Z := TFT_COLOR r g b.

(** ** The methods of the class *)

Inductive method : Type :=
| call_command (command : Z)
| call_data (buf : list Z)
| call_initr
| call_initg
| call_initb
| call_invertcolor (value : bool)
| call_on (value : bool)
| call_rgb (value : bool)
| call_rotation (rotation_in : Z)
| call_size
| call_text (pos : Z * Z) (data : list Z) (color : Z)
            (font : option tft_font_data) (size : text_size)
| call_line (start end_ : Z * Z) (color : Z)
| call_vline (pos : Z * Z) (len color : Z)
| call_hline (pos : Z * Z) (len color : Z)
| call_fill (color : option Z)
| call_rect (pos size : Z * Z) (color : Z)
| call_fillrect (pos size : Z * Z) (color : Z)
| call_fillcircle (pos : Z * Z) (rad color : Z)
| call_pixel (pos : Z * Z) (color : Z)
| call_circle (pos : Z * Z) (rad color : Z).

Section Methods.

Variable font_petme128_8x8 : list Z.
Variable sqrtf_int : Z -> Z -> Z.

(** One call of a method of [pyb_tft_locals_dict_table]. *)
Definition call (m : method) : M unit :=
  match m with
  | call_command command => pyb_tft_command command
  | call_data buf => pyb_tft_data buf
  | call_initr => pyb_tft_initr
  | call_initg => pyb_tft_initg
  | call_initb => pyb_tft_initb
  | call_invertcolor v => pyb_tft_invertcolor v
  | call_on v => pyb_tft_on v
  | call_rgb v => pyb_tft_rgb v
  | call_rotation v => pyb_tft_rotation v
  | call_size => _ <- pyb_tft_size ;; ret tt
  | call_text pos data color font size =>
      pyb_tft_text font_petme128_8x8 pos data color font size
  | call_line start end_ color => pyb_tft_line start end_ color
  | call_vline pos len color => pyb_tft_vline pos len color
  | call_hline pos len color => pyb_tft_hline pos len color
  | call_fill color => pyb_tft_fill color
  | call_rect pos size color => pyb_tft_rect pos size color
  | call_fillrect pos size color => pyb_tft_fillrect pos size color
  | call_fillcircle pos rad color => pyb_tft_fillcircle sqrtf_int pos rad color
  | call_pixel pos color => pyb_tft_pixel pos color
  | call_circle pos rad color => pyb_tft_circle sqrtf_int pos rad color
  end.

(** A sequence of calls on one display. *)
Fixpoint calls (ms : list method) : M unit :=
  match ms with
  | [] => ret tt
  | m :: ms' => call m ;; calls ms'
  end.

End Methods.

(** A display as the constructor leaves it, on the X skin. *)
Definition tft_X : pyb_tft_obj_t :=
  mk_tft SPIHandle1 pin_A4 "X2"%string "X1"%string 128 160 0 1.

(** ** What the display receives *)

(** A byte on the bus is a command when the data/command line is low
    ("dc=0; select instr reg") and data when it is high. *)
Inductive bus_byte : Type :=
| Cmd (b : Z)
| Dat (b : Z).

(** The bytes the display receives from a trace: the levels of the chip
    select and data/command lines are followed, and a byte counts while
    chip select is low. *)
Fixpoint decode (self : pyb_tft_obj_t) (cs dc : bool) (t : list event)
    : list bus_byte :=
  match t with
  | [] => []
  | GPIO_clear_pin p :: t' =>
      decode self (if String.eqb p (pin_cs self) then false else cs)
                  (if String.eqb p (pin_dc self) then false else dc) t'
  | GPIO_set_pin p :: t' =>
      decode self (if String.eqb p (pin_cs self) then true else cs)
                  (if String.eqb p (pin_dc self) then true else dc) t'
  | HAL_SPI_Transmit _ b :: t' =>
      if cs then decode self cs dc t'
      else (if dc then Dat b else Cmd b) :: decode self cs dc t'
  | HAL_Delay _ :: t' => decode self cs dc t'
  end.

(** A command with the data bytes that follow it. *)
Definition frame : Type := (Z * list Z)%type.

(** The data bytes before the first command, and the frames. *)
Fixpoint frames_from (bs : list bus_byte) : list Z * list frame :=
  match bs with
  | [] => ([], [])
  | Dat b :: r => let '(d, fs) := frames_from r in (b :: d, fs)
  | Cmd c :: r => let '(d, fs) := frames_from r in ([], (c, d) :: fs)
  end.

(** The frames the display receives when [m] runs on [self], the lines
    being as the constructor left them (CS=1, DC=0). *)
Definition frames {A : Type} (m : M A) (self : pyb_tft_obj_t) : list frame :=
  snd (frames_from (decode self true false (trace m self))).

(** The payload of the last write of a register. *)
Fixpoint last_write (cmd : Z) (fs : list frame) : option (list Z) :=
  match fs with
  | [] => None
  | (c, d) :: r =>
      match last_write cmd r with
      | Some d' => Some d'
      | None => if c =? cmd then Some d else None
      end
  end.

(** The chip select, data/command and reset lines are three pins. *)
Definition wired (self : pyb_tft_obj_t) : Prop :=
  pin_cs self <> pin_dc self /\ pin_rst self <> pin_dc self /\
  pin_rst self <> pin_cs self.

(** A computation that leaves the object as it found it. *)
Definition readonly {A : Type} (m : M A) : Prop :=
  forall self, obj_after m self = self.

(** The board of the examples: every name is a pin. *)
Definition any_pin (name : string) : option pin_obj_t := Some name.

(** What [text] does after a character, whichever it was. *)
Definition text_rest (self : pyb_tft_obj_t) (rest : list Z) (x px y : Z)
    (colorA : list Z) (font : tft_font_data) (sx sy width height : Z) : M unit :=
  match text_advance self x px y width height with
  | None => ret tt
  | Some (px', y') => text_loop rest x px' y' colorA font sx sy width height
  end.

(** The number of bytes a trace puts on the SPI bus. *)
Fixpoint transmits (t : list event) : nat :=
  match t with
  | [] => O
  | HAL_SPI_Transmit _ _ :: t' => S (transmits t')
  | _ :: t' => transmits t'
  end.

(** The number of pixels of a window, both ends included. *)
Definition window_pixels (w : Z * Z * Z * Z) : Z :=
  let '(sx, sy, ex, ey) := w in (ex - sx + 1) * (ey - sy + 1).

(** The positions the x-major loop of [line] hands to [_pixel], in
    order: the loop of [line_loop_x] without the bus. *)
Fixpoint line_points_x (fuel : nat) (ex inx iny dx dy : Z) (px py e : Z)
    : list (Z * Z) :=
  if px =? ex then []
  else
    match fuel with
    | O => []
    | S fuel' =>
        let '(py', e') :=
          if e >=? 0 then (int_of (py + iny), int_of (e - dx)) else (py, e) in
        (px, py) ::
        line_points_x fuel' ex inx iny dx dy (int_of (px + inx)) py'
                      (int_of (e' + dy))
    end.

(** The same for the y-major loop. *)
Fixpoint line_points_y (fuel : nat) (ey inx iny dx dy : Z) (px py e : Z)
    : list (Z * Z) :=
  if py =? ey then []
  else
    match fuel with
    | O => []
    | S fuel' =>
        let '(px', e') :=
          if e >=? 0 then (int_of (px + inx), int_of (e - dy)) else (px, e) in
        (px, py) ::
        line_points_y fuel' ey inx iny dx dy px' (int_of (py + iny))
                      (int_of (e' + dx))
    end.

(** The bus traffic of one [_pixel] call per position. *)
Definition pixels_trace (ps : list (Z * Z)) (colorA : list Z)
    (self : pyb_tft_obj_t) : list event :=
  flat_map (fun p => trace (_pixel (fst p) (snd p) colorA) self) ps.

(** Follows the chip select line through a trace: [None] when a byte is
    transmitted while chip select is high, else the level the trace
    leaves the line at. *)
Fixpoint select_check (cs_pin : pin_obj_t) (cs : bool) (t : list event)
    : option bool :=
  match t with
  | [] => Some cs
  | GPIO_clear_pin p :: t' =>
      select_check cs_pin (if String.eqb p cs_pin then false else cs) t'
  | GPIO_set_pin p :: t' =>
      select_check cs_pin (if String.eqb p cs_pin then true else cs) t'
  | HAL_SPI_Transmit _ _ :: t' =>
      if cs then None else select_check cs_pin cs t'
  | HAL_Delay _ :: t' => select_check cs_pin cs t'
  end.

(** [m], run on [self] with chip select at level [a], transmits only
    while chip select is low and leaves it at level [b]. *)
Definition bracket {A : Type} (self : pyb_tft_obj_t) (a b : bool) (m : M A)
    : Prop :=
  select_check (pin_cs self) a (trace m self) = Some b.

(** The eleven bytes of a window. *)
Definition window_bytes (w : Z * Z * Z * Z) : list bus_byte :=
  let '(sx, sy, ex, ey) := w in
  [Cmd 0x2A; Dat 0; Dat (sx mod 256); Dat 0; Dat (ex mod 256);
   Cmd 0x2B; Dat 0; Dat (sy mod 256); Dat 0; Dat (ey mod 256);
   Cmd 0x2C].

(** [n] times the two bytes of a color. *)
Definition color_run (color : Z) (n : Z) : list bus_byte :=
  List.concat (repeat [Dat (color / 256 mod 256); Dat (color mod 256)]
                      (Z.to_nat n)).

(** The size goes with the parity of the rotation. *)
Definition size_fits_rotation (self : pyb_tft_obj_t) : Prop :=
  0 <= rotate self <= 3 /\
  (size0 self, size1 self) =
    if Z.even (rotate self) then (128, 160) else (160, 128).

(** The milliseconds a trace spends in [HAL_Delay]. *)
Fixpoint delays (t : list event) : Z :=
  match t with
  | [] => 0
  | HAL_Delay ms :: t' => ms + delays t'
  | _ :: t' => delays t'
  end.

(** The rows of a glyph column that are lit: the bits of [c] that are
    set, among the first [height]. *)
Definition lit_rows (height : nat) (c : Z) : nat :=
  List.length (filter (fun k => Z.testbit c (Z.of_nat k)) (seq 0 height)).

(** The lit pixels of the glyph whose columns start at [charA]. *)
Definition lit_glyph (font : tft_font_data) (charA : Z) : nat :=
  list_sum
    (map (fun i => lit_rows (Z.to_nat (font_height font))
                     (byte_of (index (font_data font) (charA + Z.of_nat i))))
         (seq 0 (Z.to_nat (font_width font)))).

(** A font of two glyphs, two columns each, for the examples. *)
Definition two_glyphs : tft_font_data :=
  mk_font 2 8 65 66 [0x03; 0x80; 0xFF; 0x01].

(** The font and the scale the loop of [text] runs with: the font of
    the dictionary, or the built-in one; the size argument, or 1. *)
Definition text_font (font_petme128_8x8 : list Z)
    (font : option tft_font_data) : tft_font_data :=
  match font with
  | Some d => mk_font (uint_of (font_width d)) (uint_of (font_height d))
                      (uint_of (font_start d)) (uint_of (font_end d))
                      (font_data d)
  | None => DefaultFont font_petme128_8x8
  end.

Definition text_scale (size : text_size) : Z * Z :=
  match size with
  | SizeDefault => (1, 1)
  | SizeTuple sx sy => (uint_of sx, uint_of sy)
  | SizeInt s => (uint_of s, uint_of s)
  end.

(** The cursor [(px, y)] of the loop of [text] when it comes to the
    byte with index [n] of the string; [None] when the loop has left
    through its [break] before. *)
Fixpoint text_cursor (self : pyb_tft_obj_t) (n : nat)
    (x px y width height : Z) : option (Z * Z) :=
  match n with
  | O => Some (px, y)
  | S n' =>
      match text_advance self x px y width height with
      | None => None
      | Some (px', y') => text_cursor self n' x px' y' width height
      end
  end.

(** A glyph table for the built-in font's layout (8 columns a glyph,
    from character 32) with the letters A and B, 5 columns by 7 rows,
    and every other glyph blank. *)
Definition glyphs_A_B : list Z :=
  repeat 0 (33 * 8) ++
  [0x7C; 0x12; 0x11; 0x12; 0x7C; 0x00; 0x00; 0x00] ++
  [0x7F; 0x49; 0x49; 0x49; 0x36; 0x00; 0x00; 0x00].

(** * Properties *)

(** ** C integers *)

Lemma int_of_is_int (z : Z) : is_int (int_of z).
Proof.
  unfold is_int, int_of, INT_MIN, INT_MAX.
  pose proof (Z.mod_pos_bound (z + 2147483648) 4294967296 eq_refl). lia.
Qed.

Lemma int_of_small (z : Z) : is_int z -> int_of z = z.
Proof.
  unfold is_int, int_of, INT_MIN, INT_MAX. intros H.
  rewrite Z.mod_small by lia. lia.
Qed.

Lemma int_of_idem (z : Z) : int_of (int_of z) = int_of z.
Proof. apply int_of_small, int_of_is_int. Qed.

Lemma int_of_add_l (a b : Z) : int_of (int_of a + b) = int_of (a + b).
Proof.
  unfold int_of.
  replace ((a + 2147483648) mod 4294967296 - 2147483648 + b + 2147483648)
    with ((a + 2147483648) mod 4294967296 + b) by lia.
  rewrite Zplus_mod_idemp_l. f_equal. f_equal. lia.
Qed.

Lemma int_of_mod2 (z : Z) : int_of z mod 2 = z mod 2.
Proof.
  unfold int_of.
  pose proof (Z.div_mod (z + 2147483648) 4294967296 ltac:(lia)) as H.
  set (q := (z + 2147483648) / 4294967296) in *.
  set (r := (z + 2147483648) mod 4294967296) in *.
  replace (r - 2147483648) with (z + (- 2147483648 * q) * 2) by lia.
  apply Z.mod_add. lia.
Qed.

Lemma uint_of_small (z : Z) : 0 <= z < 4294967296 -> uint_of z = z.
Proof. intros H. unfold uint_of. apply Z.mod_small. lia. Qed.

Lemma byte_of_small (z : Z) : 0 <= z < 256 -> byte_of z = z.
Proof. intros H. unfold byte_of. apply Z.mod_small. lia. Qed.

Lemma land_3_range (v : Z) : 0 <= Z.land v 3 <= 3.
Proof.
  assert (E : Z.land v 3 = v mod 4)
    by (change 3 with (Z.ones 2); rewrite Z.land_ones by lia; reflexivity).
  rewrite E. pose proof (Z.mod_pos_bound v 4 eq_refl). lia.
Qed.

Lemma land_1_mod2 (v : Z) : Z.land v 1 = v mod 2.
Proof. change 1 with (Z.ones 1). rewrite Z.land_ones by lia. reflexivity. Qed.

(** A property of every byte value holds when it holds of the 256
    values. *)
Lemma byte_cases (f : Z -> bool) :
  forallb f (map Z.of_nat (seq 0 256)) = true ->
  forall z, 0 <= z <= 255 -> f z = true.
Proof.
  intros H z Hz. rewrite forallb_forall in H. apply H.
  apply in_map_iff. exists (Z.to_nat z). split; [lia|].
  apply in_seq. lia.
Qed.

(** ** Running a computation *)

Lemma bind_run {A B : Type} (m : M A) (k : A -> M B) (self : pyb_tft_obj_t) :
  bind m k self =
  (value (k (value m self)) (obj_after m self),
   obj_after (k (value m self)) (obj_after m self),
   trace m self ++ trace (k (value m self)) (obj_after m self)).
Proof.
  unfold bind, value, obj_after, trace.
  destruct (m self) as [[a self1] t1]; simpl.
  destruct (k a self1) as [[b self2] t2]; reflexivity.
Qed.

Lemma obj_after_bind {A B : Type} (m : M A) (k : A -> M B) self :
  obj_after (bind m k) self = obj_after (k (value m self)) (obj_after m self).
Proof. unfold obj_after at 1. rewrite bind_run. reflexivity. Qed.

Lemma trace_bind {A B : Type} (m : M A) (k : A -> M B) self :
  trace (bind m k) self =
  trace m self ++ trace (k (value m self)) (obj_after m self).
Proof. unfold trace at 1. rewrite bind_run. reflexivity. Qed.

Lemma value_bind {A B : Type} (m : M A) (k : A -> M B) self :
  value (bind m k) self = value (k (value m self)) (obj_after m self).
Proof. unfold value at 1. rewrite bind_run. reflexivity. Qed.

Create HintDb tft.

Lemma readonly_ret {A : Type} (a : A) : readonly (ret a).
Proof. intros self. reflexivity. Qed.

Lemma readonly_get : readonly get.
Proof. intros self. reflexivity. Qed.

Lemma readonly_emit (e : event) : readonly (emit e).
Proof. intros self. reflexivity. Qed.

Lemma readonly_bind {A B : Type} (m : M A) (k : A -> M B) :
  readonly m -> (forall a, readonly (k a)) -> readonly (bind m k).
Proof.
  intros Hm Hk self. rewrite obj_after_bind, Hm. apply Hk.
Qed.

Lemma readonly_for_loop (n : nat) (i : Z) (body : Z -> M unit) :
  (forall j, readonly (body j)) -> readonly (for_loop n i body).
Proof.
  intros Hb. revert i.
  induction n as [|n IH]; intros i; simpl.
  - apply readonly_ret.
  - apply readonly_bind; [apply Hb | intros _; apply IH].
Qed.

#[export] Hint Resolve readonly_ret readonly_get readonly_emit : tft.

(** One step in the proof that a function leaves the object alone: the
    goal follows the shape of the code. *)
Ltac readonly_step :=
  cbv beta zeta;
  match goal with
  | |- readonly (bind _ _) => apply readonly_bind; [ | intros ? ]
  | |- readonly (for_loop _ _ _) => apply readonly_for_loop; intros ?
  | |- readonly (if ?b then _ else _) => destruct b
  | |- readonly (match ?x with _ => _ end) => destruct x
  | |- readonly _ => solve [ auto with tft ]
  end.

Ltac readonly_tac := repeat readonly_step.

Lemma readonly_reset : readonly _reset.
Proof. unfold _reset. readonly_tac. Qed.

Lemma readonly_writecommand (command : Z) : readonly (_writecommand command).
Proof. unfold _writecommand. readonly_tac. Qed.

Lemma readonly_writedata (data_in : list Z) (count : Z) :
  readonly (_writedata data_in count).
Proof. unfold _writedata. readonly_tac. Qed.

#[export] Hint Resolve readonly_reset readonly_writecommand readonly_writedata : tft.

Lemma readonly_setMADCTL : readonly _setMADCTL.
Proof. unfold _setMADCTL. readonly_tac. Qed.

Lemma readonly_setwindowloc (sx sy ex ey : Z) :
  readonly (_setwindowloc sx sy ex ey).
Proof. unfold _setwindowloc. readonly_tac. Qed.

#[export] Hint Resolve readonly_setMADCTL readonly_setwindowloc : tft.

Lemma readonly_pixel (x y : Z) (colorA : list Z) : readonly (_pixel x y colorA).
Proof. unfold _pixel. readonly_tac. Qed.

Lemma readonly_draw (numPixels color : Z) : readonly (_draw numPixels color).
Proof. unfold _draw. readonly_tac. Qed.

#[export] Hint Resolve readonly_pixel readonly_draw : tft.

Lemma readonly_drawchar_rows1 (n : nat) (x cy c : Z) (colorA : list Z) :
  readonly (drawchar_rows1 n x cy c colorA).
Proof.
  revert cy c. induction n as [|n IH]; intros cy c; simpl; readonly_tac.
Qed.

Lemma readonly_drawchar_rowsN (n : nat) (x cy c : Z) (colorA : list Z)
    (sx sy numPixels : Z) :
  readonly (drawchar_rowsN n x cy c colorA sx sy numPixels).
Proof.
  revert cy c. induction n as [|n IH]; intros cy c; simpl; readonly_tac.
Qed.

#[export] Hint Resolve readonly_drawchar_rows1 readonly_drawchar_rowsN : tft.

Lemma readonly_drawchar_cols1 (n : nat) (charA x y : Z) (colorA : list Z)
    (font : tft_font_data) :
  readonly (drawchar_cols1 n charA x y colorA font).
Proof.
  revert charA x. induction n as [|n IH]; intros charA x; simpl; readonly_tac.
Qed.

Lemma readonly_drawchar_colsN (n : nat) (charA x y : Z) (colorA : list Z)
    (font : tft_font_data) (sx sy numPixels : Z) :
  readonly (drawchar_colsN n charA x y colorA font sx sy numPixels).
Proof.
  revert charA x. induction n as [|n IH]; intros charA x; simpl; readonly_tac.
Qed.

#[export] Hint Resolve readonly_drawchar_cols1 readonly_drawchar_colsN : tft.

Lemma readonly_drawchar (x y ci : Z) (colorA : list Z) (font : tft_font_data)
    (sx sy : Z) :
  readonly (_drawchar x y ci colorA font sx sy).
Proof. unfold _drawchar. readonly_tac. Qed.

#[export] Hint Resolve readonly_drawchar : tft.

Lemma readonly_text_loop (data : list Z) (x px y : Z) (colorA : list Z)
    (font : tft_font_data) (sx sy width height : Z) :
  readonly (text_loop data x px y colorA font sx sy width height).
Proof.
  revert px y. induction data as [|c data IH]; intros px y; simpl.
  - readonly_tac.
  - apply readonly_bind; [auto with tft | intros _].
    apply readonly_bind; [auto with tft | intros self].
    destruct (text_advance self x px y width height) as [[px' y']|].
    + apply IH.
    + auto with tft.
Qed.

#[export] Hint Resolve readonly_text_loop : tft.

Lemma readonly_command (command : Z) : readonly (pyb_tft_command command).
Proof. unfold pyb_tft_command. readonly_tac. Qed.

Lemma readonly_data (buf : list Z) : readonly (pyb_tft_data buf).
Proof. unfold pyb_tft_data. readonly_tac. Qed.

Lemma readonly_on (v : bool) : readonly (pyb_tft_on v).
Proof. unfold pyb_tft_on. readonly_tac. Qed.

Lemma readonly_invertcolor (v : bool) : readonly (pyb_tft_invertcolor v).
Proof. unfold pyb_tft_invertcolor. readonly_tac. Qed.

Lemma readonly_size : readonly pyb_tft_size.
Proof. unfold pyb_tft_size. readonly_tac. Qed.

Lemma readonly_text (table : list Z) (pos : Z * Z) (data : list Z) (color : Z)
    (font : option tft_font_data) (size : text_size) :
  readonly (pyb_tft_text table pos data color font size).
Proof. unfold pyb_tft_text. readonly_tac. Qed.

Lemma readonly_tft_pixel (pos : Z * Z) (color : Z) :
  readonly (pyb_tft_pixel pos color).
Proof. unfold pyb_tft_pixel. readonly_tac. Qed.

Lemma readonly_vline (pos : Z * Z) (len color : Z) :
  readonly (pyb_tft_vline pos len color).
Proof. unfold pyb_tft_vline. readonly_tac. Qed.

Lemma readonly_hline (pos : Z * Z) (len color : Z) :
  readonly (pyb_tft_hline pos len color).
Proof. unfold pyb_tft_hline. readonly_tac. Qed.

#[export] Hint Resolve readonly_vline readonly_hline : tft.

Lemma readonly_line_loop_x (fuel : nat) (ex inx iny dx dy px py e : Z)
    (colorA : list Z) :
  readonly (line_loop_x fuel ex inx iny dx dy px py e colorA).
Proof.
  revert px py e.
  induction fuel as [|fuel IH]; intros px py e; simpl; readonly_tac.
Qed.

Lemma readonly_line_loop_y (fuel : nat) (ey inx iny dx dy px py e : Z)
    (colorA : list Z) :
  readonly (line_loop_y fuel ey inx iny dx dy px py e colorA).
Proof.
  revert px py e.
  induction fuel as [|fuel IH]; intros px py e; simpl; readonly_tac.
Qed.

#[export] Hint Resolve readonly_line_loop_x readonly_line_loop_y : tft.

Lemma readonly_line_bresenham (px py ex ey color : Z) :
  readonly (line_bresenham px py ex ey color).
Proof. unfold line_bresenham. readonly_tac. Qed.

#[export] Hint Resolve readonly_line_bresenham : tft.

Lemma readonly_line (start end_ : Z * Z) (color : Z) :
  readonly (pyb_tft_line start end_ color).
Proof. unfold pyb_tft_line. readonly_tac. Qed.

Lemma readonly_rect (pos size : Z * Z) (color : Z) :
  readonly (pyb_tft_rect pos size color).
Proof. unfold pyb_tft_rect. readonly_tac. Qed.

Lemma readonly_fillrect (pos size : Z * Z) (color : Z) :
  readonly (pyb_tft_fillrect pos size color).
Proof. unfold pyb_tft_fillrect. readonly_tac. Qed.

Lemma readonly_fill (color : option Z) : readonly (pyb_tft_fill color).
Proof. unfold pyb_tft_fill. readonly_tac. Qed.

Lemma readonly_circle (sqrtf_int : Z -> Z -> Z) (pos : Z * Z) (rad color : Z) :
  readonly (pyb_tft_circle sqrtf_int pos rad color).
Proof. unfold pyb_tft_circle. readonly_tac. Qed.

Lemma readonly_fillcircle (sqrtf_int : Z -> Z -> Z) (pos : Z * Z)
    (rad color : Z) :
  readonly (pyb_tft_fillcircle sqrtf_int pos rad color).
Proof. unfold pyb_tft_fillcircle. readonly_tac. Qed.

Lemma readonly_initb : readonly pyb_tft_initb.
Proof. unfold pyb_tft_initb. readonly_tac. Qed.

Lemma readonly_initr : readonly pyb_tft_initr.
Proof. unfold pyb_tft_initr. readonly_tac. Qed.

Lemma readonly_initg : readonly pyb_tft_initg.
Proof. unfold pyb_tft_initg. readonly_tac. Qed.

(** ** The two methods that write the object *)

Lemma obj_after_rgb (v : bool) (self : pyb_tft_obj_t) :
  obj_after (pyb_tft_rgb v) self = set_rgb self (if v then 1 else 0).
Proof.
  unfold pyb_tft_rgb. rewrite obj_after_bind.
  change (value get self) with self. change (obj_after get self) with self.
  cbv beta zeta.
  destruct (Z.eqb_spec (if v then 1 else 0) (rgb self)) as [E|E]; simpl negb; cbv iota.
  - rewrite E. destruct self; reflexivity.
  - rewrite obj_after_bind, readonly_setMADCTL. reflexivity.
Qed.

Lemma obj_after_rotation (v : Z) (self : pyb_tft_obj_t) :
  obj_after (pyb_tft_rotation v) self =
  let self1 := set_rotate self (uint_of (Z.land v 3)) in
  if Z.land (int_of (Z.lxor (rotate self) (uint_of (Z.land v 3)))) 1 =? 0
  then self1
  else set_size self1 (size1 self1) (size0 self1).
Proof.
  unfold pyb_tft_rotation. rewrite obj_after_bind.
  change (value get self) with self. change (obj_after get self) with self.
  cbv beta zeta.
  rewrite !obj_after_bind, readonly_setMADCTL.
  destruct (Z.land (int_of (Z.lxor (rotate self) (uint_of (Z.land v 3)))) 1 =? 0);
    reflexivity.
Qed.

Lemma rotchange_parity (r v : Z) :
  (Z.land (int_of (Z.lxor r (uint_of (Z.land v 3)))) 1 =? 0) =
  Bool.eqb (Z.odd r) (Z.odd v).
Proof.
  rewrite (uint_of_small (Z.land v 3)) by (pose proof (land_3_range v); lia).
  rewrite land_1_mod2, int_of_mod2, <- Z.bit0_mod, Z.lxor_spec, Z.land_spec.
  rewrite !Z.bit0_odd. change (Z.odd 3) with true. rewrite andb_true_r.
  destruct (Z.odd r), (Z.odd v); reflexivity.
Qed.

Lemma rotate_after_rotation (v : Z) (self : pyb_tft_obj_t) :
  rotate (obj_after (pyb_tft_rotation v) self) = Z.land v 0x03.
Proof.
  rewrite obj_after_rotation. cbv zeta.
  destruct (_ =? 0); simpl; apply uint_of_small;
    pose proof (land_3_range v); lia.
Qed.

Lemma size_after_rotation (v : Z) (self : pyb_tft_obj_t) :
  let self1 := obj_after (pyb_tft_rotation v) self in
  (size0 self1, size1 self1) =
  if Bool.eqb (Z.odd (rotate self)) (Z.odd v)
  then (size0 self, size1 self)
  else (size1 self, size0 self).
Proof.
  cbv zeta. rewrite obj_after_rotation, rotchange_parity. cbv zeta.
  destruct (Bool.eqb _ _); reflexivity.
Qed.

Section Invariant.

Variable font_petme128_8x8 : list Z.
Variable sqrtf_int : Z -> Z -> Z.

Lemma call_keeps_rotate_range (m : method) (self : pyb_tft_obj_t) :
  0 <= rotate self <= 3 ->
  0 <= rotate (obj_after (call font_petme128_8x8 sqrtf_int m) self) <= 3.
Proof.
  intros H.
  destruct m; simpl call;
    try (rewrite rotate_after_rotation; apply land_3_range);
    try (rewrite obj_after_rgb; exact H).
  - rewrite readonly_command; exact H.
  - rewrite readonly_data; exact H.
  - rewrite readonly_initr; exact H.
  - rewrite readonly_initg; exact H.
  - rewrite readonly_initb; exact H.
  - rewrite readonly_invertcolor; exact H.
  - rewrite readonly_on; exact H.
  - rewrite obj_after_bind, readonly_size; exact H.
  - rewrite readonly_text; exact H.
  - rewrite readonly_line; exact H.
  - rewrite readonly_vline; exact H.
  - rewrite readonly_hline; exact H.
  - rewrite readonly_fill; exact H.
  - rewrite readonly_rect; exact H.
  - rewrite readonly_fillrect; exact H.
  - rewrite readonly_fillcircle; exact H.
  - rewrite readonly_tft_pixel; exact H.
  - rewrite readonly_circle; exact H.
Qed.

Lemma calls_keep_rotate_range (ms : list method) (self : pyb_tft_obj_t) :
  0 <= rotate self <= 3 ->
  0 <= rotate (obj_after (calls font_petme128_8x8 sqrtf_int ms) self) <= 3.
Proof.
  revert self. induction ms as [|m ms IH]; intros self H; simpl calls.
  - exact H.
  - rewrite obj_after_bind. apply IH, call_keeps_rotate_range, H.
Qed.

End Invariant.

Lemma make_new_fields (find : string -> option pin_obj_t) (tft_id dc rst : string)
    (tft : pyb_tft_obj_t) (t : list event) :
  pyb_tft_make_new find tft_id dc rst = inr (tft, t) ->
  size0 tft = 128 /\ size1 tft = 160 /\ rotate tft = 0 /\ rgb tft = 1.
Proof.
  unfold pyb_tft_make_new. intros H.
  destruct (if skin_is 120 tft_id then _ else _) as [[h cs]|]; [|discriminate].
  destruct (find dc); [|discriminate].
  destruct (find rst); [|discriminate].
  injection H as <- _. repeat split.
Qed.

(** ** Reading a trace as the display does *)

Section Decode.

Variable self : pyb_tft_obj_t.
Hypothesis W : wired self.

Lemma wired_eqb :
  String.eqb (pin_cs self) (pin_dc self) = false /\
  String.eqb (pin_dc self) (pin_cs self) = false /\
  String.eqb (pin_rst self) (pin_dc self) = false /\
  String.eqb (pin_rst self) (pin_cs self) = false.
Proof.
  destruct W as (H1 & H2 & H3).
  repeat split; apply String.eqb_neq; congruence.
Qed.

Lemma decode_clear_cs cs dc t :
  decode self cs dc (GPIO_clear_pin (pin_cs self) :: t) = decode self false dc t.
Proof.
  destruct wired_eqb as (E1 & _). simpl.
  rewrite String.eqb_refl, E1. reflexivity.
Qed.

Lemma decode_set_cs cs dc t :
  decode self cs dc (GPIO_set_pin (pin_cs self) :: t) = decode self true dc t.
Proof.
  destruct wired_eqb as (E1 & _). simpl.
  rewrite String.eqb_refl, E1. reflexivity.
Qed.

Lemma decode_clear_dc cs dc t :
  decode self cs dc (GPIO_clear_pin (pin_dc self) :: t) = decode self cs false t.
Proof.
  destruct wired_eqb as (_ & E2 & _). simpl.
  rewrite String.eqb_refl, E2. reflexivity.
Qed.

Lemma decode_set_dc cs dc t :
  decode self cs dc (GPIO_set_pin (pin_dc self) :: t) = decode self cs true t.
Proof.
  destruct wired_eqb as (_ & E2 & _). simpl.
  rewrite String.eqb_refl, E2. reflexivity.
Qed.

Lemma decode_clear_rst cs dc t :
  decode self cs dc (GPIO_clear_pin (pin_rst self) :: t) = decode self cs dc t.
Proof.
  destruct wired_eqb as (_ & _ & E3 & E4). simpl.
  rewrite E3, E4. reflexivity.
Qed.

Lemma decode_set_rst cs dc t :
  decode self cs dc (GPIO_set_pin (pin_rst self) :: t) = decode self cs dc t.
Proof.
  destruct wired_eqb as (_ & _ & E3 & E4). simpl.
  rewrite E3, E4. reflexivity.
Qed.

Lemma decode_command h b t :
  decode self false false (HAL_SPI_Transmit h b :: t) =
  Cmd b :: decode self false false t.
Proof. reflexivity. Qed.

Lemma decode_data h b t :
  decode self false true (HAL_SPI_Transmit h b :: t) =
  Dat b :: decode self false true t.
Proof. reflexivity. Qed.

Lemma decode_delay cs dc ms t :
  decode self cs dc (HAL_Delay ms :: t) = decode self cs dc t.
Proof. reflexivity. Qed.

Lemma decode_nil cs dc : decode self cs dc [] = [].
Proof. reflexivity. Qed.

End Decode.

(** The trace of straight-line driver code, computed with the object
    left symbolic. *)
Ltac run_trace :=
  cbv [trace pyb_tft_initr pyb_tft_initg pyb_tft_initb
       _setMADCTL _setwindowloc _writecommand _writedata _reset
       bind get ret emit for_loop index store nth app snd fst
       Z.to_nat Pos.to_nat Pos.iter_op Init.Nat.add Z.add Pos.add Pos.succ
       Pos.add_carry
       ST_MADCTL ST_CASET ST_RASET ST_RAMWR ST_SWRESET ST_SLPOUT ST_FRMCTR1
       ST_FRMCTR2 ST_FRMCTR3 ST_INVCTR ST_PWCTR1 ST_PWCTR2 ST_PWCTR3 ST_PWCTR4
       ST_PWCTR5 ST_PWCTR6 ST_VMCTR1 ST_INVOFF ST_COLMOD ST_DISSET5
       ST_GMCTRP1 ST_GMCTRN1 ST_NORON ST_DISPON].

(** The bytes the display reads from a computed trace, one event at a
    time. *)
Ltac run_decode W :=
  repeat first
    [ rewrite (decode_clear_cs _ W) | rewrite (decode_set_cs _ W)
    | rewrite (decode_clear_dc _ W) | rewrite (decode_set_dc _ W)
    | rewrite (decode_clear_rst _ W) | rewrite (decode_set_rst _ W)
    | rewrite decode_command | rewrite decode_data | rewrite decode_delay
    | rewrite decode_nil ].

Ltac run_frames W :=
  unfold frames; run_trace; run_decode W; cbv [frames_from snd];
  repeat match goal with
    | |- context [byte_of (Zpos ?p)] =>
        let v := eval vm_compute in (byte_of (Zpos p)) in
        change (byte_of (Zpos p)) with v
    end.

Lemma frames_setMADCTL (self : pyb_tft_obj_t) :
  wired self -> frames _setMADCTL self = [(ST_MADCTL, [madctl_data self])].
Proof. intros W. run_frames W. reflexivity. Qed.

(** The register writes of the red tab initialization, as the display
    receives them. *)
Lemma frames_initr (self : pyb_tft_obj_t) :
  wired self ->
  frames pyb_tft_initr self =
  [ (ST_SWRESET, []); (ST_SLPOUT, []);
    (ST_FRMCTR1, [0x01; 0x2c; 0x2d]);
    (ST_FRMCTR2, [0x01; 0x2c; 0x2d]);
    (ST_FRMCTR3, [0x01; 0x2c; 0x2d; 0x01; 0x2c; 0x2d]);
    (ST_INVCTR, [0x07]);
    (ST_PWCTR1, [0xA2; 0x02; 0x84]);
    (ST_PWCTR2, [0xC5]);
    (ST_PWCTR3, [0x0A; 0x00]);
    (ST_PWCTR4, [0x8A; 0x2A]);
    (ST_PWCTR5, [0x8A; 0xEE]);
    (ST_VMCTR1, [0x0E]);
    (ST_INVOFF, []);
    (ST_MADCTL, [madctl_data self]);
    (ST_COLMOD, [0x05]);
    (ST_CASET, [0x00; 0x00; 0x00; byte_of (int_of (size0 self - 1))]);
    (ST_RASET, [0x00; 0x00; 0x00; byte_of (int_of (size1 self - 1))]);
    (ST_GMCTRP1, [0x0f; 0x1a; 0x0f; 0x18; 0x2f; 0x28; 0x20; 0x22; 0x1f;
                  0x1b; 0x23; 0x37; 0x00; 0x07; 0x02; 0x10]);
    (ST_GMCTRN1, [0x0f; 0x1b; 0x0f; 0x17; 0x33; 0x2c; 0x29; 0x2e; 0x30;
                  0x30; 0x39; 0x3f; 0x00; 0x07; 0x03; 0x10]);
    (ST_NORON, []); (ST_DISPON, []) ].
Proof. intros W. run_frames W. reflexivity. Qed.

Lemma madctl_data_logical (self self' : pyb_tft_obj_t) :
  rotate self' = rotate self -> rgb self' = rgb self ->
  madctl_data self' = madctl_data self.
Proof. unfold madctl_data. intros -> ->. reflexivity. Qed.

(** ** Claims *)

(** C10: for every integer [v] handed to the rotation setter the stored
    rotation is [v & 0x03]; and on a constructed display, after any
    sequence of method calls, the rotation is one of 0, 1, 2, 3, an
    index inside the four entries of [TFTRotations]. *)
Theorem rotation_stays_in_table (font_petme128_8x8 : list Z)
    (sqrtf_int : Z -> Z -> Z) :
  (forall (v : Z) (self : pyb_tft_obj_t),
     rotate (obj_after (pyb_tft_rotation v) self) = Z.land v 0x03) /\
  (forall find tft_id dc rst tft t (ms : list method),
     pyb_tft_make_new find tft_id dc rst = inr (tft, t) ->
     let self := obj_after (calls font_petme128_8x8 sqrtf_int ms) tft in
     In (rotate self) [0; 1; 2; 3] /\
     (Z.to_nat (rotate self) < List.length TFTRotations)%nat).
Proof.
  split; [exact rotate_after_rotation|].
  intros find tft_id dc rst tft t ms Hnew self.
  apply make_new_fields in Hnew. destruct Hnew as (_ & _ & Hr & _).
  assert (H : 0 <= rotate self <= 3)
    by (apply calls_keep_rotate_range; lia).
  split.
  - simpl. lia.
  - simpl List.length. lia.
Qed.

(** C6: a call of the rotation setter with a value whose parity differs
    from that of the current rotation swaps width and height, and a
    second such call brings them back. *)
Theorem rotation_toggle_swaps_size (self : pyb_tft_obj_t) (v : Z) :
  Z.odd v <> Z.odd (rotate self) ->
  let self1 := obj_after (pyb_tft_rotation v) self in
  (size0 self1, size1 self1) = (size1 self, size0 self) /\
  forall v' : Z,
    Z.odd v' <> Z.odd (rotate self1) ->
    let self2 := obj_after (pyb_tft_rotation v') self1 in
    (size0 self2, size1 self2) = (size0 self, size1 self).
Proof.
  intros Hv self1.
  assert (E1 : (size0 self1, size1 self1) = (size1 self, size0 self)).
  { unfold self1. rewrite size_after_rotation.
    destruct (Z.odd (rotate self)), (Z.odd v); simpl; congruence. }
  split; [exact E1|].
  intros v' Hv' self2. unfold self2. rewrite size_after_rotation.
  injection E1 as E0 E1'.
  destruct (Z.odd (rotate self1)), (Z.odd v'); simpl; congruence.
Qed.

(** The three fields of a packed color, for byte-sized channels. *)
Lemma red_field (r : Z) :
  0 <= r <= 255 -> Z.shiftr (Z.shiftl (Z.land r 0xF8) 8) 11 = Z.shiftr r 3.
Proof.
  intros H.
  apply Z.eqb_eq.
  apply (byte_cases
           (fun r => Z.shiftr (Z.shiftl (Z.land r 0xF8) 8) 11 =? Z.shiftr r 3));
    [vm_compute; reflexivity | exact H].
Qed.

Lemma green_field (g : Z) :
  0 <= g <= 255 -> Z.shiftr (Z.shiftl (Z.land g 0xFC) 3) 11 = 0.
Proof.
  intros H.
  apply Z.eqb_eq.
  apply (byte_cases (fun g => Z.shiftr (Z.shiftl (Z.land g 0xFC) 3) 11 =? 0));
    [vm_compute; reflexivity | exact H].
Qed.

Lemma blue_field (b : Z) :
  0 <= b <= 255 -> Z.shiftr (Z.shiftr b 3) 11 = 0.
Proof.
  intros H.
  apply Z.eqb_eq.
  apply (byte_cases (fun b => Z.shiftr (Z.shiftr b 3) 11 =? 0));
    [vm_compute; reflexivity | exact H].
Qed.

Lemma red_fits (r : Z) :
  0 <= r <= 255 -> Z.shiftr (Z.shiftl (Z.land r 0xF8) 8) 16 = 0.
Proof.
  intros H.
  apply Z.eqb_eq.
  apply (byte_cases (fun r => Z.shiftr (Z.shiftl (Z.land r 0xF8) 8) 16 =? 0));
    [vm_compute; reflexivity | exact H].
Qed.

Lemma shiftr_shiftr_0 (a n m : Z) :
  0 <= n -> 0 <= m -> Z.shiftr a n = 0 -> Z.shiftr a (n + m) = 0.
Proof.
  intros Hn Hm E. rewrite <- Z.shiftr_shiftr by lia. rewrite E.
  apply Z.shiftr_0_l.
Qed.

(** C9: for channels in [0, 255], [color(r, g, b)] is
    [((r & 0xF8) << 8) | ((g & 0xFC) << 3) | (b >> 3)], a 16-bit value
    whose top five bits are [r >> 3]. *)
Theorem tft_color_rgb565 (r g b : Z) :
  0 <= r <= 255 -> 0 <= g <= 255 -> 0 <= b <= 255 ->
  tft_color r g b =
    Z.lor (Z.lor (Z.shiftl (Z.land r 0xF8) 8) (Z.shiftl (Z.land g 0xFC) 3))
          (Z.shiftr b 3) /\
  0 <= tft_color r g b < 65536 /\
  Z.shiftr (tft_color r g b) 11 = Z.shiftr r 3.
Proof.
  intros Hr Hg Hb. split; [reflexivity|].
  unfold tft_color, TFT_COLOR. split.
  - assert (N : 0 <= Z.lor (Z.lor (Z.shiftl (Z.land r 248) 8)
                                   (Z.shiftl (Z.land g 252) 3)) (Z.shiftr b 3)).
    { rewrite !Z.lor_nonneg, !Z.shiftl_nonneg, Z.shiftr_nonneg, !Z.land_nonneg.
      lia. }
    split; [exact N|].
    assert (E : Z.shiftr (Z.lor (Z.lor (Z.shiftl (Z.land r 248) 8)
                                       (Z.shiftl (Z.land g 252) 3))
                                (Z.shiftr b 3)) 16 = 0).
    { rewrite !Z.shiftr_lor, red_fits by exact Hr.
      rewrite (shiftr_shiftr_0 _ 11 5) by (try lia; apply green_field, Hg).
      rewrite (shiftr_shiftr_0 _ 11 5) by (try lia; apply blue_field, Hb).
      reflexivity. }
    rewrite Z.shiftr_div_pow2 in E by lia.
    apply Z.div_small_iff in E; [|lia].
    change (2 ^ 16) with 65536 in E. lia.
  - rewrite !Z.shiftr_lor, red_field, green_field, blue_field by assumption.
    rewrite !Z.lor_0_r. reflexivity.
Qed.

(** C7: the red tab initialization leaves the object as it found it,
    so a second run emits the trace of the first.  On a display whose
    three lines are three pins, the register writes the display
    receives depend on the logical state alone (size, rotation, color
    order), and each run leaves the same MADCTL and column/row address
    ranges. *)
Theorem initr_twice_same (self : pyb_tft_obj_t) :
  let self1 := obj_after pyb_tft_initr self in
  let self2 := obj_after pyb_tft_initr self1 in
  self1 = self /\
  self2 = self /\
  trace pyb_tft_initr self1 = trace pyb_tft_initr self /\
  trace (pyb_tft_initr ;; pyb_tft_initr) self =
    trace pyb_tft_initr self ++ trace pyb_tft_initr self /\
  (wired self ->
   (forall self' : pyb_tft_obj_t,
      wired self' ->
      size0 self' = size0 self -> size1 self' = size1 self ->
      rotate self' = rotate self -> rgb self' = rgb self ->
      frames pyb_tft_initr self' = frames pyb_tft_initr self) /\
   frames pyb_tft_initr self1 = frames pyb_tft_initr self /\
   last_write ST_MADCTL (frames pyb_tft_initr self1) =
     Some [madctl_data self] /\
   last_write ST_CASET (frames pyb_tft_initr self1) =
     Some [0; 0; 0; byte_of (int_of (size0 self - 1))] /\
   last_write ST_RASET (frames pyb_tft_initr self1) =
     Some [0; 0; 0; byte_of (int_of (size1 self - 1))]).
Proof.
  intros self1 self2.
  assert (E1 : self1 = self) by apply readonly_initr.
  assert (E2 : self2 = self)
    by (unfold self2; rewrite E1; apply readonly_initr).
  rewrite E1.
  split; [reflexivity|].
  split; [exact E2|].
  split; [reflexivity|].
  split; [rewrite trace_bind, readonly_initr; reflexivity|].
  intros W. split.
  - intros self' W' E0 E1' Er Ec.
    rewrite (frames_initr self' W'), (frames_initr self W).
    rewrite E0, E1', (madctl_data_logical self self' Er Ec). reflexivity.
  - rewrite (frames_initr self W). repeat split.
Qed.

(** C5 as stated fails: the display the constructor returns has the
    rgb flag set, and the one MADCTL write of an initialization that
    follows carries 0x00; bit 3 (BGR, 0x08) is clear. *)
Lemma constructed_display_is_rgb :
  exists (tft : pyb_tft_obj_t) (t : list event),
    pyb_tft_make_new any_pin "X" "X1" "X2" = inr (tft, t) /\
    rgb tft = 1 /\
    filter (fun f => fst f =? ST_MADCTL) (frames pyb_tft_initr tft) =
      [(ST_MADCTL, [TFTRGB])] /\
    filter (fun f => fst f =? ST_MADCTL) (frames (pyb_tft_rotation 0) tft) =
      [(ST_MADCTL, [TFTRGB])] /\
    Z.land (madctl_data tft) TFTBGR <> TFTBGR.
Proof.
  eexists. eexists. split; [reflexivity|].
  split; [reflexivity|].
  split; [vm_compute; reflexivity|].
  split; [vm_compute; reflexivity|].
  vm_compute. discriminate.
Qed.

(** C5, amended: a constructed display has width 128, height 160,
    rotation 0 and the rgb flag set (RGB order), so a MADCTL write made
    in that state carries [TFTRGB] (0x00), not the BGR bit. *)
Theorem constructed_display_defaults (find : string -> option pin_obj_t)
    (tft_id dc rst : string) (tft : pyb_tft_obj_t) (t : list event) :
  pyb_tft_make_new find tft_id dc rst = inr (tft, t) ->
  size0 tft = 128 /\ size1 tft = 160 /\ rotate tft = 0 /\ rgb tft = 1 /\
  madctl_data tft = TFTRGB /\
  (wired tft ->
   frames _setMADCTL tft = [(ST_MADCTL, [TFTRGB])] /\
   last_write ST_MADCTL (frames pyb_tft_initr tft) = Some [TFTRGB]).
Proof.
  intros Hnew. apply make_new_fields in Hnew.
  destruct Hnew as (E0 & E1 & Er & Ec).
  assert (Em : madctl_data tft = TFTRGB)
    by (unfold madctl_data; rewrite Er, Ec; reflexivity).
  repeat split; try assumption.
  - rewrite frames_setMADCTL, Em by assumption. reflexivity.
  - rewrite frames_initr, Em by assumption. reflexivity.
Qed.

Lemma drawchar_outside_font (self : pyb_tft_obj_t) (x y ci : Z)
    (colorA : list Z) (font : tft_font_data) (sx sy : Z) :
  ci < font_start font \/ font_end font < ci ->
  _drawchar x y ci colorA font sx sy self = (tt, self, []).
Proof.
  intros H. unfold _drawchar.
  replace ((font_start font <=? ci) && (ci <=? font_end font)) with false;
    [reflexivity|].
  symmetry. apply andb_false_iff.
  destruct H as [H|H]; [left; apply Z.leb_gt | right; apply Z.leb_gt]; exact H.
Qed.

Lemma text_loop_cons (self : pyb_tft_obj_t) (c : Z) (rest : list Z) (x px y : Z)
    (colorA : list Z) (font : tft_font_data) (sx sy width height : Z) :
  trace (text_loop (c :: rest) x px y colorA font sx sy width height) self =
  trace (_drawchar px y c colorA font (int_of sx) (int_of sy)) self ++
  trace (text_rest self rest x px y colorA font sx sy width height) self.
Proof.
  simpl text_loop. rewrite trace_bind, readonly_drawchar.
  f_equal. rewrite trace_bind. reflexivity.
Qed.

(** [text] is its loop, run from the start position with the font and
    scale it settled on: the cell is [font.width * sx] wide and
    [font.height * sy + 1] high. *)
Lemma text_is_loop (table : list Z) (pos : Z * Z) (data : list Z) (color : Z)
    (font : option tft_font_data) (size : text_size) :
  pyb_tft_text table pos data color font size =
  text_loop data (fst pos) (fst pos) (snd pos) (color_bytes color)
    (text_font table font) (fst (text_scale size)) (snd (text_scale size))
    (uint_of (font_width (text_font table font) * fst (text_scale size)))
    (uint_of (font_height (text_font table font) * snd (text_scale size) + 1)).
Proof. unfold pyb_tft_text. destruct size, font; reflexivity. Qed.

(** The loop over a string in two parts: the second part starts at the
    cursor the first part leaves, if the first part does not break. *)
Lemma text_loop_app (self : pyb_tft_obj_t) (pre data : list Z) (x px y : Z)
    (colorA : list Z) (font : tft_font_data) (sx sy width height : Z) :
  trace (text_loop (pre ++ data) x px y colorA font sx sy width height) self =
  trace (text_loop pre x px y colorA font sx sy width height) self ++
  match text_cursor self (List.length pre) x px y width height with
  | Some (px', y') =>
      trace (text_loop data x px' y' colorA font sx sy width height) self
  | None => []
  end.
Proof.
  revert px y. induction pre as [|c pre IH]; intros px y; [reflexivity|].
  cbn [app List.length text_cursor]. rewrite !text_loop_cons.
  unfold text_rest.
  destruct (text_advance self x px y width height) as [[px' y']|].
  - rewrite IH, app_assoc. reflexivity.
  - symmetry. apply app_nil_r.
Qed.

Lemma text_cursor_next (self : pyb_tft_obj_t) (n : nat)
    (x px y width height : Z) :
  text_cursor self (S n) x px y width height =
  match text_cursor self n x px y width height with
  | Some (px', y') => text_advance self x px' y' width height
  | None => None
  end.
Proof.
  revert px y. induction n as [|n IH]; intros px y.
  - cbn [text_cursor].
    destruct (text_advance self x px y width height) as [[px' y']|];
      reflexivity.
  - change (text_cursor self (S (S n)) x px y width height)
      with (match text_advance self x px y width height with
            | None => None
            | Some (px', y') => text_cursor self (S n) x px' y' width height
            end).
    cbn [text_cursor].
    destruct (text_advance self x px y width height) as [[px' y']|];
      [apply IH | reflexivity].
Qed.

(** C8: [text] takes its string one byte at a time, each byte a
    character.  Let the loop of [text] come to a byte [c] of the string
    with the cursor at [(px, y)].  If [c] is outside
    [font.start, font.end], the character puts nothing on the bus (no
    window, no pixel, no data), and the rest of the string is drawn
    from the same cursor as after any other byte [c'] in that place:
    [px] moved by [font.width * sx], the cursor of the next byte when
    another cell fits the line (and the wrap to the next line, or the
    end of the text, when it does not).  A byte the loop does not come
    to, having left through its [break], is not drawn whatever it
    is. *)
Theorem text_char_outside_font (table : list Z) (self : pyb_tft_obj_t)
    (pos : Z * Z) (pre : list Z) (c c' : Z) (rest : list Z) (color : Z)
    (font : option tft_font_data) (size : text_size) :
  let f := text_font table font in
  let sx := fst (text_scale size) in
  let sy := snd (text_scale size) in
  let width := uint_of (font_width f * sx) in
  let height := uint_of (font_height f * sy + 1) in
  let x := fst pos in
  let colorA := color_bytes color in
  let text data := trace (pyb_tft_text table pos data color font size) self in
  let glyph px y ci :=
    trace (_drawchar px y ci colorA f (int_of sx) (int_of sy)) self in
  let after px y :=
    trace (text_rest self rest x px y colorA f sx sy width height) self in
  let cursor n := text_cursor self n x x (snd pos) width height in
  c < font_start f \/ font_end f < c ->
  match cursor (List.length pre) with
  | Some (px, y) =>
      glyph px y c = [] /\
      text (pre ++ c :: rest) = text pre ++ after px y /\
      text (pre ++ c' :: rest) = text pre ++ glyph px y c' ++ after px y /\
      (uint_of (int_of (px + width) + width) <= uint_of (size0 self) ->
       cursor (S (List.length pre)) = Some (int_of (px + width), y) /\
       after px y =
         trace (text_loop rest x (int_of (px + width)) y colorA f sx sy
                          width height) self)
  | None =>
      text (pre ++ c :: rest) = text pre /\
      text (pre ++ c' :: rest) = text pre
  end.
Proof.
  intros f sx sy width height x colorA text glyph after cursor H.
  subst text glyph after cursor. cbv beta.
  rewrite !text_is_loop, !text_loop_app, text_cursor_next.
  fold f sx sy width height x colorA.
  destruct (text_cursor self (List.length pre) x x (snd pos) width height)
    as [[px y]|].
  - assert (E : trace (_drawchar px y c colorA f (int_of sx) (int_of sy)) self
                = [])
      by (unfold trace; rewrite drawchar_outside_font by exact H; reflexivity).
    split; [exact E|].
    split; [rewrite text_loop_cons, E; reflexivity|].
    split; [rewrite text_loop_cons; reflexivity|].
    intros Hfit.
    assert (A : text_advance self x px y width height
                = Some (int_of (px + width), y)).
    { unfold text_advance.
      destruct (Z.gtb_spec (uint_of (int_of (px + width) + width))
                           (uint_of (size0 self))) as [G|G];
        [lia | reflexivity]. }
    split; [exact A|]. unfold text_rest. rewrite A. reflexivity.
  - rewrite !app_nil_r. split; reflexivity.
Qed.

(** ** Pixels, lines and rectangles *)

Lemma transmits_app (t1 t2 : list event) :
  transmits (t1 ++ t2) = (transmits t1 + transmits t2)%nat.
Proof.
  induction t1 as [|e t1 IH]; [reflexivity|].
  destruct e; simpl; rewrite IH; reflexivity.
Qed.

Lemma transmits_for_loop (n k : nat) (i : Z) (body : Z -> M unit)
    (self : pyb_tft_obj_t) :
  (forall j, readonly (body j)) ->
  (forall j, transmits (trace (body j) self) = k) ->
  transmits (trace (for_loop n i body) self) = (n * k)%nat.
Proof.
  intros Hr Hk. revert i.
  induction n as [|n IH]; intros i; simpl for_loop.
  - reflexivity.
  - rewrite trace_bind, transmits_app, Hk, Hr, IH. reflexivity.
Qed.

(** [_draw] puts two bytes on the bus per pixel asked for. *)
Lemma transmits_draw (numPixels color : Z) (self : pyb_tft_obj_t) :
  transmits (trace (_draw numPixels color) self) =
  (2 * Z.to_nat numPixels)%nat.
Proof.
  unfold _draw. rewrite trace_bind.
  change (value get self) with self. change (obj_after get self) with self.
  cbv beta zeta.
  rewrite !trace_bind, !transmits_app.
  rewrite (transmits_for_loop _ 2); [simpl; lia | intros j; readonly_tac | reflexivity].
Qed.

(** What [hline] and [vline] put on the bus: the window, then [len]
    colors, whatever the window. *)
Lemma hline_trace (pos : Z * Z) (len color : Z) (self : pyb_tft_obj_t) :
  trace (pyb_tft_hline pos len color) self =
  (let '(sx, sy, ex, ey) := hline_window self pos len in
   trace (_setwindowloc sx sy ex ey) self) ++
  trace (_draw len color) self.
Proof.
  unfold pyb_tft_hline. rewrite trace_bind.
  change (value get self) with self. change (obj_after get self) with self.
  cbv beta. destruct (hline_window self pos len) as [[[sx sy] ex] ey].
  rewrite trace_bind, readonly_setwindowloc. reflexivity.
Qed.

Lemma vline_trace (pos : Z * Z) (len color : Z) (self : pyb_tft_obj_t) :
  trace (pyb_tft_vline pos len color) self =
  (let '(sx, sy, ex, ey) := vline_window self pos len in
   trace (_setwindowloc sx sy ex ey) self) ++
  trace (_draw len color) self.
Proof.
  unfold pyb_tft_vline. rewrite trace_bind.
  change (value get self) with self. change (obj_after get self) with self.
  cbv beta. destruct (vline_window self pos len) as [[[sx sy] ex] ey].
  rewrite trace_bind, readonly_setwindowloc. reflexivity.
Qed.

(** [_clamp] keeps a value between its bounds, both included. *)
Lemma clamp_range (min max value : Z) :
  min <= max -> min <= _clamp min max value <= max.
Proof.
  intros H. unfold _clamp.
  destruct (Z.ltb_spec value min); [lia|].
  destruct (Z.gtb_spec value max); lia.
Qed.

(** The windows of [hline], [vline] and [fillrect] stay between 0 and
    the size, the size itself included. *)
Lemma hline_window_range (self : pyb_tft_obj_t) (pos : Z * Z) (len : Z) :
  0 <= size0 self -> 0 <= size1 self ->
  let '(sx, sy, ex, ey) := hline_window self pos len in
  0 <= sx <= ex /\ ex <= size0 self /\ 0 <= sy <= size1 self /\ ey = sy.
Proof.
  intros H0 H1. unfold hline_window.
  pose proof (clamp_range 0 (size0 self) (fst pos) H0).
  pose proof (clamp_range 0 (size1 self) (snd pos) H1).
  pose proof (clamp_range 0 (size0 self)
                (int_of (_clamp 0 (size0 self) (fst pos) + len)) H0).
  destruct (Z.ltb_spec
              (_clamp 0 (size0 self) (int_of (_clamp 0 (size0 self) (fst pos) + len)))
              (_clamp 0 (size0 self) (fst pos))); lia.
Qed.

Lemma vline_window_range (self : pyb_tft_obj_t) (pos : Z * Z) (len : Z) :
  0 <= size0 self -> 0 <= size1 self ->
  let '(sx, sy, ex, ey) := vline_window self pos len in
  0 <= sy <= ey /\ ey <= size1 self /\ 0 <= sx <= size0 self /\ ex = sx.
Proof.
  intros H0 H1. unfold vline_window.
  pose proof (clamp_range 0 (size0 self) (fst pos) H0).
  pose proof (clamp_range 0 (size1 self) (snd pos) H1).
  pose proof (clamp_range 0 (size1 self)
                (int_of (_clamp 0 (size1 self) (snd pos) + len)) H1).
  destruct (Z.ltb_spec
              (_clamp 0 (size1 self) (int_of (_clamp 0 (size1 self) (snd pos) + len)))
              (_clamp 0 (size1 self) (snd pos))); lia.
Qed.

Lemma fillrect_window_range (self : pyb_tft_obj_t) (pos size : Z * Z) :
  0 <= size0 self -> 0 <= size1 self ->
  let '(sx, sy, ex, ey) := fillrect_window self pos size in
  0 <= sx <= ex /\ ex <= size0 self /\ 0 <= sy <= ey /\ ey <= size1 self.
Proof.
  intros H0 H1. unfold fillrect_window.
  pose proof (clamp_range 0 (size0 self) (fst pos) H0).
  pose proof (clamp_range 0 (size1 self) (snd pos) H1).
  pose proof (clamp_range 0 (size0 self)
                (int_of (_clamp 0 (size0 self) (fst pos) + fst size - 1)) H0).
  pose proof (clamp_range 0 (size1 self)
                (int_of (_clamp 0 (size1 self) (snd pos) + snd size - 1)) H1).
  destruct (Z.ltb_spec
              (_clamp 0 (size0 self)
                 (int_of (_clamp 0 (size0 self) (fst pos) + fst size - 1)))
              (_clamp 0 (size0 self) (fst pos)));
    destruct (Z.ltb_spec
                (_clamp 0 (size1 self)
                   (int_of (_clamp 0 (size1 self) (snd pos) + snd size - 1)))
                (_clamp 0 (size1 self) (snd pos))); lia.
Qed.

(** What [_pixel] puts on the bus for a position on the display, and
    for a position off it. *)
Lemma pixel_on_display (self : pyb_tft_obj_t) (x y : Z) (colorA : list Z) :
  0 <= x < size0 self -> 0 <= y < size1 self ->
  trace (_pixel x y colorA) self =
  trace (_setwindowloc x y (int_of (x + 1)) (int_of (y + 1))) self ++
  trace (_writedata colorA 2) self.
Proof.
  intros Hx Hy. unfold _pixel. rewrite trace_bind.
  change (value get self) with self. change (obj_after get self) with self.
  cbv beta.
  replace ((0 <=? x) && (x <? size0 self) && (0 <=? y) && (y <? size1 self))
    with true.
  - rewrite trace_bind, readonly_setwindowloc. reflexivity.
  - symmetry. rewrite !andb_true_iff, !Z.leb_le, !Z.ltb_lt. lia.
Qed.

Lemma pixel_off_display (self : pyb_tft_obj_t) (x y : Z) (colorA : list Z) :
  ~ (0 <= x < size0 self /\ 0 <= y < size1 self) ->
  _pixel x y colorA self = (tt, self, []).
Proof.
  intros H. unfold _pixel, bind, get.
  replace ((0 <=? x) && (x <? size0 self) && (0 <=? y) && (y <? size1 self))
    with false; [reflexivity|].
  symmetry. apply not_true_is_false. intros E. apply H.
  rewrite !andb_true_iff, !Z.leb_le, !Z.ltb_lt in E. lia.
Qed.

(** ** The Bresenham loops *)

Lemma int_of_add_r (a b : Z) : int_of (a + int_of b) = int_of (a + b).
Proof. rewrite Z.add_comm, int_of_add_l, Z.add_comm. reflexivity. Qed.

(** The loops leave through their condition: the fuel [line] gives
    them is enough. *)
Lemma line_loop_x_exits (fuel : nat) (ex inx iny dx dy px py e : Z)
    (colorA : list Z) (self : pyb_tft_obj_t) :
  is_int px -> is_int ex ->
  int_of (px + Z.of_nat fuel * inx) = ex ->
  value (line_loop_x fuel ex inx iny dx dy px py e colorA) self = true.
Proof.
  revert px py e.
  induction fuel as [|fuel IH]; intros px py e Hpx Hex Hend; simpl line_loop_x;
    destruct (Z.eqb_spec px ex) as [E|E]; try reflexivity.
  - exfalso. apply E. rewrite <- Hend.
    replace (px + Z.of_nat 0 * inx) with px by lia.
    symmetry. apply int_of_small, Hpx.
  - rewrite value_bind, readonly_pixel.
    destruct (e >=? 0); apply IH; try apply int_of_is_int; try exact Hex;
      rewrite int_of_add_l, <- Hend; f_equal; lia.
Qed.

Lemma line_loop_y_exits (fuel : nat) (ey inx iny dx dy px py e : Z)
    (colorA : list Z) (self : pyb_tft_obj_t) :
  is_int py -> is_int ey ->
  int_of (py + Z.of_nat fuel * iny) = ey ->
  value (line_loop_y fuel ey inx iny dx dy px py e colorA) self = true.
Proof.
  revert px py e.
  induction fuel as [|fuel IH]; intros px py e Hpy Hey Hend; simpl line_loop_y;
    destruct (Z.eqb_spec py ey) as [E|E]; try reflexivity.
  - exfalso. apply E. rewrite <- Hend.
    replace (py + Z.of_nat 0 * iny) with py by lia.
    symmetry. apply int_of_small, Hpy.
  - rewrite value_bind, readonly_pixel.
    destruct (e >=? 0); apply IH; try apply int_of_is_int; try exact Hey;
      rewrite int_of_add_l, <- Hend; f_equal; lia.
Qed.

Lemma steps_reach_end (p q : Z) :
  is_int q ->
  let d := int_of (q - p) in
  int_of (p + Z.of_nat (Z.to_nat (Z.abs d)) * (if d >? 0 then 1 else -1)) = q.
Proof.
  intros Hq d.
  replace (p + Z.of_nat (Z.to_nat (Z.abs d)) * (if d >? 0 then 1 else -1))
    with (p + d)
    by (destruct (Z.gtb_spec d 0); lia).
  unfold d. rewrite int_of_add_r.
  replace (p + (q - p)) with q by lia. apply int_of_small, Hq.
Qed.

(** The Bresenham branch of [line] ends, for all [int] end points. *)
Lemma line_bresenham_exits (px py ex ey color : Z) (self : pyb_tft_obj_t) :
  is_int px -> is_int py -> is_int ex -> is_int ey ->
  value (line_bresenham px py ex ey color) self = true.
Proof.
  intros Hpx Hpy Hex Hey. unfold line_bresenham. cbv zeta.
  destruct (_ >=? _).
  - apply line_loop_x_exits; try assumption. apply steps_reach_end, Hex.
  - apply line_loop_y_exits; try assumption. apply steps_reach_end, Hey.
Qed.

(** The loops put on the bus one [_pixel] per position of
    [line_points_x] and [line_points_y]. *)
Lemma line_loop_x_trace (fuel : nat) (ex inx iny dx dy px py e : Z)
    (colorA : list Z) (self : pyb_tft_obj_t) :
  trace (line_loop_x fuel ex inx iny dx dy px py e colorA) self =
  pixels_trace (line_points_x fuel ex inx iny dx dy px py e) colorA self.
Proof.
  revert px py e.
  induction fuel as [|fuel IH]; intros px py e;
    simpl line_loop_x; simpl line_points_x;
    destruct (px =? ex); try reflexivity.
  rewrite trace_bind, readonly_pixel.
  destruct (e >=? 0); unfold pixels_trace; simpl flat_map; f_equal; apply IH.
Qed.

Lemma line_loop_y_trace (fuel : nat) (ey inx iny dx dy px py e : Z)
    (colorA : list Z) (self : pyb_tft_obj_t) :
  trace (line_loop_y fuel ey inx iny dx dy px py e colorA) self =
  pixels_trace (line_points_y fuel ey inx iny dx dy px py e) colorA self.
Proof.
  revert px py e.
  induction fuel as [|fuel IH]; intros px py e;
    simpl line_loop_y; simpl line_points_y;
    destruct (py =? ey); try reflexivity.
  rewrite trace_bind, readonly_pixel.
  destruct (e >=? 0); unfold pixels_trace; simpl flat_map; f_equal; apply IH.
Qed.

(** No position of the loops has the end value of the major axis: the
    loop condition is tested before [_pixel] is called. *)
Lemma line_points_x_before_end (fuel : nat) (ex inx iny dx dy px py e : Z) :
  Forall (fun p => fst p <> ex) (line_points_x fuel ex inx iny dx dy px py e).
Proof.
  revert px py e.
  induction fuel as [|fuel IH]; intros px py e; simpl line_points_x;
    destruct (Z.eqb_spec px ex) as [E|E]; try constructor.
  destruct (e >=? 0); constructor; try exact E; apply IH.
Qed.

Lemma line_points_y_before_end (fuel : nat) (ey inx iny dx dy px py e : Z) :
  Forall (fun p => snd p <> ey) (line_points_y fuel ey inx iny dx dy px py e).
Proof.
  revert px py e.
  induction fuel as [|fuel IH]; intros px py e; simpl line_points_y;
    destruct (Z.eqb_spec py ey) as [E|E]; try constructor.
  destruct (e >=? 0); constructor; try exact E; apply IH.
Qed.

(** For every line of the Bresenham branch, the bus carries one
    [_pixel] per position of a list that does not hold the end point. *)
Lemma line_bresenham_points (px py ex ey color : Z) (self : pyb_tft_obj_t) :
  exists ps : list (Z * Z),
    trace (line_bresenham px py ex ey color) self =
      pixels_trace ps (color_bytes color) self /\
    Forall (fun p => p <> (ex, ey)) ps.
Proof.
  unfold line_bresenham. cbv zeta.
  destruct (_ >=? _); eexists; split.
  - apply line_loop_x_trace.
  - eapply Forall_impl; [|apply line_points_x_before_end].
    intros [a b] H E. apply H. inversion E. reflexivity.
  - apply line_loop_y_trace.
  - eapply Forall_impl; [|apply line_points_y_before_end].
    intros [a b] H E. apply H. inversion E. reflexivity.
Qed.

(** ** The drawing claims, on a constructed display *)

(** C1: for a position on the display [_pixel] programs the window
    from (x, y) to (x + 1, y + 1), not to (x, y), then streams one
    2-byte color; off the display nothing goes on the bus.  Seen on the
    128x160 display at (5, 7), at the last pixel (127, 159) and at
    (128, 0). *)
Theorem pixel_window_ends_one_past :
  frames (pyb_tft_pixel (5, 7) 0xF800) tft_X =
    [(ST_CASET, [0; 5; 0; 6]); (ST_RASET, [0; 7; 0; 8]);
     (ST_RAMWR, [0xF8; 0x00])] /\
  frames (pyb_tft_pixel (127, 159) 0xF800) tft_X =
    [(ST_CASET, [0; 127; 0; 128]); (ST_RASET, [0; 159; 0; 160]);
     (ST_RAMWR, [0xF8; 0x00])] /\
  trace (pyb_tft_pixel (128, 0) 0xF800) tft_X = [].
Proof. repeat split; vm_compute; reflexivity. Qed.

(** C2: [hline] and [vline] stream [len] colors whatever the window:
    a line of 20 from (120, 10) gets the window of columns 120 to 128,
    9 pixels, and 20 colors (40 bytes); a line of 5 from (0, 0) gets
    columns 0 to 5, 6 pixels, and 5 colors; a vertical line of 20 from
    (10, 150) gets rows 150 to 160, 11 pixels, and 20 colors. *)
Theorem hline_streams_len_not_window :
  (let fs := frames (pyb_tft_hline (120, 10) 20 0xFFFF) tft_X in
   hline_window tft_X (120, 10) 20 = (120, 10, 128, 10) /\
   window_pixels (hline_window tft_X (120, 10) 20) = 9 /\
   last_write ST_CASET fs = Some [0; 120; 0; 128] /\
   last_write ST_RASET fs = Some [0; 10; 0; 10] /\
   option_map (@List.length Z) (last_write ST_RAMWR fs) = Some (2 * 20)%nat) /\
  (let fs := frames (pyb_tft_hline (0, 0) 5 0xFFFF) tft_X in
   window_pixels (hline_window tft_X (0, 0) 5) = 6 /\
   last_write ST_CASET fs = Some [0; 0; 0; 5] /\
   option_map (@List.length Z) (last_write ST_RAMWR fs) = Some (2 * 5)%nat) /\
  (let fs := frames (pyb_tft_vline (10, 150) 20 0xFFFF) tft_X in
   window_pixels (vline_window tft_X (10, 150) 20) = 11 /\
   last_write ST_RASET fs = Some [0; 150; 0; 160] /\
   option_map (@List.length Z) (last_write ST_RAMWR fs) = Some (2 * 20)%nat).
Proof. repeat split; vm_compute; reflexivity. Qed.

(** C3: the Bresenham branch of [line] stops before the end point:
    line((0,0),(4,4)) calls [_pixel] at (0,0), (1,1), (2,2), (3,3) and
    leaves the loop when [px] reaches 4; nothing is drawn at (4,4). *)
Theorem line_diagonal_stops_before_end :
  let colorA := color_bytes 0xFFFF in
  trace (pyb_tft_line (0, 0) (4, 4) 0xFFFF) tft_X =
    pixels_trace [(0, 0); (1, 1); (2, 2); (3, 3)] colorA tft_X /\
  trace (pyb_tft_line (0, 0) (4, 4) 0xFFFF) tft_X <>
    pixels_trace [(0, 0); (1, 1); (2, 2); (3, 3); (4, 4)] colorA tft_X /\
  filter (fun f => fst f =? ST_CASET)
         (frames (pyb_tft_line (0, 0) (4, 4) 0xFFFF) tft_X) =
    [(ST_CASET, [0; 0; 0; 1]); (ST_CASET, [0; 1; 0; 2]);
     (ST_CASET, [0; 2; 0; 3]); (ST_CASET, [0; 3; 0; 4])] /\
  value (line_bresenham 0 0 4 4 0xFFFF) tft_X = true.
Proof.
  repeat split; try (vm_compute; reflexivity).
  vm_compute. discriminate.
Qed.

(** C4: the windows of [fillrect], [hline] and [vline] are clamped to
    the size, not to the size less one: on the 128x160 display a
    rectangle at x = 200 gets columns 128 to 128, and a line at
    y = 200 gets rows 160 to 160. *)
Theorem window_reaches_size :
  size0 tft_X = 128 /\ size1 tft_X = 160 /\
  fillrect_window tft_X (200, 0) (5, 5) = (128, 0, 128, 4) /\
  last_write ST_CASET (frames (pyb_tft_fillrect (200, 0) (5, 5) 0) tft_X) =
    Some [0; 128; 0; 128] /\
  hline_window tft_X (200, 10) 5 = (128, 10, 128, 10) /\
  vline_window tft_X (10, 200) 5 = (10, 160, 10, 160) /\
  last_write ST_RASET (frames (pyb_tft_vline (10, 200) 5 0) tft_X) =
    Some [0; 160; 0; 160].
Proof. repeat split; vm_compute; reflexivity. Qed.

(** ** The claims at concrete inputs *)

Lemma wired_tft_X : wired tft_X.
Proof. repeat split; discriminate. Defined.

Lemma make_new_X :
  pyb_tft_make_new any_pin "X" "X1" "X2" =
  inr (tft_X, [GPIO_set_pin pin_A4; GPIO_clear_pin "X1"%string; HAL_Delay 1]).
Proof. reflexivity. Defined.

Lemma constructed_display_defaults_witness :
  size0 tft_X = 128 /\ size1 tft_X = 160 /\ rotate tft_X = 0 /\ rgb tft_X = 1 /\
  madctl_data tft_X = 0x00 /\
  frames _setMADCTL tft_X = [(0x36, [0x00])] /\
  last_write ST_MADCTL (frames pyb_tft_initr tft_X) = Some [0x00].
Proof.
  destruct (constructed_display_defaults any_pin "X" "X1" "X2" tft_X _ make_new_X)
    as (H0 & H1 & Hr & Hc & Hm & Hw).
  destruct (Hw wired_tft_X) as (Hf & Hl).
  repeat split; assumption.
Defined.

Lemma rotation_toggle_swaps_size_witness :
  let self1 := obj_after (pyb_tft_rotation 1) tft_X in
  let self2 := obj_after (pyb_tft_rotation 2) self1 in
  (size0 self1, size1 self1) = (160, 128) /\
  (size0 self2, size1 self2) = (128, 160).
Proof.
  destruct (rotation_toggle_swaps_size tft_X 1) as [H1 H2];
    [vm_compute; discriminate|].
  split; [exact H1|].
  apply (H2 2). vm_compute. discriminate.
Defined.

Lemma initr_twice_same_witness :
  obj_after pyb_tft_initr (obj_after pyb_tft_initr tft_X) = tft_X /\
  last_write ST_MADCTL (frames pyb_tft_initr tft_X) = Some [0x00] /\
  last_write ST_CASET (frames pyb_tft_initr tft_X) = Some [0; 0; 0; 127] /\
  last_write ST_RASET (frames pyb_tft_initr tft_X) = Some [0; 0; 0; 159].
Proof.
  pose proof (initr_twice_same tft_X) as H.
  cbv zeta in H.
  destruct H as (_ & H2 & _ & _ & H5).
  split; [exact H2|].
  destruct (H5 wired_tft_X) as (_ & _ & H8 & H9 & H10).
  repeat split; assumption.
Defined.

Lemma text_char_outside_font_witness :
  trace (_drawchar 8 0 10 (color_bytes 0xFFFF) (DefaultFont glyphs_A_B) 1 1)
        tft_X = [] /\
  trace (pyb_tft_text glyphs_A_B (0, 0) [65; 10; 66] 0xFFFF None SizeDefault)
        tft_X =
    trace (pyb_tft_text glyphs_A_B (0, 0) [65] 0xFFFF None SizeDefault) tft_X ++
    trace (_drawchar 16 0 66 (color_bytes 0xFFFF) (DefaultFont glyphs_A_B) 1 1)
          tft_X /\
  trace (pyb_tft_text glyphs_A_B (0, 0) [65; 65; 66] 0xFFFF None SizeDefault)
        tft_X =
    trace (pyb_tft_text glyphs_A_B (0, 0) [65] 0xFFFF None SizeDefault) tft_X ++
    trace (_drawchar 8 0 65 (color_bytes 0xFFFF) (DefaultFont glyphs_A_B) 1 1)
          tft_X ++
    trace (_drawchar 16 0 66 (color_bytes 0xFFFF) (DefaultFont glyphs_A_B) 1 1)
          tft_X /\
  transmits
    (trace (_drawchar 16 0 66 (color_bytes 0xFFFF) (DefaultFont glyphs_A_B) 1 1)
           tft_X) = (20 * 13)%nat.
Proof.
  pose proof (text_char_outside_font glyphs_A_B tft_X (0, 0) [65] 10 65 [66]
                0xFFFF None SizeDefault) as H.
  cbv zeta in H.
  change (text_cursor tft_X (List.length [65]) _ _ _ _ _)
    with (Some (8, 0)) in H.
  destruct H as (H1 & H2 & H3 & H4); [left; simpl; lia|].
  destruct H4 as (_ & H4); [vm_compute; discriminate|].
  split; [exact H1|].
  split; [|split].
  - etransitivity; [exact H2|]. rewrite H4. vm_compute. reflexivity.
  - etransitivity; [exact H3|]. rewrite H4. vm_compute. reflexivity.
  - vm_compute. reflexivity.
Defined.

Lemma tft_color_rgb565_witness :
  tft_color 255 128 7 = 0xFC00 /\ Z.shiftr (tft_color 255 128 7) 11 = 31.
Proof.
  destruct (tft_color_rgb565 255 128 7) as (H1 & _ & H3); try lia.
  split; [reflexivity | exact H3].
Defined.

Lemma rotation_stays_in_table_witness :
  let self :=
    obj_after (calls [] (fun _ _ => 0)
                 [call_rotation 7; call_rgb false; call_initr;
                  call_rotation (-2); call_fill None])
              tft_X in
  In (rotate self) [0; 1; 2; 3] /\
  (Z.to_nat (rotate self) < List.length TFTRotations)%nat.
Proof.
  apply (proj2 (rotation_stays_in_table [] (fun _ _ => 0))
           any_pin "X"%string "X1"%string "X2"%string tft_X
           [GPIO_set_pin pin_A4; GPIO_clear_pin "X1"%string; HAL_Delay 1]).
  exact make_new_X.
Defined.

(** * More of the driver *)

(** ** The bus protocol layer, as the display reads it *)

Lemma trace_for_loop_emit (n : nat) (i : Z) (f : Z -> event)
    (self : pyb_tft_obj_t) :
  trace (for_loop n i (fun j => emit (f j))) self =
  map (fun k => f (i + Z.of_nat k)) (seq 0 n).
Proof.
  revert i. induction n as [|n IH]; intros i; [reflexivity|].
  simpl for_loop. rewrite trace_bind. change (obj_after (emit (f i)) self) with self.
  rewrite IH. simpl. rewrite Z.add_0_r. f_equal.
  rewrite <- seq_shift, map_map. apply map_ext. intros k. f_equal. lia.
Qed.

Lemma trace_for_loop_const (n : nat) (i : Z) (body : M unit)
    (self : pyb_tft_obj_t) :
  readonly body ->
  trace (for_loop n i (fun _ => body)) self =
  List.concat (repeat (trace body self) n).
Proof.
  intros Hr. revert i. induction n as [|n IH]; intros i; [reflexivity|].
  simpl for_loop. rewrite trace_bind, Hr, IH. reflexivity.
Qed.

Lemma map_index_seq (data : list Z) :
  map (fun k => index data (0 + Z.of_nat k)) (seq 0 (List.length data)) = data.
Proof.
  induction data as [|d data IH]; [reflexivity|].
  cbn [List.length seq map]. f_equal.
  rewrite <- seq_shift, map_map. rewrite <- IH at 2.
  apply map_ext. intros k. unfold index.
  rewrite !Z.add_0_l, !Nat2Z.id. reflexivity.
Qed.

Lemma map_index_firstn (data : list Z) (n : nat) :
  (n <= List.length data)%nat ->
  map (fun k => index data (0 + Z.of_nat k)) (seq 0 n) = firstn n data.
Proof.
  intros Hn.
  transitivity (map (fun k => index (firstn n data) (0 + Z.of_nat k)) (seq 0 n)).
  - apply map_ext_in. intros k Hk. apply in_seq in Hk.
    unfold index. rewrite Z.add_0_l, Nat2Z.id.
    rewrite <- (firstn_skipn n data) at 1. apply app_nth1.
    rewrite firstn_length_le; lia.
  - pose proof (map_index_seq (firstn n data)) as E.
    rewrite firstn_length_le in E by lia. exact E.
Qed.

(** The trace of [_writedata], event by event. *)
Lemma trace_writedata (data_in : list Z) (count : Z) (self : pyb_tft_obj_t) :
  trace (_writedata data_in count) self =
  GPIO_clear_pin (pin_cs self) :: GPIO_set_pin (pin_dc self) ::
  map (fun k => HAL_SPI_Transmit (spi self) (index data_in (0 + Z.of_nat k)))
      (seq 0 (Z.to_nat count)) ++
  [GPIO_set_pin (pin_cs self)].
Proof.
  unfold _writedata. rewrite trace_bind.
  change (value get self) with self. change (obj_after get self) with self.
  cbv beta. rewrite !trace_bind.
  rewrite (trace_for_loop_emit _ 0
             (fun i => HAL_SPI_Transmit (spi self) (index data_in i))).
  reflexivity.
Qed.

(** The trace of [_draw], event by event. *)
Lemma trace_draw (numPixels color : Z) (self : pyb_tft_obj_t) :
  trace (_draw numPixels color) self =
  GPIO_clear_pin (pin_cs self) :: GPIO_set_pin (pin_dc self) ::
  List.concat (repeat [HAL_SPI_Transmit (spi self) (byte_of (Z.shiftr color 8));
                  HAL_SPI_Transmit (spi self) (byte_of color)]
                 (Z.to_nat numPixels)) ++
  [GPIO_set_pin (pin_cs self)].
Proof.
  unfold _draw. rewrite trace_bind.
  change (value get self) with self. change (obj_after get self) with self.
  cbv beta zeta. rewrite !trace_bind.
  rewrite trace_for_loop_const by readonly_tac.
  reflexivity.
Qed.

Section DecodeRuns.

Variable self : pyb_tft_obj_t.

Lemma decode_data_run (h : SPI_HandleTypeDef) (bs : list Z) (rest : list event) :
  decode self false true (map (HAL_SPI_Transmit h) bs ++ rest) =
  map Dat bs ++ decode self false true rest.
Proof.
  induction bs as [|b bs IH]; [reflexivity|].
  simpl. rewrite IH. reflexivity.
Qed.

Lemma decode_color_run (h : SPI_HandleTypeDef) (hi lo : Z) (n : nat)
    (rest : list event) :
  decode self false true
    (List.concat (repeat [HAL_SPI_Transmit h hi; HAL_SPI_Transmit h lo] n) ++ rest) =
  List.concat (repeat [Dat hi; Dat lo] n) ++ decode self false true rest.
Proof.
  induction n as [|n IH]; [reflexivity|].
  simpl. rewrite IH. reflexivity.
Qed.

End DecodeRuns.

(** X1: on a display whose lines are three pins, [_writedata] makes
    the display receive the first [count] bytes of its buffer, in
    order, as data bytes; [data(buf)] delivers the whole buffer. *)
Theorem writedata_reaches_display (self : pyb_tft_obj_t) (data_in : list Z)
    (count : Z) (cs dc : bool) :
  wired self ->
  count <= Z.of_nat (List.length data_in) ->
  decode self cs dc (trace (_writedata data_in count) self) =
    map Dat (firstn (Z.to_nat count) data_in) /\
  decode self cs dc (trace (pyb_tft_data data_in) self) = map Dat data_in.
Proof.
  intros W Hc.
  assert (G : forall n, (n <= List.length data_in)%nat ->
            decode self cs dc (trace (_writedata data_in (Z.of_nat n)) self) =
            map Dat (firstn n data_in)).
  { intros n Hn. rewrite trace_writedata, Nat2Z.id.
    rewrite (decode_clear_cs _ W), (decode_set_dc _ W).
    rewrite <- (map_map (fun k => index data_in (0 + Z.of_nat k))
                        (HAL_SPI_Transmit (spi self))).
    rewrite decode_data_run, (decode_set_cs _ W), decode_nil, app_nil_r.
    f_equal. apply map_index_firstn, Hn. }
  split.
  - destruct (Z.le_gt_cases 0 count) as [P|P].
    + rewrite <- (Z2Nat.id count P) at 1. apply G. lia.
    + replace (Z.to_nat count) with 0%nat by lia.
      rewrite trace_writedata. replace (Z.to_nat count) with 0%nat by lia.
      simpl seq. simpl map.
      rewrite (decode_clear_cs _ W), (decode_set_dc _ W).
      simpl app. rewrite (decode_set_cs _ W). reflexivity.
  - unfold pyb_tft_data. rewrite G by lia. rewrite firstn_all. reflexivity.
Qed.

(** X2: [command(c)] makes the display receive the one command byte
    [c mod 256]; [on] and [invertcolor] send the one command
    DISPON/DISPOFF and INVON/INVOFF. *)
Theorem command_is_one_byte (self : pyb_tft_obj_t) (command : Z) (v : bool)
    (cs dc : bool) :
  wired self ->
  decode self cs dc (trace (pyb_tft_command command) self) =
    [Cmd (command mod 256)] /\
  decode self cs dc (trace (pyb_tft_on v) self) =
    [Cmd (if v then 0x29 else 0x28)] /\
  decode self cs dc (trace (pyb_tft_invertcolor v) self) =
    [Cmd (if v then 0x21 else 0x20)].
Proof.
  intros W. repeat split.
  - unfold pyb_tft_command. run_trace. run_decode W. reflexivity.
  - unfold pyb_tft_on. destruct v; run_trace; run_decode W; reflexivity.
  - unfold pyb_tft_invertcolor. destruct v; run_trace; run_decode W; reflexivity.
Qed.

(** X3: [_setwindowloc] makes the display receive CASET with
    [0, sx, 0, ex], RASET with [0, sy, 0, ey] and RAMWR, each
    coordinate cut to its low byte: coordinates that differ by
    multiples of 256 give the same trace. *)
Theorem setwindowloc_bytes (self : pyb_tft_obj_t) (sx sy ex ey : Z)
    (cs dc : bool) :
  wired self ->
  decode self cs dc (trace (_setwindowloc sx sy ex ey) self) =
    window_bytes (sx, sy, ex, ey) /\
  forall a b c d : Z,
    trace (_setwindowloc (sx + a * 256) (sy + b * 256)
                         (ex + c * 256) (ey + d * 256)) self =
    trace (_setwindowloc sx sy ex ey) self.
Proof.
  intros W. split.
  - run_trace. run_decode W. reflexivity.
  - intros a b c d. unfold _setwindowloc, byte_of.
    rewrite !Z.mod_add by lia. reflexivity.
Qed.

(** X4: [_draw] makes the display receive [numPixels] times the high
    byte then the low byte of the color (nothing when [numPixels] is
    not positive); for a 16-bit color the two bytes give the color
    back. *)
Theorem draw_streams_color (self : pyb_tft_obj_t) (numPixels color : Z)
    (cs dc : bool) :
  wired self ->
  decode self cs dc (trace (_draw numPixels color) self) =
    color_run color numPixels /\
  List.length (color_run color numPixels) = (2 * Z.to_nat numPixels)%nat /\
  (0 <= color < 65536 ->
   (color / 256 mod 256) * 256 + color mod 256 = color).
Proof.
  intros W. split; [|split].
  - rewrite trace_draw.
    rewrite (decode_clear_cs _ W), (decode_set_dc _ W), decode_color_run.
    rewrite (decode_set_cs _ W), decode_nil, app_nil_r.
    unfold color_run, byte_of. rewrite Z.shiftr_div_pow2 by lia. reflexivity.
  - unfold color_run. induction (Z.to_nat numPixels) as [|n IH]; [reflexivity|].
    simpl. rewrite IH. lia.
  - intros Hc. rewrite (Z.mod_small (color / 256)).
    + pose proof (Z.div_mod color 256). lia.
    + split; [apply Z.div_pos; lia | apply Z.div_lt_upper_bound; lia].
Qed.

(** ** Chip select *)

Lemma select_check_app (p : pin_obj_t) (cs : bool) (t1 t2 : list event) :
  select_check p cs (t1 ++ t2) =
  match select_check p cs t1 with
  | Some cs' => select_check p cs' t2
  | None => None
  end.
Proof.
  revert cs. induction t1 as [|e t1 IH]; intros cs; [reflexivity|].
  destruct e; simpl; try apply IH.
  destruct cs; [reflexivity | apply IH].
Qed.

Lemma select_check_data_run (p : pin_obj_t) (h : SPI_HandleTypeDef)
    (bs : list Z) (rest : list event) :
  select_check p false (map (HAL_SPI_Transmit h) bs ++ rest) =
  select_check p false rest.
Proof. induction bs as [|b bs IH]; [reflexivity | exact IH]. Qed.

Lemma select_check_color_run (p : pin_obj_t) (h : SPI_HandleTypeDef)
    (hi lo : Z) (n : nat) (rest : list event) :
  select_check p false
    (List.concat (repeat [HAL_SPI_Transmit h hi; HAL_SPI_Transmit h lo] n) ++ rest) =
  select_check p false rest.
Proof. induction n as [|n IH]; [reflexivity | exact IH]. Qed.

Section Bracket.

Variable self : pyb_tft_obj_t.
Hypothesis W : wired self.

Lemma select_clear_cs cs t :
  select_check (pin_cs self) cs (GPIO_clear_pin (pin_cs self) :: t) =
  select_check (pin_cs self) false t.
Proof. simpl. rewrite String.eqb_refl. reflexivity. Qed.

Lemma select_set_cs cs t :
  select_check (pin_cs self) cs (GPIO_set_pin (pin_cs self) :: t) =
  select_check (pin_cs self) true t.
Proof. simpl. rewrite String.eqb_refl. reflexivity. Qed.

Lemma select_clear_dc cs t :
  select_check (pin_cs self) cs (GPIO_clear_pin (pin_dc self) :: t) =
  select_check (pin_cs self) cs t.
Proof.
  destruct (wired_eqb self W) as (_ & E2 & _). simpl. rewrite E2. reflexivity.
Qed.

Lemma select_set_dc cs t :
  select_check (pin_cs self) cs (GPIO_set_pin (pin_dc self) :: t) =
  select_check (pin_cs self) cs t.
Proof.
  destruct (wired_eqb self W) as (_ & E2 & _). simpl. rewrite E2. reflexivity.
Qed.

Lemma select_clear_rst cs t :
  select_check (pin_cs self) cs (GPIO_clear_pin (pin_rst self) :: t) =
  select_check (pin_cs self) cs t.
Proof.
  destruct (wired_eqb self W) as (_ & _ & _ & E4). simpl. rewrite E4. reflexivity.
Qed.

Lemma select_set_rst cs t :
  select_check (pin_cs self) cs (GPIO_set_pin (pin_rst self) :: t) =
  select_check (pin_cs self) cs t.
Proof.
  destruct (wired_eqb self W) as (_ & _ & _ & E4). simpl. rewrite E4. reflexivity.
Qed.

Lemma select_delay cs ms t :
  select_check (pin_cs self) cs (HAL_Delay ms :: t) =
  select_check (pin_cs self) cs t.
Proof. reflexivity. Qed.

Lemma select_transmit h b t :
  select_check (pin_cs self) false (HAL_SPI_Transmit h b :: t) =
  select_check (pin_cs self) false t.
Proof. reflexivity. Qed.

Lemma select_nil cs : select_check (pin_cs self) cs [] = Some cs.
Proof. reflexivity. Qed.

Lemma bracket_ret {A : Type} (a : bool) (x : A) : bracket self a a (ret x).
Proof. reflexivity. Qed.

Lemma bracket_get (a : bool) : bracket self a a get.
Proof. reflexivity. Qed.

Lemma bracket_delay (a : bool) (ms : Z) : bracket self a a (emit (HAL_Delay ms)).
Proof. reflexivity. Qed.

Lemma bracket_set_cs (a : bool) :
  bracket self a true (emit (GPIO_set_pin (pin_cs self))).
Proof. unfold bracket. cbv [trace emit snd]. apply select_set_cs. Qed.

Lemma bracket_bind {A B : Type} (a b c : bool) (m : M A) (k : A -> M B) :
  bracket self a b m -> readonly m ->
  bracket self b c (k (value m self)) ->
  bracket self a c (bind m k).
Proof.
  unfold bracket. intros Hm Hr Hk.
  rewrite trace_bind, select_check_app, Hm, Hr. exact Hk.
Qed.

Lemma bracket_for_loop (a : bool) (n : nat) (i : Z) (body : Z -> M unit) :
  (forall j, bracket self a a (body j)) -> (forall j, readonly (body j)) ->
  bracket self a a (for_loop n i body).
Proof.
  intros Hb Hr. revert i. induction n as [|n IH]; intros i; simpl for_loop.
  - apply bracket_ret.
  - apply (bracket_bind a a a); [apply Hb | apply Hr | apply IH].
Qed.

Lemma bracket_reset (a : bool) : bracket self a a _reset.
Proof.
  unfold bracket. run_trace.
  rewrite select_clear_dc, select_set_rst, select_delay, select_clear_rst,
    select_delay, select_set_rst.
  reflexivity.
Qed.

Lemma bracket_writecommand (a : bool) (command : Z) :
  bracket self a true (_writecommand command).
Proof.
  unfold bracket. run_trace.
  rewrite select_clear_cs, select_clear_dc, select_transmit.
  apply select_set_cs.
Qed.

Lemma bracket_writedata (a : bool) (data_in : list Z) (count : Z) :
  bracket self a true (_writedata data_in count).
Proof.
  unfold bracket. rewrite trace_writedata.
  rewrite select_clear_cs, select_set_dc.
  rewrite <- (map_map (fun k => index data_in (0 + Z.of_nat k))
                      (HAL_SPI_Transmit (spi self))).
  rewrite select_check_data_run. apply select_set_cs.
Qed.

Lemma bracket_draw (a : bool) (numPixels color : Z) :
  bracket self a true (_draw numPixels color).
Proof.
  unfold bracket. rewrite trace_draw.
  rewrite select_clear_cs, select_set_dc, select_check_color_run.
  apply select_set_cs.
Qed.

End Bracket.

Lemma bracket_clear_cs (self : pyb_tft_obj_t) (a : bool) :
  bracket self a false (emit (GPIO_clear_pin (pin_cs self))).
Proof. unfold bracket. cbv [trace emit snd]. apply select_clear_cs. Qed.

Lemma bracket_set_dc (self : pyb_tft_obj_t) (a : bool) :
  wired self -> bracket self a a (emit (GPIO_set_pin (pin_dc self))).
Proof. intros W. unfold bracket. cbv [trace emit snd]. apply (select_set_dc _ W). Qed.

Lemma bracket_transmit (self : pyb_tft_obj_t) (h : SPI_HandleTypeDef) (b : Z) :
  bracket self false false (emit (HAL_SPI_Transmit h b)).
Proof. reflexivity. Qed.

Create HintDb brk.

#[export] Hint Resolve bracket_ret bracket_get bracket_delay bracket_set_cs
  bracket_clear_cs bracket_set_dc bracket_transmit
  bracket_reset bracket_writecommand bracket_writedata bracket_draw : brk.

(** One step in the proof that a function keeps the chip select
    discipline: the goal follows the shape of the code. *)
Ltac bracket_step :=
  cbv beta zeta;
  match goal with
  | |- bracket ?s _ _ (bind get _) =>
      eapply (bracket_bind s);
      [ apply bracket_get | apply readonly_get | try change (value get s) with s ]
  | |- bracket ?s _ _ (bind _ _) =>
      eapply (bracket_bind s); [ | solve [readonly_tac] | ]
  | |- bracket _ _ _ (for_loop _ _ _) =>
      apply bracket_for_loop; [ intros ? | intros ?; solve [readonly_tac] ]
  | |- bracket _ _ _ (if ?b then _ else _) => destruct b
  | |- bracket _ _ _ (match ?x with _ => _ end) => destruct x
  | |- bracket _ _ _ _ => solve [ eauto with brk ]
  end.

Ltac bracket_tac := repeat bracket_step.

Section BracketMethods.

Variable self : pyb_tft_obj_t.
Hypothesis W : wired self.

Lemma bracket_setMADCTL (a : bool) : bracket self a true _setMADCTL.
Proof. unfold _setMADCTL. bracket_tac. Qed.

Lemma bracket_setwindowloc (a : bool) (sx sy ex ey : Z) :
  bracket self a true (_setwindowloc sx sy ex ey).
Proof. unfold _setwindowloc. bracket_tac. Qed.

Lemma bracket_pixel (x y : Z) (colorA : list Z) :
  bracket self true true (_pixel x y colorA).
Proof. unfold _pixel. pose proof bracket_setwindowloc. bracket_tac. Qed.

End BracketMethods.

#[export] Hint Resolve bracket_setMADCTL bracket_setwindowloc bracket_pixel : brk.


(** What the two methods that write the object put on the bus. *)
Lemma trace_rgb (v : bool) (self : pyb_tft_obj_t) :
  trace (pyb_tft_rgb v) self =
  if negb ((if v then 1 else 0) =? rgb self)
  then trace _setMADCTL (set_rgb self (if v then 1 else 0))
  else [].
Proof.
  unfold pyb_tft_rgb. rewrite trace_bind.
  change (value get self) with self. change (obj_after get self) with self.
  cbv beta zeta. destruct (negb _); [|reflexivity].
  rewrite trace_bind. reflexivity.
Qed.

Lemma trace_rotation (v : Z) (self : pyb_tft_obj_t) :
  trace (pyb_tft_rotation v) self =
  trace _setMADCTL (obj_after (pyb_tft_rotation v) self).
Proof.
  rewrite obj_after_rotation.
  unfold pyb_tft_rotation. rewrite trace_bind.
  change (value get self) with self. change (obj_after get self) with self.
  cbv beta zeta. rewrite trace_bind.
  change (obj_after (put (set_rotate self (uint_of (Z.land v 3)))) self)
    with (set_rotate self (uint_of (Z.land v 3))).
  change (trace (put (set_rotate self (uint_of (Z.land v 3)))) self)
    with (@nil event).
  rewrite app_nil_l, trace_bind.
  destruct (Z.land (int_of (Z.lxor (rotate self) (uint_of (Z.land v 3)))) 1 =? 0);
    reflexivity.
Qed.

(** The object a call leaves: only [rgb] and [rotation] write it. *)
Lemma obj_after_call (table : list Z) (sqrtf_int : Z -> Z -> Z) (m : method)
    (self : pyb_tft_obj_t) :
  obj_after (call table sqrtf_int m) self =
  match m with
  | call_rgb v => set_rgb self (if v then 1 else 0)
  | call_rotation v => obj_after (pyb_tft_rotation v) self
  | _ => self
  end.
Proof.
  destruct m as [c|buf| | | |v|v|v|v| |pos data c font size|p0 p1 c|pos len c
                |pos len c|c|pos sz c|pos sz c|pos rad c|pos c|pos rad c];
    simpl call.
  - apply readonly_command.
  - apply readonly_data.
  - apply readonly_initr.
  - apply readonly_initg.
  - apply readonly_initb.
  - apply readonly_invertcolor.
  - apply readonly_on.
  - apply obj_after_rgb.
  - reflexivity.
  - rewrite obj_after_bind. apply readonly_size.
  - apply readonly_text.
  - apply readonly_line.
  - apply readonly_vline.
  - apply readonly_hline.
  - apply readonly_fill.
  - apply readonly_rect.
  - apply readonly_fillrect.
  - apply readonly_fillcircle.
  - apply readonly_tft_pixel.
  - apply readonly_circle.
Qed.

Lemma call_keeps_pins (table : list Z) (sqrtf_int : Z -> Z -> Z) (m : method)
    (self : pyb_tft_obj_t) :
  let self' := obj_after (call table sqrtf_int m) self in
  spi self' = spi self /\ pin_cs self' = pin_cs self /\
  pin_dc self' = pin_dc self /\ pin_rst self' = pin_rst self.
Proof.
  cbv zeta. rewrite obj_after_call.
  destruct m; try (repeat split; reflexivity).
  rewrite obj_after_rotation. cbv zeta.
  destruct (_ =? 0); repeat split; reflexivity.
Qed.

Section BracketDrawing.

Variable self : pyb_tft_obj_t.
Hypothesis W : wired self.

Lemma bracket_drawchar_rows1 (n : nat) (x cy c : Z) (colorA : list Z) :
  bracket self true true (drawchar_rows1 n x cy c colorA).
Proof.
  revert cy c. induction n as [|n IH]; intros cy c; simpl; bracket_tac.
Qed.

Lemma bracket_drawchar_rowsN (n : nat) (x cy c : Z) (colorA : list Z)
    (sx sy numPixels : Z) :
  bracket self true true (drawchar_rowsN n x cy c colorA sx sy numPixels).
Proof.
  revert cy c. induction n as [|n IH]; intros cy c; simpl; bracket_tac.
Qed.

Hint Resolve bracket_drawchar_rows1 bracket_drawchar_rowsN : brk.

Lemma bracket_drawchar_cols1 (n : nat) (charA x y : Z) (colorA : list Z)
    (font : tft_font_data) :
  bracket self true true (drawchar_cols1 n charA x y colorA font).
Proof.
  revert charA x. induction n as [|n IH]; intros charA x; simpl; bracket_tac.
Qed.

Lemma bracket_drawchar_colsN (n : nat) (charA x y : Z) (colorA : list Z)
    (font : tft_font_data) (sx sy numPixels : Z) :
  bracket self true true (drawchar_colsN n charA x y colorA font sx sy numPixels).
Proof.
  revert charA x. induction n as [|n IH]; intros charA x; simpl; bracket_tac.
Qed.

Hint Resolve bracket_drawchar_cols1 bracket_drawchar_colsN : brk.

Lemma bracket_drawchar (x y ci : Z) (colorA : list Z) (font : tft_font_data)
    (sx sy : Z) :
  bracket self true true (_drawchar x y ci colorA font sx sy).
Proof. unfold _drawchar. bracket_tac. Qed.

Hint Resolve bracket_drawchar : brk.

Lemma bracket_text_loop (data : list Z) (x px y : Z) (colorA : list Z)
    (font : tft_font_data) (sx sy width height : Z) :
  bracket self true true (text_loop data x px y colorA font sx sy width height).
Proof.
  revert px y. induction data as [|c data IH]; intros px y; simpl; bracket_tac.
Qed.

Hint Resolve bracket_text_loop : brk.

Lemma bracket_vline (pos : Z * Z) (len color : Z) :
  bracket self true true (pyb_tft_vline pos len color).
Proof. unfold pyb_tft_vline. bracket_tac. Qed.

Lemma bracket_hline (pos : Z * Z) (len color : Z) :
  bracket self true true (pyb_tft_hline pos len color).
Proof. unfold pyb_tft_hline. bracket_tac. Qed.

Hint Resolve bracket_vline bracket_hline : brk.

Lemma bracket_line_loop_x (fuel : nat) (ex inx iny dx dy px py e : Z)
    (colorA : list Z) :
  bracket self true true (line_loop_x fuel ex inx iny dx dy px py e colorA).
Proof.
  revert px py e.
  induction fuel as [|fuel IH]; intros px py e; simpl; bracket_tac.
Qed.

Lemma bracket_line_loop_y (fuel : nat) (ey inx iny dx dy px py e : Z)
    (colorA : list Z) :
  bracket self true true (line_loop_y fuel ey inx iny dx dy px py e colorA).
Proof.
  revert px py e.
  induction fuel as [|fuel IH]; intros px py e; simpl; bracket_tac.
Qed.

Hint Resolve bracket_line_loop_x bracket_line_loop_y : brk.

Lemma bracket_call (table : list Z) (sqrtf_int : Z -> Z -> Z) (m : method) :
  bracket self true true (call table sqrtf_int m).
Proof.
  destruct m as [c|buf| | | |v|v|v|v| |pos data c font size|p0 p1 c|pos len c
                |pos len c|c|pos sz c|pos sz c|pos rad c|pos c|pos rad c];
    simpl call.
  - unfold pyb_tft_command. bracket_tac.
  - unfold pyb_tft_data. bracket_tac.
  - unfold pyb_tft_initr. bracket_tac.
  - unfold pyb_tft_initg. bracket_tac.
  - unfold pyb_tft_initb. bracket_tac.
  - unfold pyb_tft_invertcolor. bracket_tac.
  - unfold pyb_tft_on. bracket_tac.
  - unfold bracket. rewrite trace_rgb. destruct (negb _); [|reflexivity].
    exact (bracket_setMADCTL (set_rgb self (if v then 1 else 0)) W true).
  - unfold bracket. rewrite trace_rotation, obj_after_rotation. cbv zeta.
    destruct (_ =? 0).
    + exact (bracket_setMADCTL (set_rotate self (uint_of (Z.land v 3))) W true).
    + exact (bracket_setMADCTL
               (set_size (set_rotate self (uint_of (Z.land v 3)))
                         (size1 self) (size0 self)) W true).
  - unfold pyb_tft_size. bracket_tac.
  - unfold pyb_tft_text. bracket_tac.
  - unfold pyb_tft_line, line_bresenham. bracket_tac.
  - apply bracket_vline.
  - apply bracket_hline.
  - unfold pyb_tft_fill. bracket_tac.
  - unfold pyb_tft_rect. bracket_tac.
  - unfold pyb_tft_fillrect. bracket_tac.
  - unfold pyb_tft_fillcircle. bracket_tac.
  - unfold pyb_tft_pixel. bracket_tac.
  - unfold pyb_tft_circle. bracket_tac.
Qed.

End BracketDrawing.

(** X5: from chip select high, every sequence of method calls
    transmits bytes only while chip select is low, and leaves chip
    select high. *)
Theorem chip_select_discipline (table : list Z) (sqrtf_int : Z -> Z -> Z)
    (ms : list method) (self : pyb_tft_obj_t) :
  wired self ->
  select_check (pin_cs self) true (trace (calls table sqrtf_int ms) self) =
  Some true.
Proof.
  revert self. induction ms as [|m ms IH]; intros self W; simpl calls.
  - reflexivity.
  - rewrite trace_bind, select_check_app.
    rewrite (bracket_call self W table sqrtf_int m).
    destruct (call_keeps_pins table sqrtf_int m self) as (_ & Ecs & Edc & Erst).
    rewrite <- Ecs. apply IH.
    unfold wired. rewrite Ecs, Edc, Erst. exact W.
Qed.

(** ** Size, rotation and color order *)

Lemma odd_land_3 (v : Z) : Z.odd (Z.land v 3) = Z.odd v.
Proof.
  rewrite <- !Z.bit0_odd, Z.land_spec. change (Z.testbit 3 0) with true.
  apply andb_true_r.
Qed.

Lemma land_3_periodic (v k : Z) : Z.land (v + 4 * k) 3 = Z.land v 3.
Proof.
  assert (E : forall x, Z.land x 3 = x mod 4)
    by (intros x; change 3 with (Z.ones 2); rewrite Z.land_ones by lia;
        reflexivity).
  rewrite !E. rewrite (Z.mul_comm 4 k). apply Z.mod_add. lia.
Qed.

Lemma call_keeps_size_fit (table : list Z) (sqrtf_int : Z -> Z -> Z)
    (m : method) (self : pyb_tft_obj_t) :
  size_fits_rotation self ->
  size_fits_rotation (obj_after (call table sqrtf_int m) self).
Proof.
  intros [Hr Hs]. rewrite obj_after_call.
  destruct m; try (split; assumption).
  unfold size_fits_rotation.
  rewrite rotate_after_rotation. split; [apply land_3_range|].
  rewrite size_after_rotation. change 0x03 with 3.
  rewrite <- (Z.negb_odd (Z.land rotation_in 3)), odd_land_3.
  rewrite <- Z.negb_odd in Hs.
  destruct (Z.odd (rotate self)), (Z.odd rotation_in); simpl in *;
    injection Hs as -> ->; reflexivity.
Qed.

Lemma calls_keep_size_fit (table : list Z) (sqrtf_int : Z -> Z -> Z)
    (ms : list method) (self : pyb_tft_obj_t) :
  size_fits_rotation self ->
  size_fits_rotation (obj_after (calls table sqrtf_int ms) self).
Proof.
  revert self. induction ms as [|m ms IH]; intros self H; simpl calls.
  - exact H.
  - rewrite obj_after_bind. apply IH, call_keeps_size_fit, H.
Qed.

(** X6: on a constructed display, after any sequence of method calls,
    [size()] is (128, 160) when the rotation is even and (160, 128)
    when it is odd; both sizes fit a byte. *)
Theorem size_follows_rotation (table : list Z) (sqrtf_int : Z -> Z -> Z)
    (find : string -> option pin_obj_t) (tft_id dc rst : string)
    (tft : pyb_tft_obj_t) (t : list event) (ms : list method) :
  pyb_tft_make_new find tft_id dc rst = inr (tft, t) ->
  let self := obj_after (calls table sqrtf_int ms) tft in
  value pyb_tft_size self =
    (if Z.even (rotate self) then (128, 160) else (160, 128)) /\
  0 < size0 self <= 160 /\ 0 < size1 self <= 160 /\
  size0 self * size1 self = 20480.
Proof.
  intros Hnew self.
  apply make_new_fields in Hnew. destruct Hnew as (E0 & E1 & Er & _).
  assert (H : size_fits_rotation self).
  { apply calls_keep_size_fit. split; [lia|]. rewrite E0, E1, Er. reflexivity. }
  destruct H as [_ Hs].
  change (value pyb_tft_size self) with (size0 self, size1 self).
  split; [exact Hs|].
  destruct (Z.even (rotate self)); injection Hs as -> ->; lia.
Qed.

(** X7: [rotation(v)] depends on [v] modulo 4 only; a second call
    with the same value leaves the object as the first did; and every
    call writes MADCTL once, with the byte of the new state. *)
Theorem rotation_mod_4 (v k : Z) (self : pyb_tft_obj_t) :
  pyb_tft_rotation (v + 4 * k) self = pyb_tft_rotation v self /\
  obj_after (pyb_tft_rotation v) (obj_after (pyb_tft_rotation v) self) =
    obj_after (pyb_tft_rotation v) self /\
  (wired self ->
   frames (pyb_tft_rotation v) self =
     [(ST_MADCTL, [madctl_data (obj_after (pyb_tft_rotation v) self)])]).
Proof.
  split; [|split].
  - unfold pyb_tft_rotation. change 0x03 with 3.
    rewrite land_3_periodic. reflexivity.
  - rewrite (obj_after_rotation v (obj_after (pyb_tft_rotation v) self)).
    cbv zeta. rewrite rotchange_parity, rotate_after_rotation.
    change 0x03 with 3. rewrite odd_land_3, Bool.eqb_reflx.
    rewrite obj_after_rotation. cbv zeta.
    rewrite (uint_of_small (Z.land v 3)) by (pose proof (land_3_range v); lia).
    destruct (_ =? 0); reflexivity.
  - intros W. unfold frames. rewrite trace_rotation.
    destruct (call_keeps_pins [] (fun _ _ => 0) (call_rotation v) self)
      as (_ & Ecs & Edc & Erst). simpl call in *.
    set (self' := obj_after (pyb_tft_rotation v) self) in *.
    assert (W' : wired self') by (unfold wired; rewrite Ecs, Edc, Erst; exact W).
    pose proof (frames_setMADCTL self' W') as F. unfold frames in F.
    assert (D : forall cs dc t, decode self cs dc t = decode self' cs dc t).
    { intros cs dc t. revert cs dc.
      induction t as [|e t IH]; intros cs dc; [reflexivity|].
      destruct e; simpl; rewrite ?Ecs, ?Edc, IH; reflexivity. }
    rewrite D. exact F.
Qed.

(** X8: [rgb(v)] writes MADCTL only when the flag changes: a call
    that repeats the stored flag, and so any second call with the same
    value, puts nothing on the bus; a call that changes it writes the
    one MADCTL byte of the new state. *)
Theorem rgb_writes_on_change (v : bool) (self : pyb_tft_obj_t) :
  trace (pyb_tft_rgb v) (obj_after (pyb_tft_rgb v) self) = [] /\
  (rgb self = (if v then 1 else 0) -> pyb_tft_rgb v self = (tt, self, [])) /\
  (wired self -> rgb self <> (if v then 1 else 0) ->
   frames (pyb_tft_rgb v) self =
     [(ST_MADCTL, [madctl_data (set_rgb self (if v then 1 else 0))])]).
Proof.
  split; [|split].
  - rewrite trace_rgb, obj_after_rgb. simpl rgb. rewrite Z.eqb_refl. reflexivity.
  - intros E. unfold pyb_tft_rgb, bind, get. rewrite E, Z.eqb_refl. reflexivity.
  - intros W Hne. unfold frames. rewrite trace_rgb.
    destruct (Z.eqb_spec (if v then 1 else 0) (rgb self)) as [E|E];
      [congruence|]. simpl negb. cbv iota.
    exact (frames_setMADCTL (set_rgb self (if v then 1 else 0)) W).
Qed.

(** X9: for a rotation in 0..3 the MADCTL byte holds the color order
    in bit 3 and the rotation in bits 5 to 7, so the byte tells both:
    two states with the same byte have the same rotation and the same
    order. *)
Theorem madctl_byte_decodes (self : pyb_tft_obj_t) :
  0 <= rotate self <= 3 ->
  Z.land (madctl_data self) 0x08 = (if rgb self =? 0 then TFTBGR else TFTRGB) /\
  Z.land (madctl_data self) 0xE0 = index TFTRotations (rotate self) /\
  0 <= madctl_data self < 256 /\
  forall self' : pyb_tft_obj_t,
    0 <= rotate self' <= 3 ->
    madctl_data self' = madctl_data self ->
    rotate self' = rotate self /\ (rgb self' =? 0) = (rgb self =? 0).
Proof.
  intros Hr.
  assert (C : forall s, 0 <= rotate s <= 3 ->
            exists r c, (r = 0 \/ r = 1 \/ r = 2 \/ r = 3) /\
              rotate s = r /\ (rgb s =? 0) = c /\
              madctl_data s =
                byte_of (Z.lor (index TFTRotations r)
                               (if c then TFTBGR else TFTRGB))).
  { intros s H. exists (rotate s), (rgb s =? 0). repeat split; lia. }
  destruct (C self Hr) as (r & c & Hcase & Er & Ec & Em).
  rewrite Em, Er, Ec.
  split; [|split; [|split]].
  - destruct Hcase as [-> | [-> | [-> | ->]]]; destruct c; reflexivity.
  - destruct Hcase as [-> | [-> | [-> | ->]]]; destruct c; reflexivity.
  - destruct Hcase as [-> | [-> | [-> | ->]]]; destruct c; vm_compute; split; congruence.
  - intros self' Hr' E.
    destruct (C self' Hr') as (r' & c' & Hcase' & Er' & Ec' & Em').
    rewrite Em' in E. rewrite Er', Ec'.
    destruct Hcase as [-> | [-> | [-> | ->]]]; destruct Hcase' as [-> | [-> | [-> | ->]]];
      destruct c, c'; vm_compute in E; try discriminate E; split; reflexivity.
Qed.

(** ** Construction *)

Lemma char_at_nul (b : Ascii.ascii) :
  (Z.of_N (Ascii.N_of_ascii b) =? 0) = Ascii.eqb b Ascii.zero.
Proof. destruct b as [[] [] [] [] [] [] [] []]; reflexivity. Qed.

Lemma c_str_idem (s : string) : c_str (c_str s) = c_str s.
Proof.
  induction s as [|a r IH]; [reflexivity|].
  cbn [c_str]. destruct (Ascii.eqb a Ascii.zero) eqn:A; [reflexivity|].
  cbn [c_str]. rewrite A, IH. reflexivity.
Qed.

(** The test on [tft_id[0]] and [tft_id[1]] reads the C string: what
    follows a NUL in the [str] object is not looked at. *)
Lemma skin_is_c_str (c : Z) (tft_id : string) :
  c <> 0x20 -> skin_is c (c_str tft_id) = skin_is c tft_id.
Proof.
  intros Hc. destruct tft_id as [|a [|b r]]; [reflexivity | |].
  - destruct a as [[] [] [] [] [] [] [] []]; reflexivity.
  - unfold skin_is, char_at. cbn [String.get c_str].
    rewrite char_at_nul.
    destruct (Ascii.eqb a Ascii.zero) eqn:A; cbn [String.get].
    + apply Ascii.eqb_eq in A. subst a.
      change (Z.lor (Z.of_N (Ascii.N_of_ascii Ascii.zero)) 32) with 32.
      change (Z.lor 0 32) with 32.
      destruct (Z.eqb_spec 32 c) as [E|_]; [congruence | reflexivity].
    + destruct (Ascii.eqb b Ascii.zero) eqn:B; cbn [String.get];
        [reflexivity | rewrite char_at_nul, B; reflexivity].
Qed.

Lemma skin_is_two (c : Z) (a b : Ascii.ascii) (r : string) :
  skin_is c (String a (String b r)) =
  (Z.lor (Z.of_N (Ascii.N_of_ascii a)) 0x20 =? c) && Ascii.eqb b Ascii.zero.
Proof.
  unfold skin_is, char_at. cbn [String.get]. rewrite char_at_nul. reflexivity.
Qed.

Lemma skin_is_x (tft_id : string) :
  skin_is 120 tft_id = true <->
  c_str tft_id = "x"%string \/ c_str tft_id = "X"%string.
Proof.
  rewrite <- skin_is_c_str by discriminate.
  destruct tft_id as [|a [|b r]]; cbn [c_str].
  - split; [discriminate | intros [H|H]; discriminate H].
  - destruct a as [[] [] [] [] [] [] [] []]; vm_compute;
      (split; [intros H; try discriminate H; auto
              | intros [H|H]; try discriminate H; reflexivity]).
  - destruct (Ascii.eqb b Ascii.zero) eqn:B.
    + destruct a as [[] [] [] [] [] [] [] []]; vm_compute;
        (split; [intros H; try discriminate H; auto
                | intros [H|H]; try discriminate H; reflexivity]).
    + destruct (Ascii.eqb a Ascii.zero);
        [|rewrite skin_is_two, B, andb_false_r];
        (split; [discriminate | intros [H|H]; discriminate H]).
Qed.

Lemma skin_is_y (tft_id : string) :
  skin_is 121 tft_id = true <->
  c_str tft_id = "y"%string \/ c_str tft_id = "Y"%string.
Proof.
  rewrite <- skin_is_c_str by discriminate.
  destruct tft_id as [|a [|b r]]; cbn [c_str].
  - split; [discriminate | intros [H|H]; discriminate H].
  - destruct a as [[] [] [] [] [] [] [] []]; vm_compute;
      (split; [intros H; try discriminate H; auto
              | intros [H|H]; try discriminate H; reflexivity]).
  - destruct (Ascii.eqb b Ascii.zero) eqn:B.
    + destruct a as [[] [] [] [] [] [] [] []]; vm_compute;
        (split; [intros H; try discriminate H; auto
                | intros [H|H]; try discriminate H; reflexivity]).
    + destruct (Ascii.eqb a Ascii.zero);
        [|rewrite skin_is_two, B, andb_false_r];
        (split; [discriminate | intros [H|H]; discriminate H]).
Qed.

Lemma skin_x_not_y (tft_id : string) :
  (c_str tft_id = "x" \/ c_str tft_id = "X")%string ->
  (c_str tft_id = "y" \/ c_str tft_id = "Y")%string -> False.
Proof. intros [-> | ->] [E|E]; discriminate E. Qed.

(** The cases of the constructor: the skin letter, then the two pins. *)
Ltac make_new_cases find tft_id dc rst :=
  let Hx := fresh "Hx" in
  let Hy := fresh "Hy" in
  pose proof (skin_is_x tft_id) as Hx; pose proof (skin_is_y tft_id) as Hy;
  pose proof (skin_x_not_y tft_id);
  unfold pyb_tft_make_new;
  destruct (skin_is 120 tft_id); destruct (skin_is 121 tft_id);
  destruct (find dc); destruct (find rst);
  destruct Hx, Hy.

(** X10: the skin position is read as a C string, the bytes of the
    [str] up to its first NUL, and what follows that NUL makes no
    difference: the constructor succeeds exactly when the C string is
    one of "x", "X", "y", "Y" and both pins are found; X takes SPI 1
    with chip select A4, Y takes SPI 2 with chip select B1; another
    skin raises the SPI bus error, which names the C string, whatever
    the pins, and a missing dc pin raises the dc pin error whatever
    the reset pin. *)
Theorem make_new_accepts (find : string -> option pin_obj_t)
    (tft_id dc rst : string) :
  let skin := c_str tft_id in
  ((exists tft t, pyb_tft_make_new find tft_id dc rst = inr (tft, t)) <->
   (skin = "x" \/ skin = "X" \/ skin = "y" \/ skin = "Y")%string /\
   find dc <> None /\ find rst <> None) /\
  (forall tft t,
     pyb_tft_make_new find tft_id dc rst = inr (tft, t) ->
     find dc = Some (pin_dc tft) /\ find rst = Some (pin_rst tft) /\
     ((skin = "x" \/ skin = "X")%string ->
      spi tft = SPIHandle1 /\ pin_cs tft = pin_A4) /\
     ((skin = "y" \/ skin = "Y")%string ->
      spi tft = SPIHandle2 /\ pin_cs tft = pin_B1) /\
     t = [GPIO_set_pin (pin_cs tft); GPIO_clear_pin (pin_dc tft); HAL_Delay 1]) /\
  (~ (skin = "x" \/ skin = "X" \/ skin = "y" \/ skin = "Y")%string ->
   pyb_tft_make_new find tft_id dc rst =
     inl (ValueError ("SPI bus '" ++ skin ++ "' does not exist"))) /\
  ((skin = "x" \/ skin = "X" \/ skin = "y" \/ skin = "Y")%string ->
   find dc = None ->
   pyb_tft_make_new find tft_id dc rst =
     inl (ValueError ("dc pin '" ++ c_str dc ++ "' does not exist"))) /\
  pyb_tft_make_new find skin dc rst = pyb_tft_make_new find tft_id dc rst.
Proof.
  intros skin. subst skin.
  split; [|split; [|split; [|split]]].
  - make_new_cases find tft_id dc rst; split;
      try (intros (tft & t & E); discriminate E);
      try (intros _; eexists; eexists; reflexivity);
      try (intros _; repeat split; try discriminate; tauto);
      try (intros (N & D & R); exfalso; try apply D; try apply R;
           try reflexivity; tauto).
  - intros tft t. make_new_cases find tft_id dc rst; intros E;
      try discriminate E; injection E as <- <-;
      repeat split; try reflexivity; simpl; intros; exfalso; tauto.
  - intros N. make_new_cases find tft_id dc rst; try reflexivity;
      exfalso; tauto.
  - intros N D. make_new_cases find tft_id dc rst; try reflexivity;
      try discriminate D; exfalso; tauto.
  - unfold pyb_tft_make_new.
    rewrite !skin_is_c_str, c_str_idem by discriminate. reflexivity.
Qed.

(** ** Packed colors *)

Lemma color_red_bits (r g b : Z) :
  0 <= r <= 255 -> 0 <= g <= 255 -> 0 <= b <= 255 ->
  Z.shiftr (tft_color r g b) 11 = Z.shiftr r 3.
Proof.
  intros Hr Hg Hb. unfold tft_color, TFT_COLOR.
  rewrite !Z.shiftr_lor, red_field, green_field, blue_field by assumption.
  rewrite !Z.lor_0_r. reflexivity.
Qed.

Lemma color_green_bits (r g b : Z) :
  0 <= r <= 255 -> 0 <= g <= 255 -> 0 <= b <= 255 ->
  Z.land (Z.shiftr (tft_color r g b) 5) 0x3F = Z.shiftr g 2.
Proof.
  intros Hr Hg Hb. unfold tft_color, TFT_COLOR.
  rewrite !Z.shiftr_lor, !Z.land_lor_distr_l.
  assert (R : Z.land (Z.shiftr (Z.shiftl (Z.land r 0xF8) 8) 5) 0x3F = 0).
  { apply Z.eqb_eq.
    apply (byte_cases
             (fun r => Z.land (Z.shiftr (Z.shiftl (Z.land r 0xF8) 8) 5) 0x3F =? 0));
      [vm_compute; reflexivity | exact Hr]. }
  assert (G : Z.land (Z.shiftr (Z.shiftl (Z.land g 0xFC) 3) 5) 0x3F = Z.shiftr g 2).
  { apply Z.eqb_eq.
    apply (byte_cases
             (fun g => Z.land (Z.shiftr (Z.shiftl (Z.land g 0xFC) 3) 5) 0x3F
                       =? Z.shiftr g 2));
      [vm_compute; reflexivity | exact Hg]. }
  assert (B : Z.land (Z.shiftr (Z.shiftr b 3) 5) 0x3F = 0).
  { apply Z.eqb_eq.
    apply (byte_cases (fun b => Z.land (Z.shiftr (Z.shiftr b 3) 5) 0x3F =? 0));
      [vm_compute; reflexivity | exact Hb]. }
  rewrite R, G, B. rewrite Z.lor_0_r. reflexivity.
Qed.

Lemma color_blue_bits (r g b : Z) :
  0 <= r <= 255 -> 0 <= g <= 255 -> 0 <= b <= 255 ->
  Z.land (tft_color r g b) 0x1F = Z.shiftr b 3.
Proof.
  intros Hr Hg Hb. unfold tft_color, TFT_COLOR.
  rewrite !Z.land_lor_distr_l.
  assert (R : Z.land (Z.shiftl (Z.land r 0xF8) 8) 0x1F = 0).
  { apply Z.eqb_eq.
    apply (byte_cases (fun r => Z.land (Z.shiftl (Z.land r 0xF8) 8) 0x1F =? 0));
      [vm_compute; reflexivity | exact Hr]. }
  assert (G : Z.land (Z.shiftl (Z.land g 0xFC) 3) 0x1F = 0).
  { apply Z.eqb_eq.
    apply (byte_cases (fun g => Z.land (Z.shiftl (Z.land g 0xFC) 3) 0x1F =? 0));
      [vm_compute; reflexivity | exact Hg]. }
  assert (B : Z.land (Z.shiftr b 3) 0x1F = Z.shiftr b 3).
  { apply Z.eqb_eq.
    apply (byte_cases (fun b => Z.land (Z.shiftr b 3) 0x1F =? Z.shiftr b 3));
      [vm_compute; reflexivity | exact Hb]. }
  rewrite R, G, B. reflexivity.
Qed.

Lemma color_from_fields (r g b : Z) :
  0 <= r <= 255 -> 0 <= g <= 255 ->
  tft_color r g b =
  Z.lor (Z.lor (Z.shiftl (Z.shiftr r 3) 11) (Z.shiftl (Z.shiftr g 2) 5))
        (Z.shiftr b 3).
Proof.
  intros Hr Hg. unfold tft_color, TFT_COLOR.
  assert (R : Z.shiftl (Z.land r 0xF8) 8 = Z.shiftl (Z.shiftr r 3) 11).
  { apply Z.eqb_eq.
    apply (byte_cases
             (fun r => Z.shiftl (Z.land r 0xF8) 8 =? Z.shiftl (Z.shiftr r 3) 11));
      [vm_compute; reflexivity | exact Hr]. }
  assert (G : Z.shiftl (Z.land g 0xFC) 3 = Z.shiftl (Z.shiftr g 2) 5).
  { apply Z.eqb_eq.
    apply (byte_cases
             (fun g => Z.shiftl (Z.land g 0xFC) 3 =? Z.shiftl (Z.shiftr g 2) 5));
      [vm_compute; reflexivity | exact Hg]. }
  rewrite R, G. reflexivity.
Qed.

(** X11: for byte channels, bits 5 to 10 of [color(r, g, b)] are
    [g >> 2] and bits 0 to 4 are [b >> 3]; two triples give the same
    color exactly when they agree on [r >> 3], [g >> 2] and
    [b >> 3]. *)
Theorem tft_color_fields (r g b r' g' b' : Z) :
  0 <= r <= 255 -> 0 <= g <= 255 -> 0 <= b <= 255 ->
  0 <= r' <= 255 -> 0 <= g' <= 255 -> 0 <= b' <= 255 ->
  Z.land (Z.shiftr (tft_color r g b) 5) 0x3F = Z.shiftr g 2 /\
  Z.land (tft_color r g b) 0x1F = Z.shiftr b 3 /\
  (tft_color r g b = tft_color r' g' b' <->
   Z.shiftr r 3 = Z.shiftr r' 3 /\ Z.shiftr g 2 = Z.shiftr g' 2 /\
   Z.shiftr b 3 = Z.shiftr b' 3).
Proof.
  intros Hr Hg Hb Hr' Hg' Hb'.
  split; [apply color_green_bits; assumption|].
  split; [apply color_blue_bits; assumption|].
  split.
  - intros E.
    pose proof (color_red_bits r g b Hr Hg Hb) as R.
    pose proof (color_red_bits r' g' b' Hr' Hg' Hb') as R'.
    pose proof (color_green_bits r g b Hr Hg Hb) as G.
    pose proof (color_green_bits r' g' b' Hr' Hg' Hb') as G'.
    pose proof (color_blue_bits r g b Hr Hg Hb) as B.
    pose proof (color_blue_bits r' g' b' Hr' Hg' Hb') as B'.
    rewrite E in R, G, B. repeat split; congruence.
  - intros (R & G & B). rewrite !color_from_fields by assumption.
    rewrite R, G, B. reflexivity.
Qed.

(** ** Windows and color runs *)

(** A trace whose reading does not depend on the line levels it starts
    from reads the same after any other trace. *)
Lemma decode_app_indep (self : pyb_tft_obj_t) (t1 t2 : list event)
    (d2 : list bus_byte) :
  (forall cs dc, decode self cs dc t2 = d2) ->
  forall cs dc, decode self cs dc (t1 ++ t2) = decode self cs dc t1 ++ d2.
Proof.
  intros H2. induction t1 as [|e t1 IH]; intros cs dc.
  - apply H2.
  - destruct e; simpl; try apply IH.
    destruct cs; [apply IH | rewrite IH; reflexivity].
Qed.

Lemma decode_setwindowloc (self : pyb_tft_obj_t) (sx sy ex ey : Z) (cs dc : bool) :
  wired self ->
  decode self cs dc (trace (_setwindowloc sx sy ex ey) self) =
  window_bytes (sx, sy, ex, ey).
Proof. intros W. run_trace. run_decode W. reflexivity. Qed.

Lemma decode_draw (self : pyb_tft_obj_t) (numPixels color : Z) (cs dc : bool) :
  wired self ->
  decode self cs dc (trace (_draw numPixels color) self) =
  color_run color numPixels.
Proof.
  intros W. rewrite trace_draw.
  rewrite (decode_clear_cs _ W), (decode_set_dc _ W), decode_color_run.
  rewrite (decode_set_cs _ W), decode_nil, app_nil_r.
  unfold color_run, byte_of. rewrite Z.shiftr_div_pow2 by lia. reflexivity.
Qed.

Lemma decode_window_then_draw (self : pyb_tft_obj_t) (w : Z * Z * Z * Z)
    (n color : Z) (cs dc : bool) :
  wired self ->
  decode self cs dc
    ((let '(sx, sy, ex, ey) := w in trace (_setwindowloc sx sy ex ey) self) ++
     trace (_draw n color) self) =
  window_bytes w ++ color_run color n.
Proof.
  intros W. destruct w as [[[sx sy] ex] ey].
  rewrite (decode_app_indep self _ _ (color_run color n))
    by (intros; apply decode_draw, W).
  rewrite decode_setwindowloc by exact W. reflexivity.
Qed.

Lemma fillrect_trace (pos size : Z * Z) (color : Z) (self : pyb_tft_obj_t) :
  trace (pyb_tft_fillrect pos size color) self =
  (let '(sx, sy, ex, ey) := fillrect_window self pos size in
   trace (_setwindowloc sx sy ex ey) self) ++
  trace (_draw (int_of (window_pixels (fillrect_window self pos size))) color) self.
Proof.
  unfold pyb_tft_fillrect. rewrite trace_bind.
  change (value get self) with self. change (obj_after get self) with self.
  cbv beta. destruct (fillrect_window self pos size) as [[[sx sy] ex] ey].
  rewrite trace_bind, readonly_setwindowloc. reflexivity.
Qed.

(** X12: [fillrect] streams exactly as many colors as its window has
    pixels, at least one, for every position and size, the window
    being the clamped and ordered one. *)
Theorem fillrect_fills_its_window (self : pyb_tft_obj_t) (pos size : Z * Z)
    (color : Z) (cs dc : bool) :
  wired self ->
  0 <= size0 self -> 0 <= size1 self ->
  (size0 self + 1) * (size1 self + 1) <= INT_MAX ->
  let w := fillrect_window self pos size in
  decode self cs dc (trace (pyb_tft_fillrect pos size color) self) =
    window_bytes w ++ color_run color (window_pixels w) /\
  1 <= window_pixels w <= (size0 self + 1) * (size1 self + 1).
Proof.
  intros W H0 H1 Hfit w.
  pose proof (fillrect_window_range self pos size H0 H1) as R.
  fold w in R.
  assert (P : 1 <= window_pixels w <= (size0 self + 1) * (size1 self + 1)).
  { destruct w as [[[sx sy] ex] ey]. unfold window_pixels. nia. }
  split; [|exact P].
  rewrite fillrect_trace. fold w.
  rewrite decode_window_then_draw by exact W.
  rewrite int_of_small; [reflexivity|].
  unfold is_int, INT_MIN, INT_MAX in *. lia.
Qed.

Lemma fill_trace (color : option Z) (self : pyb_tft_obj_t) :
  trace (pyb_tft_fill color) self =
  trace (_setwindowloc 0 0 (int_of (size0 self - 1)) (int_of (size1 self - 1))) self ++
  trace (_draw (int_of (size0 self * size1 self))
               (match color with Some c => c | None => 0 end)) self.
Proof.
  unfold pyb_tft_fill. rewrite trace_bind.
  change (value get self) with self. change (obj_after get self) with self.
  cbv beta zeta. rewrite trace_bind, readonly_setwindowloc. reflexivity.
Qed.

(** X13: [fill] programs the window (0, 0, width - 1, height - 1) and
    streams width * height colors, the pixels of that window; with no
    argument the color is 0. *)
Theorem fill_covers_display (self : pyb_tft_obj_t) (color : option Z)
    (cs dc : bool) :
  wired self ->
  1 <= size0 self <= 256 -> 1 <= size1 self <= 256 ->
  let w := (0, 0, size0 self - 1, size1 self - 1) in
  decode self cs dc (trace (pyb_tft_fill color) self) =
    window_bytes w ++
    color_run (match color with Some c => c | None => 0 end)
              (size0 self * size1 self) /\
  window_pixels w = size0 self * size1 self /\
  window_bytes w =
    [Cmd 0x2A; Dat 0; Dat 0; Dat 0; Dat (size0 self - 1);
     Cmd 0x2B; Dat 0; Dat 0; Dat 0; Dat (size1 self - 1); Cmd 0x2C].
Proof.
  intros W H0 H1 w. split; [|split].
  - rewrite fill_trace.
    rewrite !int_of_small by (unfold is_int, INT_MIN, INT_MAX; nia).
    apply (decode_window_then_draw self w); exact W.
  - unfold w, window_pixels. lia.
  - unfold w, window_bytes. rewrite !Z.mod_small by lia. reflexivity.
Qed.

(** X14: [hline] and [vline] make the display receive their clamped
    window, then [len] colors; with [len <= 0] the window is programmed
    and no color follows. *)
Theorem line_streams_len (self : pyb_tft_obj_t) (pos : Z * Z) (len color : Z)
    (cs dc : bool) :
  wired self ->
  decode self cs dc (trace (pyb_tft_hline pos len color) self) =
    window_bytes (hline_window self pos len) ++ color_run color len /\
  decode self cs dc (trace (pyb_tft_vline pos len color) self) =
    window_bytes (vline_window self pos len) ++ color_run color len /\
  (len <= 0 -> color_run color len = []).
Proof.
  intros W. split; [|split].
  - rewrite hline_trace. apply decode_window_then_draw, W.
  - rewrite vline_trace. apply decode_window_then_draw, W.
  - intros Hl. unfold color_run. replace (Z.to_nat len) with 0%nat by lia.
    reflexivity.
Qed.

(** ** Lines *)

(** X15: a horizontal or vertical [line] does not depend on the order
    of its end points. *)
Theorem line_axis_symmetric (p q : Z * Z) (color : Z) :
  fst p = fst q \/ snd p = snd q ->
  - INT_MAX <= fst q - fst p <= INT_MAX ->
  - INT_MAX <= snd q - snd p <= INT_MAX ->
  pyb_tft_line p q color = pyb_tft_line q p color.
Proof.
  destruct p as [px py], q as [ex ey]. simpl fst. simpl snd.
  intros Hax Hx Hy. unfold pyb_tft_line. simpl fst. simpl snd.
  unfold INT_MAX in *.
  rewrite (Z.eqb_sym ex px), (Z.eqb_sym ey py).
  assert (Iy : int_of (ey - py) = ey - py)
    by (apply int_of_small; unfold is_int, INT_MIN, INT_MAX; lia).
  assert (Iy' : int_of (py - ey) = py - ey)
    by (apply int_of_small; unfold is_int, INT_MIN, INT_MAX; lia).
  assert (Ix : int_of (ex - px) = ex - px)
    by (apply int_of_small; unfold is_int, INT_MIN, INT_MAX; lia).
  assert (Ix' : int_of (px - ex) = px - ex)
    by (apply int_of_small; unfold is_int, INT_MIN, INT_MAX; lia).
  rewrite Iy, Iy', Ix, Ix'.
  destruct (Z.eqb_spec px ex) as [Ex|Nx].
  - subst ex.
    destruct (Z.ltb_spec (ey - py) 0), (Z.ltb_spec (py - ey) 0); try lia.
    + f_equal. f_equal. lia.
    + f_equal. f_equal. lia.
    + assert (ey = py) by lia. subst ey. reflexivity.
  - destruct (Z.eqb_spec py ey) as [Ey|Ny]; [|tauto].
    subst ey.
    destruct (Z.ltb_spec (ex - px) 0), (Z.ltb_spec (px - ex) 0); try lia.
    + f_equal. f_equal. lia.
    + f_equal. f_equal. lia.
Qed.






(** X17: for all [int] end points the Bresenham loops of [line] leave
    through their condition within [|dx|] or [|dy|] turns, and [line]
    leaves the object as it found it. *)
Theorem line_terminates (start end_ : Z * Z) (color : Z) (self : pyb_tft_obj_t) :
  is_int (fst start) -> is_int (snd start) ->
  is_int (fst end_) -> is_int (snd end_) ->
  value (line_bresenham (fst start) (snd start) (fst end_) (snd end_) color)
        self = true /\
  obj_after (pyb_tft_line start end_ color) self = self.
Proof.
  intros H1 H2 H3 H4. split.
  - apply line_bresenham_exits; assumption.
  - apply readonly_line.
Qed.

(** ** Text *)

Lemma text_loop_no_glyph (self : pyb_tft_obj_t) (data : list Z) (x px y : Z)
    (colorA : list Z) (font : tft_font_data) (sx sy width height : Z) :
  Forall (fun c => c < font_start font \/ font_end font < c) data ->
  trace (text_loop data x px y colorA font sx sy width height) self = [].
Proof.
  intros H. revert px y.
  induction H as [|c data Hc _ IH]; intros px y; [reflexivity|].
  rewrite text_loop_cons. unfold trace at 1.
  rewrite drawchar_outside_font by exact Hc. simpl.
  unfold text_rest. destruct (text_advance _ _ _ _ _ _) as [[px' y']|].
  - apply IH.
  - reflexivity.
Qed.

(** X18: a string with no character inside the range of the font,
    the built-in one (32..127) or a given one, puts nothing on the
    bus, whatever its length and the size argument. *)
Theorem text_without_glyphs (table : list Z) (pos : Z * Z) (data : list Z)
    (color : Z) (font : tft_font_data) (size : text_size)
    (self : pyb_tft_obj_t) :
  (Forall (fun c => c < 32 \/ 127 < c) data ->
   trace (pyb_tft_text table pos data color None size) self = []) /\
  (Forall (fun c => c < uint_of (font_start font) \/
                    uint_of (font_end font) < c) data ->
   trace (pyb_tft_text table pos data color (Some font) size) self = []).
Proof.
  split; intros H; unfold pyb_tft_text; destruct size;
    apply text_loop_no_glyph; exact H.
Qed.

(** ** Circles *)

(** X19: [fillcircle] with a radius of 0 or less puts nothing on the
    bus.  [circle] puts nothing on the bus when the [int] product
    [rad * 724] is negative, which it is for every negative radius
    from -2966137 up, the radii whose product fits an [int] (below
    -2966137 the product overflows).  [circle] with radius 0 calls
    [_pixel] eight times at the centre. *)
Theorem circle_small_radius (sqrtf_int : Z -> Z -> Z) (pos : Z * Z)
    (rad color : Z) (self : pyb_tft_obj_t) :
  (rad <= 0 ->
   pyb_tft_fillcircle sqrtf_int pos rad color self = (tt, self, [])) /\
  (int_of (rad * 724) < 0 ->
   pyb_tft_circle sqrtf_int pos rad color self = (tt, self, [])) /\
  (-2966137 <= rad < 0 ->
   is_int (rad * 724) /\ ~ is_int ((-2966137 - 1) * 724) /\
   pyb_tft_circle sqrtf_int pos rad color self = (tt, self, [])) /\
  (rad = 0 -> sqrtf_int 0 0 = 0 -> is_int (fst pos) -> is_int (snd pos) ->
   trace (pyb_tft_circle sqrtf_int pos rad color) self =
     List.concat
       (repeat (trace (_pixel (fst pos) (snd pos) (color_bytes color)) self) 8)).
Proof.
  assert (N : int_of (rad * 724) < 0 ->
              pyb_tft_circle sqrtf_int pos rad color self = (tt, self, [])).
  { intros H. unfold pyb_tft_circle. cbv zeta.
    assert (E : Z.to_nat (int_of (Z.shiftr (int_of (rad * 724)) 10 + 1)) = 0%nat).
    { pose proof (int_of_is_int (rad * 724)) as R.
      unfold is_int, INT_MIN, INT_MAX in R.
      rewrite Z.shiftr_div_pow2 by lia. change (2 ^ 10) with 1024.
      assert (int_of (rad * 724) / 1024 < 0)
        by (apply Z.div_lt_upper_bound; lia).
      assert (-2147483648 <= int_of (rad * 724) / 1024)
        by (apply Z.div_le_lower_bound; lia).
      rewrite int_of_small by (unfold is_int, INT_MIN, INT_MAX; lia). lia. }
    rewrite E. reflexivity. }
  split; [|split; [|split]].
  - intros H. unfold pyb_tft_fillcircle.
    replace (Z.to_nat rad) with 0%nat by lia. reflexivity.
  - exact N.
  - intros H.
    assert (I : is_int (rad * 724)) by (unfold is_int, INT_MIN, INT_MAX; lia).
    split; [exact I|split].
    + unfold is_int, INT_MIN, INT_MAX. lia.
    + apply N. rewrite int_of_small by exact I. lia.
  - intros -> S0 Hx Hy. unfold pyb_tft_circle. cbv zeta.
    change (Z.to_nat (int_of (Z.shiftr (int_of (0 * 724)) 10 + 1))) with 1%nat.
    simpl for_loop. rewrite S0.
    rewrite !Z.add_0_r, !Z.sub_0_r, !(int_of_small (fst pos)),
      !(int_of_small (snd pos)) by assumption.
    rewrite !trace_bind, !readonly_pixel. simpl List.concat.
    change (trace (ret tt) self) with (@nil event).
    rewrite <- ?app_assoc, ?app_nil_r. reflexivity.
Qed.

(** ** The three initializations *)

Lemma frames_initg (self : pyb_tft_obj_t) :
  wired self ->
  frames pyb_tft_initg self =
  [ (ST_SWRESET, []); (ST_SLPOUT, []);
    (ST_FRMCTR1, [0x01; 0x2c; 0x2d]);
    (ST_FRMCTR2, [0x01; 0x2c; 0x2d]);
    (ST_FRMCTR3, [0x01; 0x2c; 0x2d; 0x01; 0x2c; 0x2d]);
    (ST_INVCTR, [0x07]);
    (ST_PWCTR1, [0xA2; 0x02; 0x84]);
    (ST_PWCTR2, [0xC5]);
    (ST_PWCTR3, [0x0A; 0x00]);
    (ST_PWCTR4, [0x8A; 0x2A]);
    (ST_PWCTR5, [0x8A; 0xEE]);
    (ST_VMCTR1, [0x0E]);
    (ST_INVOFF, []);
    (ST_MADCTL, [madctl_data self]);
    (ST_COLMOD, [0x05]);
    (ST_CASET, [0x00; 0x01; 0x00; byte_of (int_of (size0 self - 1))]);
    (ST_RASET, [0x00; 0x01; 0x00; byte_of (int_of (size1 self - 1))]);
    (ST_GMCTRP1, [0x02; 0x1c; 0x07; 0x12; 0x37; 0x32; 0x29; 0x2d; 0x29;
                  0x25; 0x2b; 0x39; 0x00; 0x01; 0x03; 0x10]);
    (ST_GMCTRN1, [0x03; 0x1d; 0x07; 0x06; 0x2e; 0x2c; 0x29; 0x2d; 0x2e;
                  0x2e; 0x37; 0x3f; 0x00; 0x00; 0x02; 0x10]);
    (ST_NORON, []); (ST_DISPON, []) ].
Proof. intros W. run_frames W. reflexivity. Qed.

Lemma frames_initb (self : pyb_tft_obj_t) :
  wired self ->
  frames pyb_tft_initb self =
  [ (ST_SWRESET, []); (ST_SLPOUT, []);
    (ST_COLMOD, [0x05]);
    (ST_FRMCTR1, [0x00; 0x06; 0x03]);
    (ST_MADCTL, [madctl_data self]);
    (ST_DISSET5, [0x15; 0x02]);
    (ST_INVCTR, [0x00]);
    (ST_PWCTR1, [0x02; 0x70]);
    (ST_PWCTR2, [0x05]);
    (ST_PWCTR3, [0x01; 0x02]);
    (ST_VMCTR1, [0x3C; 0x38]);
    (ST_PWCTR6, [0x11; 0x15]);
    (ST_GMCTRP1, [0x02; 0x1c; 0x07; 0x12; 0x37; 0x32; 0x29; 0x2d; 0x29;
                  0x25; 0x2b; 0x39; 0x00; 0x01; 0x03; 0x10]);
    (ST_GMCTRN1, [0x03; 0x1d; 0x07; 0x06; 0x2e; 0x2c; 0x29; 0x2d; 0x2e;
                  0x2e; 0x37; 0x3f; 0x00; 0x00; 0x02; 0x10]);
    (ST_CASET, [0x00; 0x02; 0x00; byte_of (int_of (size0 self - 1))]);
    (ST_RASET, [0x00; 0x02; 0x01; byte_of (int_of (size1 self - 1))]);
    (ST_NORON, []); (ST_RAMWR, []); (ST_DISPON, []) ].
Proof. intros W. run_frames W. reflexivity. Qed.

(** X20: the green and blue tab initializations leave the object as
    they found it and write MADCTL with the byte of the state; the
    column range starts at 1 (green) and 2 (blue), the row range
    payload is [0, 1, 0, h-1] (green) and [0, 2, 1, h-1] (blue); the
    three initializations wait 1780, 1515 and 2180 ms. *)
Theorem init_variants (self : pyb_tft_obj_t) :
  wired self ->
  (obj_after pyb_tft_initg self = self /\ obj_after pyb_tft_initb self = self) /\
  (last_write ST_MADCTL (frames pyb_tft_initg self) = Some [madctl_data self] /\
   last_write ST_MADCTL (frames pyb_tft_initb self) = Some [madctl_data self]) /\
  (last_write ST_CASET (frames pyb_tft_initg self) =
     Some [0; 1; 0; byte_of (int_of (size0 self - 1))] /\
   last_write ST_RASET (frames pyb_tft_initg self) =
     Some [0; 1; 0; byte_of (int_of (size1 self - 1))]) /\
  (last_write ST_CASET (frames pyb_tft_initb self) =
     Some [0; 2; 0; byte_of (int_of (size0 self - 1))] /\
   last_write ST_RASET (frames pyb_tft_initb self) =
     Some [0; 2; 1; byte_of (int_of (size1 self - 1))]) /\
  (delays (trace pyb_tft_initr self) = 1780 /\
   delays (trace pyb_tft_initg self) = 1515 /\
   delays (trace pyb_tft_initb self) = 2180).
Proof.
  intros W.
  split; [split; [apply readonly_initg | apply readonly_initb]|].
  rewrite (frames_initg self W), (frames_initb self W).
  split; [split; reflexivity|].
  split; [split; reflexivity|].
  split; [split; reflexivity|].
  repeat split; run_trace; reflexivity.
Qed.

(** ** Clamping *)

(** X22: for [min <= max], [_clamp] gives a value between the two,
    leaves a value that is between them, is idempotent and monotone,
    and is [max(min, min(max, v))]. *)
Theorem clamp_properties (min max v v' : Z) :
  min <= max ->
  min <= _clamp min max v <= max /\
  (min <= v <= max -> _clamp min max v = v) /\
  _clamp min max (_clamp min max v) = _clamp min max v /\
  (v <= v' -> _clamp min max v <= _clamp min max v') /\
  _clamp min max v = Z.max min (Z.min max v).
Proof.
  intros H. unfold _clamp.
  repeat match goal with
         | |- context [?a <? ?b] => destruct (Z.ltb_spec a b)
         | |- context [?a >? ?b] => destruct (Z.gtb_spec a b)
         end; lia.
Qed.

(** ** Rectangles *)

Lemma decode_hline (self : pyb_tft_obj_t) (pos : Z * Z) (len color : Z)
    (cs dc : bool) :
  wired self ->
  decode self cs dc (trace (pyb_tft_hline pos len color) self) =
  window_bytes (hline_window self pos len) ++ color_run color len.
Proof. intros W. rewrite hline_trace. apply decode_window_then_draw, W. Qed.

Lemma decode_vline (self : pyb_tft_obj_t) (pos : Z * Z) (len color : Z)
    (cs dc : bool) :
  wired self ->
  decode self cs dc (trace (pyb_tft_vline pos len color) self) =
  window_bytes (vline_window self pos len) ++ color_run color len.
Proof. intros W. rewrite vline_trace. apply decode_window_then_draw, W. Qed.

(** X21: [rect] is four lines on the bus, in this order: the bottom
    and the top [hline] of length [size.x], then the left and the
    right [vline] of length [size.y]. *)
Theorem rect_is_four_lines (self : pyb_tft_obj_t) (pos size : Z * Z)
    (color : Z) (cs dc : bool) :
  wired self ->
  let bottom := (fst pos, int_of (snd pos + snd size - 1)) in
  let right := (int_of (fst pos + fst size - 1), snd pos) in
  decode self cs dc (trace (pyb_tft_rect pos size color) self) =
    (window_bytes (hline_window self bottom (fst size)) ++
     color_run color (fst size)) ++
    (window_bytes (hline_window self pos (fst size)) ++
     color_run color (fst size)) ++
    (window_bytes (vline_window self pos (snd size)) ++
     color_run color (snd size)) ++
    (window_bytes (vline_window self right (snd size)) ++
     color_run color (snd size)).
Proof.
  intros W bottom right. unfold pyb_tft_rect. cbv zeta. fold bottom right.
  rewrite trace_bind, readonly_hline.
  rewrite (trace_bind (pyb_tft_hline pos (fst size) color)), readonly_hline.
  rewrite (trace_bind (pyb_tft_vline pos (snd size) color)), readonly_vline.
  rewrite !app_assoc.
  rewrite (decode_app_indep self _ _ _ (fun cs' dc' =>
             decode_vline self right (snd size) color cs' dc' W)).
  rewrite (decode_app_indep self _ _ _ (fun cs' dc' =>
             decode_vline self pos (snd size) color cs' dc' W)).
  rewrite (decode_app_indep self _ _ _ (fun cs' dc' =>
             decode_hline self pos (fst size) color cs' dc' W)).
  rewrite decode_hline by exact W.
  rewrite <- !app_assoc. reflexivity.
Qed.

(** ** Glyphs *)

Lemma lit_rows_S (n : nat) (c : Z) :
  lit_rows (S n) c =
  ((if (Z.land c 0x01 =? 0)%Z then 0 else 1) + lit_rows n (Z.shiftr c 1))%nat.
Proof.
  unfold lit_rows. cbn [seq filter].
  assert (B : Z.testbit c (Z.of_nat 0) = negb (Z.land c 1 =? 0)).
  { rewrite land_1_mod2, <- Z.bit0_mod. simpl Z.of_nat.
    destruct (Z.testbit c 0); reflexivity. }
  assert (T : List.length (filter (fun k => Z.testbit c (Z.of_nat k)) (seq 1 n)) =
              List.length (filter (fun k => Z.testbit (Z.shiftr c 1) (Z.of_nat k))
                                  (seq 0 n))).
  { rewrite <- seq_shift. generalize (seq 0 n) as l.
    induction l as [|k l IH]; [reflexivity|].
    cbn [map filter]. rewrite Z.shiftr_spec by lia.
    replace (Z.of_nat k + 1) with (Z.of_nat (S k)) by lia.
    destruct (Z.testbit c (Z.of_nat (S k))); cbn [List.length]; rewrite IH;
      reflexivity. }
  rewrite B. destruct (Z.land c 1 =? 0); cbn [negb List.length]; rewrite T;
    reflexivity.
Qed.

Lemma list_sum_cons (a : nat) (l : list nat) :
  list_sum (a :: l) = (a + list_sum l)%nat.
Proof. reflexivity. Qed.

Lemma transmits_setwindowloc (sx sy ex ey : Z) (self : pyb_tft_obj_t) :
  transmits (trace (_setwindowloc sx sy ex ey) self) = 11%nat.
Proof. run_trace. reflexivity. Qed.

Lemma transmits_pixel (x y : Z) (colorA : list Z) (self : pyb_tft_obj_t) :
  (transmits (trace (_pixel x y colorA) self) <= 13)%nat.
Proof.
  unfold _pixel. rewrite trace_bind.
  change (value get self) with self. change (obj_after get self) with self.
  cbv beta. destruct (_ && _).
  - rewrite trace_bind, readonly_setwindowloc, !transmits_app,
      transmits_setwindowloc.
    change (transmits (trace get self)) with 0%nat.
    assert (transmits (trace (_writedata colorA 2) self) = 2%nat)
      by (run_trace; reflexivity).
    lia.
  - simpl. lia.
Qed.

Lemma transmits_rows1 (n : nat) (x cy c : Z) (colorA : list Z)
    (self : pyb_tft_obj_t) :
  (transmits (trace (drawchar_rows1 n x cy c colorA) self) <= lit_rows n c * 13)%nat.
Proof.
  revert cy c. induction n as [|n IH]; intros cy c; [simpl; lia|].
  simpl drawchar_rows1. rewrite lit_rows_S.
  specialize (IH (int_of (cy + 1)) (Z.shiftr c 1)).
  destruct (Z.land c 1 =? 0); simpl negb; cbv iota.
  - rewrite trace_bind, transmits_app.
    change (obj_after (ret tt) self) with self.
    change (transmits (trace (ret tt) self)) with 0%nat. lia.
  - rewrite trace_bind, transmits_app, readonly_pixel.
    pose proof (transmits_pixel x cy colorA self). lia.
Qed.

Lemma transmits_rowsN (n : nat) (x cy c : Z) (colorA : list Z)
    (sx sy numPixels : Z) (self : pyb_tft_obj_t) :
  transmits (trace (drawchar_rowsN n x cy c colorA sx sy numPixels) self) =
  (lit_rows n c * (11 + 2 * Z.to_nat numPixels))%nat.
Proof.
  revert cy c. induction n as [|n IH]; intros cy c; [reflexivity|].
  simpl drawchar_rowsN. rewrite lit_rows_S.
  specialize (IH (int_of (cy + sy)) (Z.shiftr c 1)).
  destruct (Z.land c 1 =? 0); simpl negb; cbv iota.
  - rewrite trace_bind, transmits_app.
    change (obj_after (ret tt) self) with self.
    change (transmits (trace (ret tt) self)) with 0%nat. lia.
  - rewrite trace_bind, transmits_app.
    match goal with
    | |- context [obj_after ?m self] =>
        replace (obj_after m self) with self
          by (symmetry; assert (R : readonly m) by readonly_tac; apply R)
    end.
    rewrite IH.
    rewrite trace_bind.
    change (value get self) with self. change (obj_after get self) with self.
    cbv beta.
    rewrite trace_bind, readonly_setwindowloc, !transmits_app,
      transmits_setwindowloc.
    change (transmits (trace get self)) with 0%nat.
    rewrite trace_bind, transmits_app.
    change (obj_after (emit (GPIO_clear_pin (pin_cs self))) self) with self.
    rewrite trace_bind, transmits_app.
    change (obj_after (emit (GPIO_set_pin (pin_dc self))) self) with self.
    rewrite trace_bind, transmits_app.
    rewrite (transmits_for_loop _ 2);
      [ | intros j; readonly_tac | reflexivity ].
    simpl transmits. lia.
Qed.

Lemma transmits_cols1 (n : nat) (charA x y : Z) (colorA : list Z)
    (font : tft_font_data) (self : pyb_tft_obj_t) :
  (transmits (trace (drawchar_cols1 n charA x y colorA font) self) <=
   list_sum
     (map (fun i => lit_rows (Z.to_nat (font_height font))
                      (byte_of (index (font_data font) (charA + Z.of_nat i))))
          (seq 0 n)) * 13)%nat.
Proof.
  revert charA x. induction n as [|n IH]; intros charA x; [simpl; lia|].
  simpl drawchar_cols1. cbn [seq map list_sum].
  rewrite trace_bind, transmits_app, readonly_drawchar_rows1.
  specialize (IH (charA + 1) (int_of (x + 1))).
  rewrite <- seq_shift, map_map.
  rewrite (map_ext _ (fun i => lit_rows (Z.to_nat (font_height font))
             (byte_of (index (font_data font) (charA + 1 + Z.of_nat i)))))
    by (intros i; do 3 f_equal; lia).
  rewrite Z.add_0_r.
  pose proof (transmits_rows1 (Z.to_nat (font_height font)) x y
                (byte_of (index (font_data font) charA)) colorA self).
  rewrite list_sum_cons. lia.
Qed.

Lemma transmits_colsN (n : nat) (charA x y : Z) (colorA : list Z)
    (font : tft_font_data) (sx sy numPixels : Z) (self : pyb_tft_obj_t) :
  transmits (trace (drawchar_colsN n charA x y colorA font sx sy numPixels) self) =
  (list_sum
     (map (fun i => lit_rows (Z.to_nat (font_height font))
                      (byte_of (index (font_data font) (charA + Z.of_nat i))))
          (seq 0 n)) * (11 + 2 * Z.to_nat numPixels))%nat.
Proof.
  revert charA x. induction n as [|n IH]; intros charA x; [reflexivity|].
  simpl drawchar_colsN. cbn [seq map].
  rewrite trace_bind, transmits_app, readonly_drawchar_rowsN, transmits_rowsN.
  rewrite <- seq_shift, map_map.
  rewrite (map_ext _ (fun i => lit_rows (Z.to_nat (font_height font))
             (byte_of (index (font_data font) (charA + 1 + Z.of_nat i)))))
    by (intros i; do 3 f_equal; lia).
  rewrite Z.add_0_r, list_sum_cons, Nat.mul_add_distr_r.
  rewrite (IH (charA + 1) (int_of (x + sx))). reflexivity.
Qed.

(** X23: for a character of the font, [_drawchar] at a scale above 1
    puts on the bus one window and [sx * sy] colors per lit pixel of
    the glyph, with no clipping; at scale 1 it puts at most 13 bytes
    per lit pixel. *)
Theorem drawchar_cost (self : pyb_tft_obj_t) (x y ci : Z) (colorA : list Z)
    (font : tft_font_data) (sx sy : Z) :
  font_start font <= ci <= font_end font ->
  let charA := uint_of (uint_of (ci - font_start font) * font_width font) in
  (1 < sx \/ 1 < sy ->
   transmits (trace (_drawchar x y ci colorA font sx sy) self) =
     (lit_glyph font charA * (11 + 2 * Z.to_nat (uint_of (sx * sy))))%nat) /\
  (sx <= 1 /\ sy <= 1 ->
   (transmits (trace (_drawchar x y ci colorA font sx sy) self) <=
      lit_glyph font charA * 13)%nat).
Proof.
  intros Hci charA. unfold _drawchar.
  replace ((font_start font <=? ci) && (ci <=? font_end font)) with true
    by (symmetry; rewrite andb_true_iff, !Z.leb_le; lia).
  fold charA. split.
  - intros Hs.
    replace ((sx <=? 1) && (sy <=? 1)) with false
      by (symmetry; rewrite andb_false_iff, !Z.leb_gt; lia).
    apply transmits_colsN.
  - intros [Hx Hy].
    replace ((sx <=? 1) && (sy <=? 1)) with true
      by (symmetry; rewrite andb_true_iff, !Z.leb_le; lia).
    apply transmits_cols1.
Qed.

(** ** The further properties at concrete inputs *)

Lemma writedata_reaches_display_witness :
  decode tft_X true false (trace (_writedata [1; 2; 3] 2) tft_X) =
    [Dat 1; Dat 2] /\
  decode tft_X true false (trace (pyb_tft_data [1; 2; 3]) tft_X) =
    [Dat 1; Dat 2; Dat 3].
Proof.
  apply (writedata_reaches_display tft_X [1; 2; 3] 2 true false wired_tft_X).
  simpl. lia.
Defined.

Lemma command_is_one_byte_witness :
  decode tft_X true false (trace (pyb_tft_command 0x129) tft_X) = [Cmd 0x29] /\
  decode tft_X true false (trace (pyb_tft_on true) tft_X) = [Cmd 0x29] /\
  decode tft_X true false (trace (pyb_tft_invertcolor true) tft_X) = [Cmd 0x21].
Proof.
  exact (command_is_one_byte tft_X 0x129 true true false wired_tft_X).
Defined.

Lemma setwindowloc_bytes_witness :
  decode tft_X true false (trace (_setwindowloc 5 7 261 8) tft_X) =
    [Cmd 0x2A; Dat 0; Dat 5; Dat 0; Dat 5;
     Cmd 0x2B; Dat 0; Dat 7; Dat 0; Dat 8; Cmd 0x2C].
Proof.
  exact (proj1 (setwindowloc_bytes tft_X 5 7 261 8 true false wired_tft_X)).
Defined.

Lemma draw_streams_color_witness :
  decode tft_X true false (trace (_draw 2 0xF81F) tft_X) =
    [Dat 0xF8; Dat 0x1F; Dat 0xF8; Dat 0x1F] /\
  0xF8 * 256 + 0x1F = 0xF81F.
Proof.
  destruct (draw_streams_color tft_X 2 0xF81F true false wired_tft_X)
    as (H1 & _ & H3).
  split; [exact H1|]. apply H3. lia.
Defined.

Lemma chip_select_discipline_witness :
  select_check pin_A4 true
    (trace (calls [] (fun _ _ => 0)
              [call_initr; call_rotation 1; call_fill None;
               call_text (0, 0) [72; 105] 0xFFFF None (SizeInt 2);
               call_line (0, 0) (4, 4) 0])
           tft_X) = Some true.
Proof.
  apply (chip_select_discipline [] (fun _ _ => 0) _ tft_X). exact wired_tft_X.
Defined.

Lemma size_follows_rotation_witness :
  let self :=
    obj_after (calls [] (fun _ _ => 0)
                 [call_rotation 1; call_rgb false; call_rotation 7])
              tft_X in
  value pyb_tft_size self = (160, 128) /\
  0 < size0 self <= 160 /\ 0 < size1 self <= 160 /\
  size0 self * size1 self = 20480.
Proof.
  exact (size_follows_rotation [] (fun _ _ => 0) any_pin "X" "X1" "X2" tft_X _
           [call_rotation 1; call_rgb false; call_rotation 7] make_new_X).
Defined.

Lemma rotation_mod_4_witness :
  pyb_tft_rotation 5 tft_X = pyb_tft_rotation 1 tft_X /\
  frames (pyb_tft_rotation 1) tft_X = [(ST_MADCTL, [0x60])].
Proof.
  destruct (rotation_mod_4 1 1 tft_X) as (H1 & _ & H3).
  split; [exact H1 | exact (H3 wired_tft_X)].
Defined.

Lemma rgb_writes_on_change_witness :
  pyb_tft_rgb true tft_X = (tt, tft_X, []) /\
  frames (pyb_tft_rgb false) tft_X = [(ST_MADCTL, [0x08])].
Proof.
  split.
  - apply (proj1 (proj2 (rgb_writes_on_change true tft_X))). reflexivity.
  - apply (proj2 (proj2 (rgb_writes_on_change false tft_X)) wired_tft_X).
    simpl. lia.
Defined.

Lemma madctl_byte_decodes_witness :
  Z.land (madctl_data tft_X) 0x08 = TFTRGB /\
  Z.land (madctl_data tft_X) 0xE0 = 0x00.
Proof.
  destruct (madctl_byte_decodes tft_X) as (H1 & H2 & _); [simpl; lia|].
  split; [exact H1 | exact H2].
Defined.

Lemma make_new_accepts_witness :
  (exists tft t,
     pyb_tft_make_new any_pin ("X" ++ String Ascii.zero "Y")%string
                      "X1" "X2" = inr (tft, t)) /\
  pyb_tft_make_new any_pin ("Z" ++ String Ascii.zero "x")%string
                   "X1" "X2" =
    inl (ValueError "SPI bus 'Z' does not exist") /\
  pyb_tft_make_new (fun _ => None) "y" "X1" "X2" =
    inl (ValueError "dc pin 'X1' does not exist").
Proof.
  split; [|split].
  - apply (proj2 (proj1 (make_new_accepts
                           any_pin ("X" ++ String Ascii.zero "Y")%string
                           "X1" "X2"))).
    split; [right; left; reflexivity | split; discriminate].
  - apply (proj1 (proj2 (proj2 (make_new_accepts
                                  any_pin
                                  ("Z" ++ String Ascii.zero "x")%string
                                  "X1" "X2")))).
    intros [H|[H|[H|H]]]; discriminate H.
  - apply (proj1 (proj2 (proj2 (proj2 (make_new_accepts
                                         (fun _ => None) "y" "X1" "X2"))))).
    + right. right. left. reflexivity.
    + reflexivity.
Defined.

Lemma tft_color_fields_witness :
  Z.land (Z.shiftr (tft_color 255 128 7) 5) 0x3F = 32 /\
  Z.land (tft_color 255 128 7) 0x1F = 0 /\
  tft_color 255 128 7 = tft_color 248 131 0.
Proof.
  destruct (tft_color_fields 255 128 7 248 131 0) as (H1 & H2 & H3); try lia.
  split; [exact H1|]. split; [exact H2|].
  apply H3. repeat split.
Defined.

Lemma fillrect_fills_its_window_witness :
  decode tft_X true false (trace (pyb_tft_fillrect (126, 158) (5, 5) 0xFFFF) tft_X) =
    window_bytes (126, 158, 128, 160) ++ color_run 0xFFFF 9.
Proof.
  apply (fillrect_fills_its_window tft_X (126, 158) (5, 5) 0xFFFF true false
           wired_tft_X); simpl; unfold INT_MAX; lia.
Defined.

Lemma fill_covers_display_witness :
  decode tft_X true false (trace (pyb_tft_fill None) tft_X) =
    window_bytes (0, 0, 127, 159) ++ color_run 0 20480.
Proof.
  apply (fill_covers_display tft_X None true false wired_tft_X); simpl; lia.
Defined.

Lemma line_streams_len_witness :
  decode tft_X true false (trace (pyb_tft_hline (10, 10) (-3) 0xFFFF) tft_X) =
    window_bytes (7, 10, 10, 10) ++ color_run 0xFFFF (-3) /\
  color_run 0xFFFF (-3) = [].
Proof.
  destruct (line_streams_len tft_X (10, 10) (-3) 0xFFFF true false wired_tft_X)
    as (H1 & _ & H3).
  split; [exact H1 | apply H3; lia].
Defined.

Lemma line_axis_symmetric_witness :
  pyb_tft_line (0, 5) (10, 5) 0xFFFF = pyb_tft_line (10, 5) (0, 5) 0xFFFF.
Proof.
  apply line_axis_symmetric; simpl; unfold INT_MAX; lia.
Defined.


Lemma line_terminates_witness :
  value (line_bresenham 0 0 4 4 0xFFFF) tft_X = true.
Proof.
  apply (proj1 (line_terminates (0, 0) (4, 4) 0xFFFF tft_X
                  ltac:(unfold is_int, INT_MIN, INT_MAX; simpl; lia)
                  ltac:(unfold is_int, INT_MIN, INT_MAX; simpl; lia)
                  ltac:(unfold is_int, INT_MIN, INT_MAX; simpl; lia)
                  ltac:(unfold is_int, INT_MIN, INT_MAX; simpl; lia))).
Defined.

Lemma text_without_glyphs_witness :
  trace (pyb_tft_text [] (0, 0) [10; 13; 200] 0xFFFF None SizeDefault) tft_X = [].
Proof.
  apply (proj1 (text_without_glyphs [] (0, 0) [10; 13; 200] 0xFFFF
                  two_glyphs SizeDefault tft_X)).
  repeat constructor; lia.
Defined.

Lemma circle_small_radius_witness :
  pyb_tft_fillcircle (fun _ _ => 0) (5, 5) 0 0xFFFF tft_X = (tt, tft_X, []) /\
  pyb_tft_circle (fun _ _ => 0) (5, 5) (-3) 0xFFFF tft_X = (tt, tft_X, []) /\
  pyb_tft_circle (fun _ _ => 0) (5, 5) (-2966137) 0xFFFF tft_X =
    (tt, tft_X, []) /\
  trace (pyb_tft_circle (fun _ _ => 0) (5, 5) 0 0xFFFF) tft_X =
    List.concat (repeat (trace (_pixel 5 5 (color_bytes 0xFFFF)) tft_X) 8).
Proof.
  split; [|split; [|split]].
  - apply (proj1 (circle_small_radius (fun _ _ => 0) (5, 5) 0 0xFFFF tft_X)). lia.
  - apply (proj1 (proj2 (circle_small_radius (fun _ _ => 0) (5, 5) (-3)
                           0xFFFF tft_X))).
    vm_compute. reflexivity.
  - refine (proj2 (proj2 (proj1 (proj2 (proj2
             (circle_small_radius (fun _ _ => 0) (5, 5) (-2966137)
                                  0xFFFF tft_X))) _))).
    lia.
  - apply (proj2 (proj2 (proj2 (circle_small_radius (fun _ _ => 0) (5, 5) 0
                                  0xFFFF tft_X)))).
    + reflexivity.
    + reflexivity.
    + unfold is_int, INT_MIN, INT_MAX. simpl. lia.
    + unfold is_int, INT_MIN, INT_MAX. simpl. lia.
Defined.

Lemma init_variants_witness :
  last_write ST_CASET (frames pyb_tft_initg tft_X) = Some [0; 1; 0; 127] /\
  last_write ST_RASET (frames pyb_tft_initb tft_X) = Some [0; 2; 1; 159].
Proof.
  destruct (init_variants tft_X wired_tft_X)
    as (_ & _ & (H1 & _) & (_ & H2) & _).
  split; [exact H1 | exact H2].
Defined.

Lemma rect_is_four_lines_witness :
  decode tft_X true false (trace (pyb_tft_rect (0, 0) (3, 2) 0xFFFF) tft_X) =
    (window_bytes (0, 1, 3, 1) ++ color_run 0xFFFF 3) ++
    (window_bytes (0, 0, 3, 0) ++ color_run 0xFFFF 3) ++
    (window_bytes (0, 0, 0, 2) ++ color_run 0xFFFF 2) ++
    (window_bytes (2, 0, 2, 2) ++ color_run 0xFFFF 2).
Proof.
  exact (rect_is_four_lines tft_X (0, 0) (3, 2) 0xFFFF true false wired_tft_X).
Defined.

Lemma clamp_properties_witness :
  0 <= _clamp 0 128 200 <= 128 /\ _clamp 0 128 200 = 128.
Proof.
  destruct (clamp_properties 0 128 200 300) as (H1 & _); [lia|].
  split; [exact H1 | reflexivity].
Defined.

Lemma drawchar_cost_witness :
  transmits (trace (_drawchar 0 0 65 (color_bytes 0xFFFF) two_glyphs 2 2) tft_X) =
    (3 * (11 + 2 * 4))%nat.
Proof.
  apply (proj1 (drawchar_cost tft_X 0 0 65 (color_bytes 0xFFFF) two_glyphs 2 2
                  ltac:(simpl; lia))).
  left. lia.
Defined.
